(** * libmbcommon: the File handle, its state machine and its backends

    A shallow embedding of [libmbcommon/src/file.cpp],
    [libmbcommon/src/file/callbacks.cpp], [libmbcommon/src/file/memory.cpp]
    and of the callbacks of [file/fd.cpp], [file/posix.cpp] and
    [file/win32.cpp].

    Conventions.
    - Pointers ([void *], [size_t *], [FILE *], [HANDLE]) are addresses in
      [Z]; [0] is [nullptr].
    - A callback slot is an [option]: [None] is a null function pointer.
    - Everything a callback can reach through its [userdata] pointer is the
      world [W].  A callback also receives the handle ([File &]); as every
      backend of the library does, it uses it only to report an error with
      [File::set_error], so a callback reads and returns the handle's error
      slot.
    - The list [calls] of a machine is ghost state: it records which
      callbacks the core has invoked, in order. *)

From Stdlib Require Import ZArith List String Lia Bool.
From Stdlib Require Import Strings.Byte.
From stdpp Require Import base option list gmap.

Local Open Scope string_scope.
Local Open Scope list_scope.
Local Open Scope Z_scope.

(** ** Status, state and error codes (mbcommon/file.h) *)

Module FileStatus.

Inductive t : Set := OK | RETRY | UNSUPPORTED | WARN | FAILED | FATAL.

(** The enumerators' values. *)
Definition to_Z (s : t) : Z :=
  match s with
  | OK => 0
  | RETRY => -1
  | UNSUPPORTED => -2
  | WARN => -3
  | FAILED => -4
  | FATAL => -5
  end.

(** [a < b], [a <= b], [a == b] on an enum class compare the values. *)
Definition ltb (a b : t) : bool := to_Z a <? to_Z b.
Definition leb (a b : t) : bool := to_Z a <=? to_Z b.
Definition eqb (a b : t) : bool := to_Z a =? to_Z b.

#[global] Instance eq_dec : EqDecision t.
Proof. solve_decision. Defined.

End FileStatus.

Module FileError.
Definition NONE : Z := 0.
Definition INVALID_ARGUMENT : Z := 1.
Definition UNSUPPORTED : Z := 2.
Definition PROGRAMMER_ERROR : Z := 3.
Definition INTERNAL_ERROR : Z := 4.
End FileError.

Module FileState.

Inductive t : Set := NEW | OPENED | CLOSED | FATAL.

(** Modelled from the spec: mbcommon/file_p.h, which declares the
    FileState flags, is not among the sources.  The spec has exactly one
    of the four states hold at a time and the code tests a state against
    an or-ed mask of states, so each state is one bit of its own. *)
Definition bit (s : t) : Z :=
  match s with
  | NEW => Z.shiftl 1 1
  | OPENED => Z.shiftl 1 2
  | CLOSED => Z.shiftl 1 3
  | FATAL => Z.shiftl 1 4
  end.

(** [state & STATES], as a truth value. *)
Definition test (s : t) (mask : Z) : bool := negb (Z.land (bit s) mask =? 0).

#[global] Instance eq_dec : EqDecision t.
Proof. solve_decision. Defined.

End FileState.

(** ** printf-style arguments of [set_error] *)

Inductive FmtArg : Type :=
| ArgStr (s : string)
| ArgInt (z : Z).

(** The error slot of a handle: [error_code] and [error_string]. *)
Definition ErrSlot : Type := Z * string.

(** Callbacks invoked by the core, for the ghost log. *)
Inductive Call : Set :=
| CallOpen | CallClose | CallRead | CallWrite | CallSeek | CallTruncate.

#[global] Instance Call_eq_dec : EqDecision Call.
Proof. solve_decision. Defined.

(** ** The File core (file.cpp) *)

Section FileCore.

(** What the callbacks act on. *)
Context {W : Type}.

(** [mb::format_v (buf, fmt, ap)] of mbcommon/string.h: from the old
    contents of the buffer, the format and its arguments to the new
    contents and whether formatting succeeded. *)
Variable format_v : string -> string -> list FmtArg -> string * bool.

Definition CbResult : Type := FileStatus.t * W * ErrSlot.

Definition OpenCb : Type := Z -> W -> ErrSlot -> CbResult.
Definition CloseCb : Type := Z -> W -> ErrSlot -> CbResult.
(** userdata, buf, size, bytes_read *)
Definition ReadCb : Type := Z -> Z -> Z -> Z -> W -> ErrSlot -> CbResult.
(** userdata, buf, size, bytes_written *)
Definition WriteCb : Type := Z -> Z -> Z -> Z -> W -> ErrSlot -> CbResult.
(** userdata, offset, whence; the last component of the result is what
    the callback stores through its [new_offset] argument. *)
Definition SeekCb : Type := Z -> Z -> Z -> W -> ErrSlot -> CbResult * Z.
(** userdata, size *)
Definition TruncateCb : Type := Z -> Z -> W -> ErrSlot -> CbResult.

(** Modelled from the spec: mbcommon/file_p.h, which declares FilePrivate,
    is not among the sources.  The spec gives a handle its state, six
    optional callback slots, one user-context pointer and the last error
    code and message; these are the members file.cpp reads and writes. *)
Record FilePrivate : Type := mkFilePrivate {
  state : FileState.t;
  open_cb : option OpenCb;
  close_cb : option CloseCb;
  read_cb : option ReadCb;
  write_cb : option WriteCb;
  seek_cb : option SeekCb;
  truncate_cb : option TruncateCb;
  cb_userdata : Z;
  error_code : Z;
  error_string : string
}.

Definition with_state (s : FileState.t) (p : FilePrivate) : FilePrivate :=
  mkFilePrivate s (open_cb p) (close_cb p) (read_cb p) (write_cb p)
    (seek_cb p) (truncate_cb p) (cb_userdata p) (error_code p)
    (error_string p).

Definition with_error (e : ErrSlot) (p : FilePrivate) : FilePrivate :=
  mkFilePrivate (state p) (open_cb p) (close_cb p) (read_cb p) (write_cb p)
    (seek_cb p) (truncate_cb p) (cb_userdata p) (fst e) (snd e).

Definition err_slot (p : FilePrivate) : ErrSlot :=
  (error_code p, error_string p).

(** A handle together with the world of its callbacks and the log. *)
Record Machine : Type := mkMachine {
  priv : FilePrivate;
  world : W;
  calls : list Call
}.

(** File::File(): the state is NEW; the other members are as
    [CheckInitialValues] of tests/test_file.cpp finds them. *)
Definition File_new (w : W) : Machine :=
  mkMachine
    (mkFilePrivate FileState.NEW None None None None None None 0
       FileError.NONE "")
    w [].

(** *** A state monad over machines *)

Definition M (A : Type) : Type := Machine -> A * Machine.

Definition ret {A} (a : A) : M A := fun m => (a, m).

Definition bind {A B} (c : M A) (k : A -> M B) : M B :=
  fun m => let (a, m') := c m in k a m'.

Definition get_priv : M FilePrivate := fun m => (priv m, m).

Definition modify_priv (f : FilePrivate -> FilePrivate) : M unit :=
  fun m => (tt, mkMachine (f (priv m)) (world m) (calls m)).

Definition set_state (s : FileState.t) : M unit := modify_priv (with_state s).

Notation "x <- c ;; k" := (bind c (fun x => k))
  (at level 100, c at next level, right associativity).
Notation "c ;;; k" := (bind c (fun _ => k))
  (at level 100, right associativity).

(** *** Error reporting *)

(** File::set_error_v: the code is stored, then the message is formatted
    into [error_string]. *)
Definition set_error_v (code : Z) (fmt : string) (ap : list FmtArg)
  : M FileStatus.t :=
  fun m =>
    let p := priv m in
    let (s, ok) := format_v (error_string p) fmt ap in
    (if ok then FileStatus.OK else FileStatus.FAILED,
     mkMachine (with_error (code, s) p) (world m) (calls m)).

(** File::set_error *)
Definition set_error (code : Z) (fmt : string) (args : list FmtArg)
  : M FileStatus.t :=
  set_error_v code fmt args.

(** File::set_error as a callback sees it, on the error slot alone. *)
Definition set_error_slot (code : Z) (fmt : string) (args : list FmtArg)
  (e : ErrSlot) : FileStatus.t * ErrSlot :=
  let (s, ok) := format_v (snd e) fmt args in
  (if ok then FileStatus.OK else FileStatus.FAILED, (code, s)).

(** File::error, File::error_string *)
Definition error : M Z := fun m => (error_code (priv m), m).
Definition error_string_of : M string := fun m => (error_string (priv m), m).

(** The macro ENSURE_STATE; [fail] is what the enclosing function returns
    with FileStatus::FATAL. *)
Definition ENSURE_STATE {A} (STATES : Z) (func : string) (fail : A)
  (body : M A) : M A :=
  p <- get_priv ;;
  if negb (FileState.test (state p) STATES) then
    set_error FileError.PROGRAMMER_ERROR
      "%s: Invalid state: expected 0x%hx, actual: 0x%hx"
      [ArgStr func; ArgInt STATES; ArgInt (FileState.bit (state p))] ;;;
    set_state FileState.FATAL ;;;
    ret fail
  else body.

(** The machine a failed state check leaves behind: the error is
    PROGRAMMER_ERROR, the state is FATAL, nothing else has changed. *)
Definition rejected (STATES : Z) (func : string) (m : Machine) : Machine :=
  mkMachine
    (with_state FileState.FATAL
       (with_error
          (FileError.PROGRAMMER_ERROR,
           fst (format_v (error_string (priv m))
                  "%s: Invalid state: expected 0x%hx, actual: 0x%hx"
                  [ArgStr func; ArgInt STATES;
                   ArgInt (FileState.bit (state (priv m)))]))
          (priv m)))
    (world m) (calls m).

(** A call through a callback pointer: the callback runs on the world and
    on the handle's error slot. *)
Definition invoke (c : Call) (f : W -> ErrSlot -> CbResult)
  : M FileStatus.t :=
  fun m =>
    let '(r, w, e) := f (world m) (err_slot (priv m)) in
    (r, mkMachine (with_error e (priv m)) w (calls m ++ [c])).

(** *** Setters *)

Definition store_open_cb (cb : option OpenCb) (p : FilePrivate) :=
  mkFilePrivate (state p) cb (close_cb p) (read_cb p) (write_cb p)
    (seek_cb p) (truncate_cb p) (cb_userdata p) (error_code p)
    (error_string p).

Definition store_close_cb (cb : option CloseCb) (p : FilePrivate) :=
  mkFilePrivate (state p) (open_cb p) cb (read_cb p) (write_cb p)
    (seek_cb p) (truncate_cb p) (cb_userdata p) (error_code p)
    (error_string p).

Definition store_read_cb (cb : option ReadCb) (p : FilePrivate) :=
  mkFilePrivate (state p) (open_cb p) (close_cb p) cb (write_cb p)
    (seek_cb p) (truncate_cb p) (cb_userdata p) (error_code p)
    (error_string p).

Definition store_write_cb (cb : option WriteCb) (p : FilePrivate) :=
  mkFilePrivate (state p) (open_cb p) (close_cb p) (read_cb p) cb
    (seek_cb p) (truncate_cb p) (cb_userdata p) (error_code p)
    (error_string p).

Definition store_seek_cb (cb : option SeekCb) (p : FilePrivate) :=
  mkFilePrivate (state p) (open_cb p) (close_cb p) (read_cb p) (write_cb p)
    cb (truncate_cb p) (cb_userdata p) (error_code p) (error_string p).

Definition store_truncate_cb (cb : option TruncateCb) (p : FilePrivate) :=
  mkFilePrivate (state p) (open_cb p) (close_cb p) (read_cb p) (write_cb p)
    (seek_cb p) cb (cb_userdata p) (error_code p) (error_string p).

Definition store_cb_userdata (u : Z) (p : FilePrivate) :=
  mkFilePrivate (state p) (open_cb p) (close_cb p) (read_cb p) (write_cb p)
    (seek_cb p) (truncate_cb p) u (error_code p) (error_string p).

Definition set_open_callback (cb : option OpenCb) : M FileStatus.t :=
  ENSURE_STATE (FileState.bit FileState.NEW) "set_open_callback"
    FileStatus.FATAL
    (modify_priv (store_open_cb cb) ;;; ret FileStatus.OK).

Definition set_close_callback (cb : option CloseCb) : M FileStatus.t :=
  ENSURE_STATE (FileState.bit FileState.NEW) "set_close_callback"
    FileStatus.FATAL
    (modify_priv (store_close_cb cb) ;;; ret FileStatus.OK).

Definition set_read_callback (cb : option ReadCb) : M FileStatus.t :=
  ENSURE_STATE (FileState.bit FileState.NEW) "set_read_callback"
    FileStatus.FATAL
    (modify_priv (store_read_cb cb) ;;; ret FileStatus.OK).

Definition set_write_callback (cb : option WriteCb) : M FileStatus.t :=
  ENSURE_STATE (FileState.bit FileState.NEW) "set_write_callback"
    FileStatus.FATAL
    (modify_priv (store_write_cb cb) ;;; ret FileStatus.OK).

Definition set_seek_callback (cb : option SeekCb) : M FileStatus.t :=
  ENSURE_STATE (FileState.bit FileState.NEW) "set_seek_callback"
    FileStatus.FATAL
    (modify_priv (store_seek_cb cb) ;;; ret FileStatus.OK).

Definition set_truncate_callback (cb : option TruncateCb)
  : M FileStatus.t :=
  ENSURE_STATE (FileState.bit FileState.NEW) "set_truncate_callback"
    FileStatus.FATAL
    (modify_priv (store_truncate_cb cb) ;;; ret FileStatus.OK).

Definition set_callback_data (userdata : Z) : M FileStatus.t :=
  ENSURE_STATE (FileState.bit FileState.NEW) "set_callback_data"
    FileStatus.FATAL
    (modify_priv (store_cb_userdata userdata) ;;; ret FileStatus.OK).

(** *** open and close *)

(** File::open *)
Definition open : M FileStatus.t :=
  ENSURE_STATE (FileState.bit FileState.NEW) "open" FileStatus.FATAL
    (p <- get_priv ;;
     r <- match open_cb p with
          | Some cb => invoke CallOpen (cb (cb_userdata p))
          | None => ret FileStatus.OK
          end ;;
     (if FileStatus.eqb r FileStatus.OK then set_state FileState.OPENED
      else if FileStatus.leb r FileStatus.FATAL
           then set_state FileState.FATAL
           else ret tt) ;;;
     (* If the file was not successfully opened, then close it *)
     match close_cb p with
     | Some cb =>
         if negb (FileStatus.eqb r FileStatus.OK)
         then invoke CallClose (cb (cb_userdata p)) ;;; ret tt
         else ret tt
     | None => ret tt
     end ;;;
     ret r).

(** File::close *)
Definition close : M FileStatus.t :=
  p <- get_priv ;;
  r <- (if negb (FileState.test (state p)
                   (Z.lor (FileState.bit FileState.CLOSED)
                          (FileState.bit FileState.NEW)))
        then match close_cb p with
             | Some cb => invoke CallClose (cb (cb_userdata p))
             | None => ret FileStatus.OK
             end
        else ret FileStatus.OK) ;;
  set_state FileState.CLOSED ;;;
  ret r.

(** File::~File *)
Definition File_destroy : M unit :=
  p <- get_priv ;;
  if decide (state p = FileState.CLOSED) then ret tt
  else close ;;; ret tt.

(** *** File operations *)

(** File::read *)
Definition read (buf size bytes_read : Z) : M FileStatus.t :=
  ENSURE_STATE (FileState.bit FileState.OPENED) "read" FileStatus.FATAL
    (p <- get_priv ;;
     r <- (if bytes_read =? 0 then
             set_error FileError.PROGRAMMER_ERROR
               "%s: bytes_read is NULL" [ArgStr "read"] ;;;
             ret FileStatus.FATAL
           else
             match read_cb p with
             | Some cb =>
                 invoke CallRead (cb (cb_userdata p) buf size bytes_read)
             | None =>
                 set_error FileError.UNSUPPORTED
                   "%s: No read callback registered" [ArgStr "read"] ;;;
                 ret FileStatus.UNSUPPORTED
             end) ;;
     (if FileStatus.leb r FileStatus.FATAL
      then set_state FileState.FATAL else ret tt) ;;;
     ret r).

(** File::write *)
Definition write (buf size bytes_written : Z) : M FileStatus.t :=
  ENSURE_STATE (FileState.bit FileState.OPENED) "write" FileStatus.FATAL
    (p <- get_priv ;;
     r <- (if bytes_written =? 0 then
             set_error FileError.PROGRAMMER_ERROR
               "%s: bytes_written is NULL" [ArgStr "write"] ;;;
             ret FileStatus.FATAL
           else
             match write_cb p with
             | Some cb =>
                 invoke CallWrite
                   (cb (cb_userdata p) buf size bytes_written)
             | None =>
                 set_error FileError.UNSUPPORTED
                   "%s: No write callback registered" [ArgStr "write"] ;;;
                 ret FileStatus.UNSUPPORTED
             end) ;;
     (if FileStatus.leb r FileStatus.FATAL
      then set_state FileState.FATAL else ret tt) ;;;
     ret r).

(** File::seek.  [want_new_offset] is whether the caller's [new_offset]
    is non-null; the second component of the result is what the core
    stores through it. *)
Definition seek (offset whence : Z) (want_new_offset : bool)
  : M (FileStatus.t * option Z) :=
  ENSURE_STATE (FileState.bit FileState.OPENED) "seek"
    (FileStatus.FATAL, None)
    (p <- get_priv ;;
     rt <- match seek_cb p with
           | Some cb =>
               fun m =>
                 let '(r, w, e, new_offset_temp) :=
                   cb (cb_userdata p) offset whence (world m)
                      (err_slot (priv m)) in
                 ((r, Some new_offset_temp),
                  mkMachine (with_error e (priv m)) w
                    (calls m ++ [CallSeek]))
           | None =>
               set_error FileError.UNSUPPORTED
                 "%s: No seek callback registered" [ArgStr "seek"] ;;;
               ret (FileStatus.UNSUPPORTED, None)
           end ;;
     let (r, new_offset_temp) := rt in
     if FileStatus.eqb r FileStatus.OK then
       ret (r, if want_new_offset then new_offset_temp else None)
     else
       (if FileStatus.leb r FileStatus.FATAL
        then set_state FileState.FATAL else ret tt) ;;;
       ret (r, None)).

(** File::truncate *)
Definition truncate (size : Z) : M FileStatus.t :=
  ENSURE_STATE (FileState.bit FileState.OPENED) "truncate" FileStatus.FATAL
    (p <- get_priv ;;
     r <- match truncate_cb p with
          | Some cb => invoke CallTruncate (cb (cb_userdata p) size)
          | None =>
              set_error FileError.UNSUPPORTED
                "%s: No truncate callback registered"
                [ArgStr "truncate"] ;;;
              ret FileStatus.UNSUPPORTED
          end ;;
     (if FileStatus.leb r FileStatus.FATAL
      then set_state FileState.FATAL else ret tt) ;;;
     ret r).

(** *** file_open_callbacks (file/callbacks.cpp) *)

(** [if (ret2 < ret) ret = ret2;] *)
Definition take_lower (ret0 ret2 : FileStatus.t) : FileStatus.t :=
  if FileStatus.ltb ret2 ret0 then ret2 else ret0.

Definition file_open_callbacks
  (open_cb' : option OpenCb) (close_cb' : option CloseCb)
  (read_cb' : option ReadCb) (write_cb' : option WriteCb)
  (seek_cb' : option SeekCb) (truncate_cb' : option TruncateCb)
  (userdata : Z) : M FileStatus.t :=
  let ret0 := FileStatus.OK in
  ret2 <- set_open_callback open_cb' ;;
  let ret0 := take_lower ret0 ret2 in
  ret2 <- set_close_callback close_cb' ;;
  let ret0 := take_lower ret0 ret2 in
  ret2 <- set_read_callback read_cb' ;;
  let ret0 := take_lower ret0 ret2 in
  ret2 <- set_write_callback write_cb' ;;
  let ret0 := take_lower ret0 ret2 in
  ret2 <- set_seek_callback seek_cb' ;;
  let ret0 := take_lower ret0 ret2 in
  ret2 <- set_truncate_callback truncate_cb' ;;
  let ret0 := take_lower ret0 ret2 in
  ret2 <- set_callback_data userdata ;;
  let ret0 := take_lower ret0 ret2 in
  ret2 <- open ;;
  let ret0 := take_lower ret0 ret2 in
  ret ret0.

(** *** Sequences of calls on one handle *)

Inductive Setter : Type :=
| SetOpenCallback (cb : option OpenCb)
| SetCloseCallback (cb : option CloseCb)
| SetReadCallback (cb : option ReadCb)
| SetWriteCallback (cb : option WriteCb)
| SetSeekCallback (cb : option SeekCb)
| SetTruncateCallback (cb : option TruncateCb)
| SetCallbackData (userdata : Z).

Definition call_setter (s : Setter) : M FileStatus.t :=
  match s with
  | SetOpenCallback cb => set_open_callback cb
  | SetCloseCallback cb => set_close_callback cb
  | SetReadCallback cb => set_read_callback cb
  | SetWriteCallback cb => set_write_callback cb
  | SetSeekCallback cb => set_seek_callback cb
  | SetTruncateCallback cb => set_truncate_callback cb
  | SetCallbackData u => set_callback_data u
  end.

(** The assignment a setter performs once its state check has passed. *)
Definition store_setter (s : Setter) (p : FilePrivate) : FilePrivate :=
  match s with
  | SetOpenCallback cb => store_open_cb cb p
  | SetCloseCallback cb => store_close_cb cb p
  | SetReadCallback cb => store_read_cb cb p
  | SetWriteCallback cb => store_write_cb cb p
  | SetSeekCallback cb => store_seek_cb cb p
  | SetTruncateCallback cb => store_truncate_cb cb p
  | SetCallbackData u => store_cb_userdata u p
  end.

Inductive Op : Type :=
| DoSet (s : Setter)
| DoOpen
| DoClose
| DoRead (buf size bytes_read : Z)
| DoWrite (buf size bytes_written : Z)
| DoSeek (offset whence : Z) (want_new_offset : bool)
| DoTruncate (size : Z).

Definition run_op (o : Op) : M FileStatus.t :=
  match o with
  | DoSet s => call_setter s
  | DoOpen => open
  | DoClose => close
  | DoRead buf size bytes_read => read buf size bytes_read
  | DoWrite buf size bytes_written => write buf size bytes_written
  | DoSeek offset whence want =>
      rt <- seek offset whence want ;; ret (fst rt)
  | DoTruncate size => truncate size
  end.

Fixpoint run_ops (os : list Op) : M (list FileStatus.t) :=
  match os with
  | [] => ret []
  | o :: os' =>
      r <- run_op o ;;
      rs <- run_ops os' ;;
      ret (r :: rs)
  end.


(** How often the close callback has run. *)
Definition close_calls (m : Machine) : nat :=
  length (filter (eq CallClose) (calls m)).

(** What the registered open callback returns when it is called with the
    stored user data on the handle's world and error slot; OK, and nothing
    changed, if none is registered. *)
Definition open_cb_outcome (m : Machine) : CbResult :=
  match open_cb (priv m) with
  | Some cb => cb (cb_userdata (priv m)) (world m) (err_slot (priv m))
  | None => (FileStatus.OK, world m, err_slot (priv m))
  end.

Definition open_cb_log (m : Machine) : list Call :=
  match open_cb (priv m) with Some _ => [CallOpen] | None => [] end.

(** Likewise for the close callback, run on a given world and error
    slot. *)
Definition close_cb_outcome (m : Machine) (w : W) (e : ErrSlot) : CbResult :=
  match close_cb (priv m) with
  | Some cb => cb (cb_userdata (priv m)) w e
  | None => (FileStatus.OK, w, e)
  end.

Definition close_cb_log (m : Machine) : list Call :=
  match close_cb (priv m) with Some _ => [CallClose] | None => [] end.

(** The six callback slots and the user data of a handle. *)
Definition slots (p : FilePrivate) :=
  (open_cb p, close_cb p, read_cb p, write_cb p, seek_cb p, truncate_cb p,
   cb_userdata p).


(** The machine a handle's whole life leaves behind: the calls [os] on a
    fresh handle, then the destructor. *)
Definition lifetime (w : W) (os : list Op) : Machine :=
  snd (File_destroy (snd (run_ops os (File_new w)))).

End FileCore.

(** ** The memory backend (file/memory.cpp) *)

(** [size_t] is 32 bits wide on the 32-bit targets of the library and 64
    bits wide on the 64-bit ones. *)
Inductive Platform : Set := ILP32 | LP64.

Definition size_bits (pf : Platform) : Z :=
  match pf with ILP32 => 32 | LP64 => 64 end.

Definition SIZE_MAX (pf : Platform) : Z := 2 ^ size_bits pf - 1.

(** Conversions to [size_t], [uint64_t] and [int64_t] wrap. *)
Definition to_size_t (pf : Platform) (z : Z) : Z := z mod 2 ^ size_bits pf.
Definition to_uint64 (z : Z) : Z := z mod 2 ^ 64.
Definition to_int64 (z : Z) : Z := (z + 2 ^ 63) mod 2 ^ 64 - 2 ^ 63.

(** [-offset] on an [int64_t]; for INT64_MIN the behaviour is undefined in
    C++, and the two's complement result is taken here. *)
Definition neg_int64 (z : Z) : Z := to_int64 (- z).

Definition INT64_MIN : Z := - 2 ^ 63.
Definition INT64_MAX : Z := 2 ^ 63 - 1.

(** stdio.h *)
Definition SEEK_SET : Z := 0.
Definition SEEK_CUR : Z := 1.
Definition SEEK_END : Z := 2.

(** The memory the backend works on: allocated byte blocks by address, and
    the caller's [void *] and [size_t] objects by address. *)
Record Memory : Type := mkMemory {
  blocks : gmap Z (list byte);
  ptr_cells : gmap Z Z;
  size_cells : gmap Z Z
}.

Definition with_blocks (b : gmap Z (list byte)) (mem : Memory) : Memory :=
  mkMemory b (ptr_cells mem) (size_cells mem).

(** [*p = v] for [void **p] and for [size_t *p]. *)
Definition store_ptr (p v : Z) (mem : Memory) : Memory :=
  mkMemory (blocks mem) (<[p := v]> (ptr_cells mem)) (size_cells mem).
Definition store_size (p v : Z) (mem : Memory) : Memory :=
  mkMemory (blocks mem) (ptr_cells mem) (<[p := v]> (size_cells mem)).

(** The bytes of the block at [p]; no bytes if nothing is allocated there. *)
Definition block_at (mem : Memory) (p : Z) : list byte :=
  default [] (blocks mem !! p).

(** What one call of [realloc] does is up to the allocator.  It fails with
    an errno and returns a null pointer, the old block untouched; or it
    returns a block at an address of its choice, which is not null, whose
    bytes beyond the old contents are whatever was there ([junk]); or,
    asked for size 0, it frees the old block and returns a null pointer
    all the same (as glibc does). *)
Inductive AllocOutcome : Type :=
| AllocFails (errno : Z)
| AllocGives (addr : positive) (junk : nat -> byte)
| AllocFrees (errno : Z).

Definition resized (old : list byte) (n : nat) (junk : nat -> byte)
  : list byte :=
  (fun i => default (junk i) (old !! i)) <$> seq 0 n.

(** [realloc (ptr, n)]: the pointer it returns and the memory it leaves.
    On success the old block is gone and the new one holds the first [n]
    bytes of the old contents.  A null pointer leaves the old block where
    it is, except when the allocator frees it on a request for size 0. *)
Definition realloc (o : AllocOutcome) (ptr n : Z) (mem : Memory)
  : Z * Memory :=
  match o with
  | AllocFails _ => (0, mem)
  | AllocGives q junk =>
      (Z.pos q,
       with_blocks
         (<[Z.pos q := resized (block_at mem ptr) (Z.to_nat n) junk]>
            (delete ptr (blocks mem))) mem)
  | AllocFrees _ =>
      if n =? 0 then (0, with_blocks (delete ptr (blocks mem)) mem)
      else (0, mem)
  end.

Definition errno_of (o : AllocOutcome) : Z :=
  match o with
  | AllocFails e | AllocFrees e => e
  | AllocGives _ _ => 0
  end.

(** What a call does when a path of it may leave the language: it returns,
    or its behaviour is undefined. *)
Inductive Outcome (A : Type) : Type :=
| Returns (a : A)
| Undefined.
Arguments Returns {A} _.
Arguments Undefined {A}.

(** [memset (p + off, 0, n)] and [memcpy (p + off, src, n)] inside the
    block at [p]; [memset_zero_in] is the [memset] where the range is not
    known to lie inside the block: [None] if it ends past the block's
    end. *)
Definition memset_zero (p off n : Z) (mem : Memory) : Memory :=
  with_blocks
    (alter (list_inserts (Z.to_nat off) (replicate (Z.to_nat n) x00)) p
       (blocks mem)) mem.

Definition memset_zero_in (p off n : Z) (mem : Memory) : option Memory :=
  if off + n <=? Z.of_nat (length (block_at mem p))
  then Some (memset_zero p off n mem) else None.

Definition memcpy_to (p off : Z) (src : list byte) (n : Z) (mem : Memory)
  : Memory :=
  with_blocks
    (alter (list_inserts (Z.to_nat off) (take (Z.to_nat n) src)) p
       (blocks mem)) mem.

(** Modelled from the spec: mbcommon/file/memory_p.h, which declares
    MemoryFileCtx, is not among the sources.  The spec gives the context a
    byte buffer, a logical size, a logical position, a fixed-size flag and
    optional caller-owned pointer and size slots; these are the members
    memory.cpp reads and writes.  [None] is a null slot pointer. *)
Record MemoryFileCtx : Type := mkMemoryFileCtx {
  data : Z;
  size : Z;
  data_ptr : option Z;
  size_ptr : option Z;
  pos : Z;
  fixed_size : bool
}.

(** What a memory callback leaves behind: its status, the context, the
    memory, the handle's error slot, and the value stored through its
    output pointer ([bytes_written], [new_offset]) if it stored one. *)
Record MemResult : Type := mkMemResult {
  m_status : FileStatus.t;
  m_ctx : MemoryFileCtx;
  m_mem : Memory;
  m_err : ErrSlot;
  m_out : option Z
}.

Section MemoryBackend.

Variable format_v : string -> string -> list FmtArg -> string * bool.
Variable strerror : Z -> string.
Variable pf : Platform.

Definition ctx_grow (new_data desired_size : Z) (ctx : MemoryFileCtx)
  : MemoryFileCtx :=
  mkMemoryFileCtx new_data desired_size (data_ptr ctx) (size_ptr ctx)
    (pos ctx) (fixed_size ctx).

Definition ctx_set_pos (new_pos : Z) (ctx : MemoryFileCtx)
  : MemoryFileCtx :=
  mkMemoryFileCtx (data ctx) (size ctx) (data_ptr ctx) (size_ptr ctx)
    new_pos (fixed_size ctx).

(** [if (ctx->data_ptr) *ctx->data_ptr = ctx->data;
     if (ctx->size_ptr) *ctx->size_ptr = ctx->size;] *)
Definition write_back (ctx : MemoryFileCtx) (mem : Memory) : Memory :=
  let mem1 :=
    match data_ptr ctx with
    | Some dp => store_ptr dp (data ctx) mem
    | None => mem
    end in
  match size_ptr ctx with
  | Some sp => store_size sp (size ctx) mem1
  | None => mem1
  end.

(** The tail of memory_write_cb, from the [memcpy] on. *)
Definition write_tail (ctx : MemoryFileCtx) (buf : list byte)
  (to_write : Z) (mem : Memory) (e : ErrSlot) : MemResult :=
  let mem' := memcpy_to (data ctx) (pos ctx) buf to_write mem in
  let ctx' := ctx_set_pos (to_size_t pf (pos ctx + to_write)) ctx in
  mkMemResult FileStatus.OK ctx' mem' e (Some to_write).

(** memory_write_cb.  [buf] holds the [size] bytes the caller passes;
    [alloc] is what [realloc] does if it is called. *)
Definition memory_write_cb (alloc : AllocOutcome) (ctx : MemoryFileCtx)
  (buf : list byte) (mem : Memory) (e : ErrSlot) : MemResult :=
  let size' := Z.of_nat (length buf) in
  if pos ctx >? SIZE_MAX pf - size' then
    let (_, e') :=
      set_error_slot format_v FileError.INVALID_ARGUMENT
        "Write would overflow size_t" [] e in
    mkMemResult FileStatus.FAILED ctx mem e' None
  else
    let desired_size := to_size_t pf (pos ctx + size') in
    let to_write := size' in
    if desired_size >? size ctx then
      if fixed_size ctx then
        let to_write :=
          if pos ctx <=? size ctx then size ctx - pos ctx else 0 in
        write_tail ctx buf to_write mem e
      else
        (* Enlarge buffer *)
        let (new_data, mem1) :=
          realloc alloc (data ctx) desired_size mem in
        if new_data =? 0 then
          let (_, e') :=
            set_error_slot format_v (- errno_of alloc)
              "Failed to enlarge buffer: %s"
              [ArgStr (strerror (errno_of alloc))] e in
          mkMemResult FileStatus.FAILED ctx mem1 e' None
        else
          (* Zero-initialize new space *)
          let mem2 :=
            memset_zero new_data (size ctx) (desired_size - size ctx)
              mem1 in
          let ctx' := ctx_grow new_data desired_size ctx in
          let mem3 := write_back ctx' mem2 in
          write_tail ctx' buf to_write mem3 e
    else write_tail ctx buf to_write mem e.

Definition seek_fail (ctx : MemoryFileCtx) (mem : Memory) (e : ErrSlot)
  (fmt : string) (args : list FmtArg) : MemResult :=
  let (_, e') :=
    set_error_slot format_v FileError.INVALID_ARGUMENT fmt args e in
  mkMemResult FileStatus.FAILED ctx mem e' None.

Definition seek_to (new_pos : Z) (ctx : MemoryFileCtx) (mem : Memory)
  (e : ErrSlot) : MemResult :=
  mkMemResult FileStatus.OK (ctx_set_pos new_pos ctx) mem e
    (Some (to_uint64 new_pos)).

(** memory_seek_cb; [offset] is an [int64_t]. *)
Definition memory_seek_cb (ctx : MemoryFileCtx) (offset whence : Z)
  (mem : Memory) (e : ErrSlot) : MemResult :=
  if whence =? SEEK_SET then
    if (offset <? 0) || (to_uint64 offset >? SIZE_MAX pf) then
      seek_fail ctx mem e "Invalid SEEK_SET offset %ld" [ArgInt offset]
    else seek_to (to_size_t pf offset) ctx mem e
  else if whence =? SEEK_CUR then
    if ((offset <? 0) && (to_uint64 (neg_int64 offset) >? pos ctx))
       || ((offset >? 0) && (to_uint64 offset >? SIZE_MAX pf - pos ctx))
    then
      seek_fail ctx mem e "Invalid SEEK_CUR offset %ld for position %zu"
        [ArgInt offset; ArgInt (pos ctx)]
    else seek_to (to_size_t pf (pos ctx + offset)) ctx mem e
  else if whence =? SEEK_END then
    if ((offset <? 0) && (to_size_t pf (neg_int64 offset) >? size ctx))
       || ((offset >? 0) && (to_uint64 offset >? SIZE_MAX pf - size ctx))
    then
      seek_fail ctx mem e
        "Invalid SEEK_END offset %ld for file of size %zu"
        [ArgInt offset; ArgInt (size ctx)]
    else seek_to (to_size_t pf (size ctx + offset)) ctx mem e
  else
    seek_fail ctx mem e "Invalid whence argument: %d" [ArgInt whence].

(** The absolute position a seek asks for, if its origin is one of the
    three. *)
Definition seek_target (ctx : MemoryFileCtx) (offset whence : Z)
  : option Z :=
  if whence =? SEEK_SET then Some offset
  else if whence =? SEEK_CUR then Some (pos ctx + offset)
  else if whence =? SEEK_END then Some (size ctx + offset)
  else None.

(** What a seek must do: in range, the position becomes the target and
    the target is reported; out of range, or with an unknown origin, the
    seek fails with INVALID_ARGUMENT and the context is as before. *)
Definition seek_checked (ctx : MemoryFileCtx) (offset whence : Z)
  (mem : Memory) (e : ErrSlot) (r : MemResult) : Prop :=
  match seek_target ctx offset whence with
  | Some target =>
      if (0 <=? target) && (target <=? SIZE_MAX pf) then
        m_status r = FileStatus.OK
        /\ pos (m_ctx r) = target /\ m_out r = Some target
        /\ size (m_ctx r) = size ctx /\ data (m_ctx r) = data ctx
        /\ m_mem r = mem /\ m_err r = e
      else
        m_status r = FileStatus.FAILED
        /\ fst (m_err r) = FileError.INVALID_ARGUMENT
        /\ m_ctx r = ctx /\ m_mem r = mem /\ m_out r = None
  | None =>
      m_status r = FileStatus.FAILED
      /\ fst (m_err r) = FileError.INVALID_ARGUMENT
      /\ m_ctx r = ctx /\ m_mem r = mem /\ m_out r = None
  end.

End MemoryBackend.

(** A 10-byte buffer with the position at 3, as file_open_memory_static
    sets it up and a seek has moved it. *)
Module SeekDouble.

Definition format_v (old fmt : string) (args : list FmtArg)
  : string * bool := (fmt, true).

Definition strerror (e : Z) : string := "error".

Definition bytes : list byte :=
  ["a"; "b"; "c"; "d"; "e"; "f"; "g"; "h"; "i"; "j"]%byte.

Definition mem : Memory := mkMemory {[ 4096 := bytes ]} ∅ ∅.

Definition ctx : MemoryFileCtx := mkMemoryFileCtx 4096 10 None None 3 true.

(** The same buffer, dynamic, with the caller's slots at 8 and 16. *)
Definition dyn_mem : Memory :=
  mkMemory {[ 4096 := bytes ]} {[ 8 := 4096 ]} {[ 16 := 10 ]}.

Definition dyn_ctx : MemoryFileCtx :=
  mkMemoryFileCtx 4096 10 (Some 8) (Some 16) 12 false.

End SeekDouble.

(** ** Open callbacks of the native backends
       (file/fd.cpp, file/posix.cpp, file/win32.cpp) *)

(** What a native callback leaves behind: its status, its context, the
    operating system's state and the handle's error slot. *)
Record NativeResult (C OS : Type) : Type := mkNativeResult {
  n_status : FileStatus.t;
  n_ctx : C;
  n_os : OS;
  n_err : ErrSlot
}.
Arguments mkNativeResult {C OS} _ _ _ _.
Arguments n_status {C OS} _.
Arguments n_ctx {C OS} _.
Arguments n_os {C OS} _.
Arguments n_err {C OS} _.

(** [S_IRUSR | S_IWUSR | S_IRGRP | S_IWGRP | S_IROTH | S_IWOTH] *)
Definition DEFAULT_MODE : Z := 0x1b6.

Section NativeBackends.

Variable format_v : string -> string -> list FmtArg -> string * bool.

(** The state of the operating system, with the calling thread's [errno]
    and last-error value. *)
Context {OS : Type}.
Variable errno : OS -> Z.
Variable GetLastError : OS -> Z.
Variable strerror : Z -> string.

(** sys/stat.h and errno.h of the target. *)
Variable S_ISDIR : Z -> bool.
Variable S_ISREG : Z -> bool.
Variable S_ISBLK : Z -> bool.
Variable EISDIR : Z.
(** Whether [__linux__] is defined. *)
Variable on_linux : bool.

(** *** Descriptors (fd.cpp) *)

(** The members of FdFileFuncs that the open callback calls.  [fn_fstat]
    gives its return value and the [st_mode] it stores in [*buf]. *)
Record FdFileFuncs : Type := mkFdFileFuncs {
  fn_open : string -> Z -> Z -> OS -> Z * OS;
  fd_fn_fstat : Z -> OS -> Z * Z * OS
}.

Record FdFileCtx : Type := mkFdFileCtx {
  fd : Z;
  fd_owned : bool;
  fd_filename : string;
  flags : Z;
  fd_funcs : FdFileFuncs
}.

Definition fd_set_fd (v : Z) (ctx : FdFileCtx) : FdFileCtx :=
  mkFdFileCtx v (fd_owned ctx) (fd_filename ctx) (flags ctx) (fd_funcs ctx).

Definition native_fail {C} (ctx : C) (os : OS) (e : ErrSlot) (code : Z)
  (fmt : string) (args : list FmtArg) : NativeResult C OS :=
  let (_, e') := set_error_slot format_v code fmt args e in
  mkNativeResult FileStatus.FAILED ctx os e'.

(** The part of fd_open_cb after the descriptor is there. *)
Definition fd_check_stat (ctx : FdFileCtx) (os : OS) (e : ErrSlot)
  : NativeResult FdFileCtx OS :=
  let '(rc, st_mode, os1) := fd_fn_fstat (fd_funcs ctx) (fd ctx) os in
  if rc <? 0 then
    native_fail ctx os1 e (- errno os1) "Failed to stat file: %s"
      [ArgStr (strerror (errno os1))]
  else if S_ISDIR st_mode then
    native_fail ctx os1 e (- EISDIR) "Cannot open directory" []
  else mkNativeResult FileStatus.OK ctx os1 e.

(** fd_open_cb *)
Definition fd_open_cb (ctx : FdFileCtx) (os : OS) (e : ErrSlot)
  : NativeResult FdFileCtx OS :=
  if negb (String.eqb (fd_filename ctx) "") then
    let (fd', os1) :=
      fn_open (fd_funcs ctx) (fd_filename ctx) (flags ctx) DEFAULT_MODE
        os in
    let ctx1 := fd_set_fd fd' ctx in
    if fd' <? 0 then
      native_fail ctx1 os1 e (- errno os1) "Failed to open file: %s"
        [ArgStr (strerror (errno os1))]
    else fd_check_stat ctx1 os1 e
  else fd_check_stat ctx os e.

(** The descriptor fd_open_cb ends up with, and the state of the
    operating system then: the one [fn_open] returns for a file name, the
    caller's otherwise. *)
Definition fd_acquired (ctx : FdFileCtx) (os : OS) : Z * OS :=
  if negb (String.eqb (fd_filename ctx) "") then
    fn_open (fd_funcs ctx) (fd_filename ctx) (flags ctx) DEFAULT_MODE os
  else (fd ctx, os).

(** *** Buffered streams (posix.cpp) *)

(** The members of PosixFileFuncs that the open callback calls. *)
Record PosixFileFuncs : Type := mkPosixFileFuncs {
  fn_fopen : string -> string -> OS -> Z * OS;
  fn_fileno : Z -> OS -> Z * OS;
  posix_fn_fstat : Z -> OS -> Z * Z * OS
}.

Record PosixFileCtx : Type := mkPosixFileCtx {
  fp : Z;
  posix_owned : bool;
  posix_filename : string;
  mode : string;
  can_seek : bool;
  posix_funcs : PosixFileFuncs
}.

Definition posix_set_fp (v : Z) (ctx : PosixFileCtx) : PosixFileCtx :=
  mkPosixFileCtx v (posix_owned ctx) (posix_filename ctx) (mode ctx)
    (can_seek ctx) (posix_funcs ctx).

Definition posix_set_can_seek (v : bool) (ctx : PosixFileCtx)
  : PosixFileCtx :=
  mkPosixFileCtx (fp ctx) (posix_owned ctx) (posix_filename ctx) (mode ctx)
    v (posix_funcs ctx).

(** The part of posix_open_cb after the stream is there. *)
Definition posix_check_stat (ctx : PosixFileCtx) (os : OS) (e : ErrSlot)
  : NativeResult PosixFileCtx OS :=
  let (fd', os1) := fn_fileno (posix_funcs ctx) (fp ctx) os in
  if fd' >=? 0 then
    let '(rc, st_mode, os2) := posix_fn_fstat (posix_funcs ctx) fd' os1 in
    if rc <? 0 then
      native_fail ctx os2 e (- errno os2) "Failed to stat file: %s"
        [ArgStr (strerror (errno os2))]
    else if S_ISDIR st_mode then
      native_fail ctx os2 e (- EISDIR) "Cannot open directory" []
    else if S_ISREG st_mode || (on_linux && S_ISBLK st_mode) then
      mkNativeResult FileStatus.OK (posix_set_can_seek true ctx) os2 e
    else mkNativeResult FileStatus.OK ctx os2 e
  else mkNativeResult FileStatus.OK ctx os1 e.

(** posix_open_cb *)
Definition posix_open_cb (ctx : PosixFileCtx) (os : OS) (e : ErrSlot)
  : NativeResult PosixFileCtx OS :=
  if negb (String.eqb (posix_filename ctx) "") then
    let (fp', os1) :=
      fn_fopen (posix_funcs ctx) (posix_filename ctx) (mode ctx) os in
    let ctx1 := posix_set_fp fp' ctx in
    if fp' =? 0 then
      native_fail ctx1 os1 e (- errno os1) "Failed to open file: %s"
        [ArgStr (strerror (errno os1))]
    else posix_check_stat ctx1 os1 e
  else posix_check_stat ctx os e.

(** The stream posix_open_cb ends up with. *)
Definition posix_acquired (ctx : PosixFileCtx) (os : OS) : Z * OS :=
  if negb (String.eqb (posix_filename ctx) "") then
    fn_fopen (posix_funcs ctx) (posix_filename ctx) (mode ctx) os
  else (fp ctx, os).

(** *** Platform handles (win32.cpp) *)

Definition INVALID_HANDLE_VALUE : Z := -1.

(** The one member of Win32FileFuncs that the open callback calls:
    file name, access, share mode, security attributes, creation
    disposition, flags and attributes, template file. *)
Record Win32FileFuncs : Type := mkWin32FileFuncs {
  fn_CreateFileW :
    string -> Z -> Z -> Z * Z * bool -> Z -> Z -> Z -> OS -> Z * OS
}.

Record Win32FileCtx : Type := mkWin32FileCtx {
  handle : Z;
  win32_owned : bool;
  win32_filename : string;
  win32_error : option string;
  access : Z;
  sharing : Z;
  sa : Z * Z * bool;
  creation : Z;
  attrib : Z;
  append : bool;
  win32_funcs : Win32FileFuncs
}.

Definition win32_set_handle (v : Z) (ctx : Win32FileCtx) : Win32FileCtx :=
  mkWin32FileCtx v (win32_owned ctx) (win32_filename ctx) (win32_error ctx)
    (access ctx) (sharing ctx) (sa ctx) (creation ctx) (attrib ctx)
    (append ctx) (win32_funcs ctx).

Definition win32_set_error (v : option string) (ctx : Win32FileCtx)
  : Win32FileCtx :=
  mkWin32FileCtx (handle ctx) (win32_owned ctx) (win32_filename ctx) v
    (access ctx) (sharing ctx) (sa ctx) (creation ctx) (attrib ctx)
    (append ctx) (win32_funcs ctx).

(** FormatMessageW with FORMAT_MESSAGE_ALLOCATE_BUFFER: the message it
    allocates for an error code, or [None] when it returns size 0. *)
Variable FormatMessageW : Z -> option string.

(** win32_error_string: the old message is freed, the new one is kept in
    the context. *)
Definition win32_error_string (ctx : Win32FileCtx) (error_code' : Z)
  : string * Win32FileCtx :=
  match FormatMessageW error_code' with
  | None => ("(FormatMessageW failed)", win32_set_error None ctx)
  | Some msg => (msg, win32_set_error (Some msg) ctx)
  end.

(** win32_open_cb *)
Definition win32_open_cb (ctx : Win32FileCtx) (os : OS) (e : ErrSlot)
  : NativeResult Win32FileCtx OS :=
  if negb (String.eqb (win32_filename ctx) "") then
    let (h, os1) :=
      fn_CreateFileW (win32_funcs ctx) (win32_filename ctx) (access ctx)
        (sharing ctx) (sa ctx) (creation ctx) (attrib ctx) 0 os in
    let ctx1 := win32_set_handle h ctx in
    if h =? INVALID_HANDLE_VALUE then
      let (msg, ctx2) := win32_error_string ctx1 (GetLastError os1) in
      native_fail ctx2 os1 e (- GetLastError os1)
        "Failed to open file: %ls" [ArgStr msg]
    else mkNativeResult FileStatus.OK ctx1 os1 e
  else mkNativeResult FileStatus.OK ctx os e.

(** The handle win32_open_cb ends up with. *)
Definition win32_acquired (ctx : Win32FileCtx) (os : OS) : Z * OS :=
  if negb (String.eqb (win32_filename ctx) "") then
    fn_CreateFileW (win32_funcs ctx) (win32_filename ctx) (access ctx)
      (sharing ctx) (sa ctx) (creation ctx) (attrib ctx) 0 os
  else (handle ctx, os).

End NativeBackends.

(** ** Test doubles of the operating system

    As the mocks of tests/file do ([OpenDirectory] of test_fd.cpp and
    test_posix.cpp, [OpenFilenameWcsSuccess] of test_win32.cpp): every path
    opens, and what it names is a directory. *)

Module DirectoryDouble.

(** The state of the double is the thread's errno / last error. *)
Definition OS : Type := Z.

Definition S_IFMT : Z := 0xf000.
Definition S_IFDIR : Z := 0x4000.
Definition S_IFBLK : Z := 0x6000.
Definition S_IFREG : Z := 0x8000.
Definition S_IRWXU : Z := 0x1c0.
Definition S_IRWXG : Z := 0x38.
Definition S_IRWXO : Z := 0x7.

Definition S_ISDIR (m : Z) : bool := Z.land m S_IFMT =? S_IFDIR.
Definition S_ISREG (m : Z) : bool := Z.land m S_IFMT =? S_IFREG.
Definition S_ISBLK (m : Z) : bool := Z.land m S_IFMT =? S_IFBLK.
Definition EISDIR : Z := 21.

Definition format_v (old fmt : string) (args : list FmtArg)
  : string * bool := (fmt, true).
Definition strerror (e : Z) : string := "error".
Definition FormatMessageW (e : Z) : option string := Some "error".

Definition dir_mode : Z :=
  Z.lor S_IFDIR (Z.lor S_IRWXU (Z.lor S_IRWXG S_IRWXO)).

Definition fd_funcs : FdFileFuncs (OS := OS) :=
  mkFdFileFuncs (fun _ _ _ os => (3, os)) (fun _ os => (0, dir_mode, os)).

Definition posix_funcs : PosixFileFuncs (OS := OS) :=
  mkPosixFileFuncs (fun _ _ os => (0x1000, os)) (fun _ os => (3, os))
    (fun _ os => (0, dir_mode, os)).

Definition win32_funcs : Win32FileFuncs (OS := OS) :=
  mkWin32FileFuncs (fun _ _ _ _ _ _ _ os => (1, os)).

Definition fd_ctx : FdFileCtx :=
  mkFdFileCtx (-1) true "/sdcard" 0 fd_funcs.

Definition posix_ctx : PosixFileCtx :=
  mkPosixFileCtx 0 true "/sdcard" "rbe" false posix_funcs.

Definition win32_ctx : Win32FileCtx :=
  mkWin32FileCtx INVALID_HANDLE_VALUE true "C:\Users" None 0x80000000 3
    (12, 0, false) 3 0 false win32_funcs.

End DirectoryDouble.

(** The three backends that open a path. *)
Inductive PathBackend : Set :=
| DescriptorBackend | BufferedStreamBackend | PlatformHandleBackend.

(** The status and the stored error code of a backend's open callback when
    the path it is given opens and names a directory. *)
Definition open_directory (b : PathBackend) : FileStatus.t * Z :=
  let e0 : ErrSlot := (FileError.NONE, "") in
  match b with
  | DescriptorBackend =>
      let r :=
        fd_open_cb DirectoryDouble.format_v id DirectoryDouble.strerror
          DirectoryDouble.S_ISDIR DirectoryDouble.EISDIR
          DirectoryDouble.fd_ctx 0 e0 in
      (n_status r, fst (n_err r))
  | BufferedStreamBackend =>
      let r :=
        posix_open_cb DirectoryDouble.format_v id DirectoryDouble.strerror
          DirectoryDouble.S_ISDIR DirectoryDouble.S_ISREG
          DirectoryDouble.S_ISBLK DirectoryDouble.EISDIR true
          DirectoryDouble.posix_ctx 0 e0 in
      (n_status r, fst (n_err r))
  | PlatformHandleBackend =>
      let r :=
        win32_open_cb DirectoryDouble.format_v id
          DirectoryDouble.FormatMessageW DirectoryDouble.win32_ctx 0 e0 in
      (n_status r, fst (n_err r))
  end.

(** Callbacks for a handle whose world is a plain counter: an open callback
    that fails with a given status and a close callback that counts its
    runs, like [_n_close] of tests/test_file.cpp. *)
Module CountingDouble.

Definition W : Type := nat.

Definition format_v (old fmt : string) (args : list FmtArg)
  : string * bool := (fmt, true).

Definition open_cb_returning (r : FileStatus.t) : OpenCb (W := W) :=
  fun _ w e => (r, w, e).

Definition counting_close_cb : CloseCb (W := W) :=
  fun _ w e => (FileStatus.OK, S w, e).

Definition read_cb_returning (r : FileStatus.t) : ReadCb (W := W) :=
  fun _ _ _ _ w e => (r, w, e).

(** The calls that register both callbacks. *)
Definition registering (r : FileStatus.t) : list (Setter (W := W)) :=
  [SetOpenCallback (Some (open_cb_returning r));
   SetCloseCallback (Some counting_close_cb)].

Definition registered (r : FileStatus.t) : list (Op (W := W)) :=
  map DoSet (registering r).

(** A NEW handle with both callbacks registered, and the handle after
    open(). *)
Definition handle (r : FileStatus.t) : Machine (W := W) :=
  snd (run_ops format_v (registered r) (File_new 0%nat)).

Definition opened (r : FileStatus.t) : Machine (W := W) :=
  snd (open format_v (handle r)).

End CountingDouble.

(** A handle whose open callback fails until the close callback has run
    once, like the mock of [OpenReturnNonFatalFailure] in
    tests/test_file.cpp, which fails the first open() and lets the second
    succeed. *)
Module ReopenDouble.

Definition open_cb_failing_first : OpenCb (W := CountingDouble.W) :=
  fun _ w e =>
    (if Nat.eqb w 0 then FileStatus.FAILED else FileStatus.OK, w, e).

Definition registering : list (Setter (W := CountingDouble.W)) :=
  [SetOpenCallback (Some open_cb_failing_first);
   SetCloseCallback (Some CountingDouble.counting_close_cb)].

End ReopenDouble.

(** ** More of the handle's calls, for the properties below *)

Section FileCoreMore.

Context {W : Type}.

(** The state the ENSURE_STATE of a call asks for; close() asks for none. *)
Definition required_state (o : Op (W := W)) : option FileState.t :=
  match o with
  | DoSet _ | DoOpen => Some FileState.NEW
  | DoClose => None
  | DoRead _ _ _ | DoWrite _ _ _ | DoSeek _ _ _ | DoTruncate _ =>
      Some FileState.OPENED
  end.

(** A handle that takes no more reads and writes. *)
Definition finished (m : Machine (W := W)) : Prop :=
  state (priv m) = FileState.CLOSED \/ state (priv m) = FileState.FATAL.

(** How often a callback has run. *)
Definition calls_of (c : Call) (m : Machine (W := W)) : nat :=
  length (filter (eq c) (calls m)).

(** The callback slot a file operation goes through is empty. *)
Definition slot_empty (o : Op (W := W)) (p : FilePrivate (W := W)) : Prop :=
  match o with
  | DoRead _ _ bytes_read => bytes_read <> 0 /\ read_cb p = None
  | DoWrite _ _ bytes_written => bytes_written <> 0 /\ write_cb p = None
  | DoSeek _ _ _ => seek_cb p = None
  | DoTruncate _ => truncate_cb p = None
  | _ => False
  end.

(** What the callback in the slot of a file operation returns on the
    handle's world and error slot, if the operation gets as far as calling
    it. *)
Definition slot_outcome (o : Op (W := W)) (m : Machine (W := W))
  : option (CbResult (W := W)) :=
  let p := priv m in
  match o with
  | DoRead buf sz bytes_read =>
      if bytes_read =? 0 then None
      else (fun cb =>
              cb (cb_userdata p) buf sz bytes_read (world m) (err_slot p))
             <$> read_cb p
  | DoWrite buf sz bytes_written =>
      if bytes_written =? 0 then None
      else (fun cb =>
              cb (cb_userdata p) buf sz bytes_written (world m) (err_slot p))
             <$> write_cb p
  | DoSeek offset whence _ =>
      (fun cb => fst (cb (cb_userdata p) offset whence (world m) (err_slot p)))
        <$> seek_cb p
  | DoTruncate sz =>
      (fun cb => cb (cb_userdata p) sz (world m) (err_slot p))
        <$> truncate_cb p
  | _ => None
  end.

(** What a setter is to do to the six callback slots and the user data,
    slot by slot, as the tuple [slots] lists them: its own slot takes the
    value it is given and every other slot keeps its own. *)
Definition slots_set (s : Setter (W := W))
  (sl : option (OpenCb (W := W)) * option (CloseCb (W := W))
        * option (ReadCb (W := W)) * option (WriteCb (W := W))
        * option (SeekCb (W := W)) * option (TruncateCb (W := W)) * Z) :=
  let '(o, c, r, w, k, t, u) := sl in
  match s with
  | SetOpenCallback cb => (cb, c, r, w, k, t, u)
  | SetCloseCallback cb => (o, cb, r, w, k, t, u)
  | SetReadCallback cb => (o, c, cb, w, k, t, u)
  | SetWriteCallback cb => (o, c, r, cb, k, t, u)
  | SetSeekCallback cb => (o, c, r, w, cb, t, u)
  | SetTruncateCallback cb => (o, c, r, w, k, cb, u)
  | SetCallbackData v => (o, c, r, w, k, t, v)
  end.

(** The callback a call goes through. *)
Definition call_of (o : Op (W := W)) : Call :=
  match o with
  | DoRead _ _ _ => CallRead
  | DoWrite _ _ _ => CallWrite
  | DoSeek _ _ _ => CallSeek
  | DoTruncate _ => CallTruncate
  | DoOpen => CallOpen
  | _ => CallClose
  end.

(** The handle with the seven values file_open_callbacks is given stored. *)
Definition with_callbacks
  (open_cb' : option OpenCb) (close_cb' : option CloseCb)
  (read_cb' : option ReadCb) (write_cb' : option WriteCb)
  (seek_cb' : option SeekCb) (truncate_cb' : option TruncateCb)
  (userdata : Z) (m : Machine (W := W)) : Machine (W := W) :=
  mkMachine
    (mkFilePrivate (state (priv m)) open_cb' close_cb' read_cb' write_cb'
       seek_cb' truncate_cb' userdata (error_code (priv m))
       (error_string (priv m)))
    (world m) (calls m).

End FileCoreMore.

(** ** The memory backend: reading and truncating (file/memory.cpp) *)

(** What memory_read_cb leaves behind: its status, the context, the bytes it
    has copied to the caller's buffer and the count it has stored through
    [bytes_read]. *)
Record MemReadResult : Type := mkMemReadResult {
  rd_status : FileStatus.t;
  rd_ctx : MemoryFileCtx;
  rd_bytes : list byte;
  rd_bytes_read : Z
}.

Section MemoryBackendMore.

Variable format_v : string -> string -> list FmtArg -> string * bool.
Variable strerror : Z -> string.
Variable pf : Platform.

(** memory_read_cb; [size'] is the size of the caller's buffer. *)
Definition memory_read_cb (ctx : MemoryFileCtx) (size' : Z) (mem : Memory)
  : MemReadResult :=
  let to_read :=
    if pos ctx <? size ctx then Z.min (size ctx - pos ctx) size' else 0 in
  let bytes :=
    take (Z.to_nat to_read)
      (drop (Z.to_nat (pos ctx)) (block_at mem (data ctx))) in
  mkMemReadResult FileStatus.OK
    (ctx_set_pos (to_size_t pf (pos ctx + to_read)) ctx) bytes to_read.

(** memory_truncate_cb; [size'] is a [uint64_t], converted to [size_t] where
    it is passed to [realloc] and [memset] and stored in the context.  The
    comparison [size > ctx->size] is made on the unconverted value, so
    where [size_t] is narrower than 64 bits the [memset] can be asked for
    more bytes than [realloc] was: the behaviour is undefined then. *)
Definition memory_truncate_cb (alloc : AllocOutcome) (ctx : MemoryFileCtx)
  (size' : Z) (mem : Memory) (e : ErrSlot) : Outcome MemResult :=
  if fixed_size ctx then
    let (_, e') :=
      set_error_slot format_v FileError.UNSUPPORTED
        "Cannot truncate fixed buffer" [] e in
    Returns (mkMemResult FileStatus.UNSUPPORTED ctx mem e' None)
  else
    let (new_data, mem1) :=
      realloc alloc (data ctx) (to_size_t pf size') mem in
    if new_data =? 0 then
      let (_, e') :=
        set_error_slot format_v (- errno_of alloc)
          "Failed to resize buffer: %s"
          [ArgStr (strerror (errno_of alloc))] e in
      Returns (mkMemResult FileStatus.FAILED ctx mem1 e' None)
    else
      let ctx' := ctx_grow new_data (to_size_t pf size') ctx in
      (* Zero-initialize new space *)
      if size' >? size ctx then
        match
          memset_zero_in new_data (size ctx)
            (to_size_t pf (size' - size ctx)) mem1
        with
        | None => Undefined
        | Some mem2 =>
            Returns
              (mkMemResult FileStatus.OK ctx' (write_back ctx' mem2) e None)
        end
      else
        Returns (mkMemResult FileStatus.OK ctx' (write_back ctx' mem1) e None).

(** memory_close_cb: the context is freed, the buffer is not. *)
Definition memory_close_cb (ctx : MemoryFileCtx) (mem : Memory) (e : ErrSlot)
  : FileStatus.t * option MemoryFileCtx * Memory * ErrSlot :=
  (FileStatus.OK, None, mem, e).

End MemoryBackendMore.

(** ** The other callbacks of the native backends
       (file/fd.cpp, file/posix.cpp, file/win32.cpp) *)

(** What a native read, write, seek or truncate callback leaves behind: as
    for the open callbacks, and the value it has stored through its output
    pointer ([bytes_read], [bytes_written], [new_offset]) if it stored
    one. *)
Record IoResult (C OS : Type) : Type := mkIoResult {
  io_status : FileStatus.t;
  io_ctx : C;
  io_os : OS;
  io_err : ErrSlot;
  io_out : option Z
}.
Arguments mkIoResult {C OS} _ _ _ _ _.
Arguments io_status {C OS} _.
Arguments io_ctx {C OS} _.
Arguments io_os {C OS} _.
Arguments io_err {C OS} _.
Arguments io_out {C OS} _.

(** climits *)
Definition SSIZE_MAX (pf : Platform) : Z := 2 ^ (size_bits pf - 1) - 1.
Definition UINT_MAX : Z := 2 ^ 32 - 1.

(** stdio.h *)
Definition EOF : Z := -1.

(** windows.h *)
Definition FILE_BEGIN : Z := 0.
Definition FILE_CURRENT : Z := 1.
Definition FILE_END : Z := 2.

Section NativeIo.

Variable format_v : string -> string -> list FmtArg -> string * bool.
Context {OS : Type}.
Variable errno : OS -> Z.
Variable GetLastError : OS -> Z.
Variable strerror : Z -> string.
Variable FormatMessageW : Z -> option string.
(** errno.h of the target. *)
Variable EINTR : Z.
Variable pf : Platform.
(** The conversion to [off_t], whose width is the target's. *)
Variable to_off_t : Z -> Z.

Definition io_fail {C} (status : FileStatus.t) (ctx : C) (os : OS)
  (e : ErrSlot) (code : Z) (fmt : string) (args : list FmtArg)
  : IoResult C OS :=
  let (_, e') := set_error_slot format_v code fmt args e in
  mkIoResult status ctx os e' None.

(** [errno == EINTR ? FileStatus::RETRY : FileStatus::FAILED] *)
Definition retry_or_failed (os : OS) : FileStatus.t :=
  if errno os =? EINTR then FileStatus.RETRY else FileStatus.FAILED.

(** *** Descriptors (fd.cpp) *)

(** The members of FdFileFuncs that the open callback does not call.  The
    state of the operating system holds the caller's buffers, so
    [fn_read] and [fn_write] give their return value only.  The [funcs]
    object of a context is set once, by create_ctx, so these members are
    fixed for the callbacks below rather than carried in the context. *)
Record FdIoFuncs : Type := mkFdIoFuncs {
  fn_close : Z -> OS -> Z * OS;
  fd_fn_ftruncate64 : Z -> Z -> OS -> Z * OS;
  fn_lseek64 : Z -> Z -> Z -> OS -> Z * OS;
  fn_read : Z -> Z -> Z -> OS -> Z * OS;
  fn_write : Z -> Z -> Z -> OS -> Z * OS
}.

Variable fd_io : FdIoFuncs.

(** fd_close_cb; the context is freed, so none is left. *)
Definition fd_close_cb (ctx : FdFileCtx (OS := OS)) (os : OS) (e : ErrSlot)
  : NativeResult (option (FdFileCtx (OS := OS))) OS :=
  if fd_owned ctx && (fd ctx >=? 0) then
    let (rc, os1) := fn_close fd_io (fd ctx) os in
    if rc <? 0 then
      native_fail format_v None os1 e (- errno os1)
        "Failed to close file: %s" [ArgStr (strerror (errno os1))]
    else mkNativeResult FileStatus.OK None os1 e
  else mkNativeResult FileStatus.OK None os e.

(** [if (size > SSIZE_MAX) size = SSIZE_MAX;] *)
Definition clamp_ssize (size' : Z) : Z :=
  if size' >? SSIZE_MAX pf then SSIZE_MAX pf else size'.

(** fd_read_cb *)
Definition fd_read_cb (ctx : FdFileCtx (OS := OS)) (buf size' : Z) (os : OS)
  (e : ErrSlot) : IoResult (FdFileCtx (OS := OS)) OS :=
  let (n, os1) := fn_read fd_io (fd ctx) buf (clamp_ssize size') os in
  if n <? 0 then
    io_fail (retry_or_failed os1) ctx os1 e (- errno os1)
      "Failed to read file: %s" [ArgStr (strerror (errno os1))]
  else mkIoResult FileStatus.OK ctx os1 e (Some n).

(** fd_write_cb *)
Definition fd_write_cb (ctx : FdFileCtx (OS := OS)) (buf size' : Z) (os : OS)
  (e : ErrSlot) : IoResult (FdFileCtx (OS := OS)) OS :=
  let (n, os1) := fn_write fd_io (fd ctx) buf (clamp_ssize size') os in
  if n <? 0 then
    io_fail (retry_or_failed os1) ctx os1 e (- errno os1)
      "Failed to write file: %s" [ArgStr (strerror (errno os1))]
  else mkIoResult FileStatus.OK ctx os1 e (Some n).

(** fd_seek_cb *)
Definition fd_seek_cb (ctx : FdFileCtx (OS := OS)) (offset whence : Z)
  (os : OS) (e : ErrSlot) : IoResult (FdFileCtx (OS := OS)) OS :=
  let (ret', os1) := fn_lseek64 fd_io (fd ctx) offset whence os in
  if ret' <? 0 then
    io_fail FileStatus.FAILED ctx os1 e (- errno os1)
      "Failed to seek file: %s" [ArgStr (strerror (errno os1))]
  else mkIoResult FileStatus.OK ctx os1 e (Some ret').

(** fd_truncate_cb *)
Definition fd_truncate_cb (ctx : FdFileCtx (OS := OS)) (size' : Z) (os : OS)
  (e : ErrSlot) : IoResult (FdFileCtx (OS := OS)) OS :=
  let (rc, os1) := fd_fn_ftruncate64 fd_io (fd ctx) (to_off_t size') os in
  if rc <? 0 then
    io_fail FileStatus.FAILED ctx os1 e (- errno os1)
      "Failed to truncate file: %s" [ArgStr (strerror (errno os1))]
  else mkIoResult FileStatus.OK ctx os1 e None.

(** *** Buffered streams (posix.cpp) *)

(** The members of PosixFileFuncs that the open callback does not call;
    [fn_fread] and [fn_fwrite] take the buffer, the element size, the
    element count and the stream. *)
Record PosixIoFuncs : Type := mkPosixIoFuncs {
  fn_fclose : Z -> OS -> Z * OS;
  fn_ferror : Z -> OS -> Z * OS;
  fn_fread : Z -> Z -> Z -> Z -> OS -> Z * OS;
  fn_fseeko : Z -> Z -> Z -> OS -> Z * OS;
  fn_ftello : Z -> OS -> Z * OS;
  fn_fwrite : Z -> Z -> Z -> Z -> OS -> Z * OS;
  posix_fn_ftruncate64 : Z -> Z -> OS -> Z * OS
}.

Variable posix_io : PosixIoFuncs.

(** posix_close_cb *)
Definition posix_close_cb (ctx : PosixFileCtx (OS := OS)) (os : OS)
  (e : ErrSlot) : NativeResult (option (PosixFileCtx (OS := OS))) OS :=
  if posix_owned ctx && negb (fp ctx =? 0) then
    let (rc, os1) := fn_fclose posix_io (fp ctx) os in
    if rc =? EOF then
      native_fail format_v None os1 e (- errno os1)
        "Failed to close file: %s" [ArgStr (strerror (errno os1))]
    else mkNativeResult FileStatus.OK None os1 e
  else mkNativeResult FileStatus.OK None os e.

(** The test [n < size && fn_ferror (fp)] of posix_read_cb and
    posix_write_cb: [fn_ferror] is called only after a short count. *)
Definition short_and_error (ctx : PosixFileCtx (OS := OS)) (n size' : Z)
  (os : OS) : bool * OS :=
  if n <? size' then
    let (err, os1) := fn_ferror posix_io (fp ctx) os in
    (negb (err =? 0), os1)
  else (false, os).

(** posix_read_cb *)
Definition posix_read_cb (ctx : PosixFileCtx (OS := OS)) (buf size' : Z)
  (os : OS) (e : ErrSlot) : IoResult (PosixFileCtx (OS := OS)) OS :=
  let (n, os1) := fn_fread posix_io buf 1 size' (fp ctx) os in
  let (failed, os2) := short_and_error ctx n size' os1 in
  if failed then
    io_fail (retry_or_failed os2) ctx os2 e (- errno os2)
      "Failed to read file: %s" [ArgStr (strerror (errno os2))]
  else mkIoResult FileStatus.OK ctx os2 e (Some n).

(** posix_write_cb *)
Definition posix_write_cb (ctx : PosixFileCtx (OS := OS)) (buf size' : Z)
  (os : OS) (e : ErrSlot) : IoResult (PosixFileCtx (OS := OS)) OS :=
  let (n, os1) := fn_fwrite posix_io buf 1 size' (fp ctx) os in
  let (failed, os2) := short_and_error ctx n size' os1 in
  if failed then
    io_fail (retry_or_failed os2) ctx os2 e (- errno os2)
      "Failed to write file: %s" [ArgStr (strerror (errno os2))]
  else mkIoResult FileStatus.OK ctx os2 e (Some n).

(** posix_seek_cb *)
Definition posix_seek_cb (ctx : PosixFileCtx (OS := OS)) (offset whence : Z)
  (os : OS) (e : ErrSlot) : IoResult (PosixFileCtx (OS := OS)) OS :=
  if negb (can_seek ctx) then
    io_fail FileStatus.UNSUPPORTED ctx os e FileError.UNSUPPORTED
      "Seek not supported: %s" [ArgStr (strerror (errno os))]
  else
    (* Get current file position *)
    let (old_pos, os1) := fn_ftello posix_io (fp ctx) os in
    if old_pos <? 0 then
      io_fail FileStatus.FAILED ctx os1 e (- errno os1)
        "Failed to get file position: %s" [ArgStr (strerror (errno os1))]
    else
      (* Try to seek *)
      let (rc, os2) :=
        fn_fseeko posix_io (fp ctx) (to_off_t offset) whence os1 in
      if rc <? 0 then
        io_fail FileStatus.FAILED ctx os2 e (- errno os2)
          "Failed to seek file: %s" [ArgStr (strerror (errno os2))]
      else
        (* Get new position *)
        let (new_pos, os3) := fn_ftello posix_io (fp ctx) os2 in
        if new_pos <? 0 then
          (* Try to restore old position *)
          let (_, e') :=
            set_error_slot format_v (- errno os3)
              "Failed to get file position: %s"
              [ArgStr (strerror (errno os3))] e in
          let (rc', os4) :=
            fn_fseeko posix_io (fp ctx) (to_off_t old_pos) SEEK_SET os3 in
          mkIoResult
            (if rc' =? 0 then FileStatus.FAILED else FileStatus.FATAL)
            ctx os4 e' None
        else mkIoResult FileStatus.OK ctx os3 e (Some (to_uint64 new_pos)).

(** posix_truncate_cb *)
Definition posix_truncate_cb (ctx : PosixFileCtx (OS := OS)) (size' : Z)
  (os : OS) (e : ErrSlot) : IoResult (PosixFileCtx (OS := OS)) OS :=
  let (fd', os1) := fn_fileno (posix_funcs ctx) (fp ctx) os in
  if fd' <? 0 then
    io_fail FileStatus.UNSUPPORTED ctx os1 e FileError.UNSUPPORTED
      "fileno() not supported for fp" []
  else
    let (rc, os2) := posix_fn_ftruncate64 posix_io fd' (to_off_t size') os1 in
    if rc <? 0 then
      io_fail FileStatus.FAILED ctx os2 e (- errno os2)
        "Failed to truncate file: %s" [ArgStr (strerror (errno os2))]
    else mkIoResult FileStatus.OK ctx os2 e None.

(** *** Platform handles (win32.cpp) *)

(** The members of Win32FileFuncs that the open callback does not call.
    [fn_ReadFile] and [fn_WriteFile] take the handle, the buffer and the
    count and give the BOOL and the count they store; [fn_SetFilePointerEx]
    takes the handle, the distance and the move method and gives the BOOL
    and the new file pointer. *)
Record Win32IoFuncs : Type := mkWin32IoFuncs {
  fn_CloseHandle : Z -> OS -> bool * OS;
  fn_ReadFile : Z -> Z -> Z -> OS -> bool * Z * OS;
  fn_SetEndOfFile : Z -> OS -> bool * OS;
  fn_SetFilePointerEx : Z -> Z -> Z -> OS -> bool * Z * OS;
  fn_WriteFile : Z -> Z -> Z -> OS -> bool * Z * OS
}.

Variable win32_io : Win32IoFuncs.

(** [file.set_error (-GetLastError (), fmt, win32_error_string (ctx,
    GetLastError ()))] and [return FileStatus::FAILED]. *)
Definition win32_fail (ctx : Win32FileCtx (OS := OS)) (os : OS)
  (e : ErrSlot) (fmt : string) : IoResult (Win32FileCtx (OS := OS)) OS :=
  let (msg, ctx') :=
    win32_error_string FormatMessageW ctx (GetLastError os) in
  io_fail FileStatus.FAILED ctx' os e (- GetLastError os) fmt [ArgStr msg].

(** win32_close_cb *)
Definition win32_close_cb (ctx : Win32FileCtx (OS := OS)) (os : OS)
  (e : ErrSlot) : NativeResult (option (Win32FileCtx (OS := OS))) OS :=
  if win32_owned ctx && negb (handle ctx =? INVALID_HANDLE_VALUE) then
    let (ok, os1) := fn_CloseHandle win32_io (handle ctx) os in
    if negb ok then
      let (msg, _) :=
        win32_error_string FormatMessageW ctx (GetLastError os1) in
      native_fail format_v None os1 e (- GetLastError os1)
        "Failed to close file: %ls" [ArgStr msg]
    else mkNativeResult FileStatus.OK None os1 e
  else mkNativeResult FileStatus.OK None os e.

(** [if (size > UINT_MAX) size = UINT_MAX;] *)
Definition clamp_uint (size' : Z) : Z :=
  if size' >? UINT_MAX then UINT_MAX else size'.

(** win32_read_cb *)
Definition win32_read_cb (ctx : Win32FileCtx (OS := OS)) (buf size' : Z)
  (os : OS) (e : ErrSlot) : IoResult (Win32FileCtx (OS := OS)) OS :=
  let '(ok, n, os1) :=
    fn_ReadFile win32_io (handle ctx) buf (clamp_uint size') os in
  if negb ok then win32_fail ctx os1 e "Failed to read file: %ls"
  else mkIoResult FileStatus.OK ctx os1 e (Some n).

(** The move method of an origin. *)
Definition move_method_of (whence : Z) : option Z :=
  if whence =? SEEK_CUR then Some FILE_CURRENT
  else if whence =? SEEK_SET then Some FILE_BEGIN
  else if whence =? SEEK_END then Some FILE_END
  else None.

(** win32_seek_cb; [offset] is an [int64_t]. *)
Definition win32_seek_cb (ctx : Win32FileCtx (OS := OS)) (offset whence : Z)
  (os : OS) (e : ErrSlot) : IoResult (Win32FileCtx (OS := OS)) OS :=
  match move_method_of whence with
  | None =>
      io_fail FileStatus.FAILED ctx os e FileError.INVALID_ARGUMENT
        "Invalid whence argument: %d" [ArgInt whence]
  | Some move_method =>
      let '(ok, new_pos, os1) :=
        fn_SetFilePointerEx win32_io (handle ctx) offset move_method os in
      if negb ok then win32_fail ctx os1 e "Failed to seek file: %ls"
      else mkIoResult FileStatus.OK ctx os1 e (Some (to_uint64 new_pos))
  end.

(** The part of win32_write_cb after the seek of the append mode. *)
Definition win32_write_here (ctx : Win32FileCtx (OS := OS)) (buf size' : Z)
  (os : OS) (e : ErrSlot) : IoResult (Win32FileCtx (OS := OS)) OS :=
  let '(ok, n, os1) :=
    fn_WriteFile win32_io (handle ctx) buf (clamp_uint size') os in
  if negb ok then win32_fail ctx os1 e "Failed to write file: %ls"
  else mkIoResult FileStatus.OK ctx os1 e (Some n).

(** win32_write_cb *)
Definition win32_write_cb (ctx : Win32FileCtx (OS := OS)) (buf size' : Z)
  (os : OS) (e : ErrSlot) : IoResult (Win32FileCtx (OS := OS)) OS :=
  if append ctx then
    let seek_ret := win32_seek_cb ctx 0 SEEK_END os e in
    if negb (FileStatus.eqb (io_status seek_ret) FileStatus.OK) then
      mkIoResult (io_status seek_ret) (io_ctx seek_ret) (io_os seek_ret)
        (io_err seek_ret) None
    else
      win32_write_here (io_ctx seek_ret) buf size' (io_os seek_ret)
        (io_err seek_ret)
  else win32_write_here ctx buf size' os e.

(** win32_truncate_cb; [size'] is a [uint64_t], and it and the saved
    position are converted to [int64_t] where they are passed to
    win32_seek_cb. *)
Definition win32_truncate_cb (ctx : Win32FileCtx (OS := OS)) (size' : Z)
  (os : OS) (e : ErrSlot) : IoResult (Win32FileCtx (OS := OS)) OS :=
  (* Get current position *)
  let s1 := win32_seek_cb ctx 0 SEEK_CUR os e in
  if negb (FileStatus.eqb (io_status s1) FileStatus.OK) then
    mkIoResult (io_status s1) (io_ctx s1) (io_os s1) (io_err s1) None
  else
    let current_pos := default 0 (io_out s1) in
    (* Move to new position *)
    let s2 :=
      win32_seek_cb (io_ctx s1) (to_int64 size') SEEK_SET (io_os s1)
        (io_err s1) in
    if negb (FileStatus.eqb (io_status s2) FileStatus.OK) then
      mkIoResult (io_status s2) (io_ctx s2) (io_os s2) (io_err s2) None
    else
      (* Truncate *)
      let (ok, os3) := fn_SetEndOfFile win32_io (handle (io_ctx s2))
                         (io_os s2) in
      let t :=
        if negb ok then
          win32_fail (io_ctx s2) os3 (io_err s2)
            "Failed to set EOF position: %ls"
        else mkIoResult FileStatus.OK (io_ctx s2) os3 (io_err s2) None in
      (* Move back to initial position *)
      let s3 :=
        win32_seek_cb (io_ctx t) (to_int64 current_pos) SEEK_SET (io_os t)
          (io_err t) in
      mkIoResult
        (if negb (FileStatus.eqb (io_status s3) FileStatus.OK)
         then FileStatus.FATAL else io_status t)
        (io_ctx s3) (io_os s3) (io_err s3) None.

End NativeIo.

(** ** Test doubles for the properties of the other calls *)

(** A handle opened by file_open_callbacks with a read callback that
    returns a given status, on the world of [CountingDouble]. *)
Module ReadingDouble.

Definition opened (r : FileStatus.t) : Machine (W := CountingDouble.W) :=
  snd (file_open_callbacks CountingDouble.format_v
         (Some (CountingDouble.open_cb_returning FileStatus.OK))
         (Some CountingDouble.counting_close_cb)
         (Some (CountingDouble.read_cb_returning r)) None None None 0
         (File_new 0%nat)).

(** The handle after close(). *)
Definition closed : Machine (W := CountingDouble.W) :=
  snd (close (opened FileStatus.OK)).

End ReadingDouble.

(** An operating system that keeps the thread's errno (the last-error value
    on Windows) and the names of the calls made on it, as the mocks of
    tests/file count calls. *)
Module IoDouble.

Record OS : Type := mkOS { last_error : Z; trace : list string }.

Definition start : OS := mkOS 0 [].

(** A call that succeeds, and one that fails with an error code. *)
Definition called (name : string) (os : OS) : OS :=
  mkOS (last_error os) (trace os ++ [name]).

Definition failing (name : string) (code : Z) (os : OS) : OS :=
  mkOS code (trace os ++ [name]).

Definition was_called (name : string) (os : OS) : bool :=
  existsb (String.eqb name) (trace os).

Definition format_v (old fmt : string) (args : list FmtArg)
  : string * bool := (fmt, true).
Definition strerror (e : Z) : string := "error".
Definition FormatMessageW (e : Z) : option string := Some "error".

Definition EINTR : Z := 4.
Definition EIO : Z := 5.
Definition EBADF : Z := 9.
Definition EISDIR : Z := 21.
Definition ERROR_INVALID_HANDLE : Z := 6.

Definition S_IFMT : Z := 0xf000.
Definition S_IFIFO : Z := 0x1000.
Definition S_ISDIR (m : Z) : bool := Z.land m S_IFMT =? 0x4000.
Definition S_ISREG (m : Z) : bool := Z.land m S_IFMT =? 0x8000.
Definition S_ISBLK (m : Z) : bool := Z.land m S_IFMT =? 0x6000.

(** A 64-bit [off_t]. *)
Definition to_off_t (z : Z) : Z := to_int64 z.

Definition no_error : ErrSlot := (FileError.NONE, "").

(** Descriptors: calls that succeed and transfer what they are asked to,
    and calls that are all interrupted. *)
Definition fd_io : FdIoFuncs (OS := OS) :=
  mkFdIoFuncs
    (fun _ os => (0, called "close" os))
    (fun _ _ os => (0, called "ftruncate64" os))
    (fun _ offset _ os => (offset, called "lseek64" os))
    (fun _ _ count os => (count, called "read" os))
    (fun _ _ count os => (count, called "write" os)).

Definition fd_io_interrupted : FdIoFuncs (OS := OS) :=
  mkFdIoFuncs
    (fun _ os => (-1, failing "close" EINTR os))
    (fun _ _ os => (-1, failing "ftruncate64" EINTR os))
    (fun _ _ _ os => (-1, failing "lseek64" EINTR os))
    (fun _ _ _ os => (-1, failing "read" EINTR os))
    (fun _ _ _ os => (-1, failing "write" EINTR os)).

Definition fd_funcs : FdFileFuncs (OS := OS) :=
  mkFdFileFuncs (fun _ _ _ os => (3, called "open" os))
    (fun _ os => (0, 0x81a4, called "fstat" os)).

Definition fd_ctx : FdFileCtx := mkFdFileCtx 3 true "" 0 fd_funcs.

(** Streams: a pipe, which has a descriptor but is no regular file, and a
    stream without a descriptor. *)
Definition pipe_funcs : PosixFileFuncs (OS := OS) :=
  mkPosixFileFuncs (fun _ _ os => (0x1000, called "fopen" os))
    (fun _ os => (3, called "fileno" os))
    (fun _ os => (0, Z.lor S_IFIFO 0x180, called "fstat" os)).

Definition no_fd_funcs : PosixFileFuncs (OS := OS) :=
  mkPosixFileFuncs (fun _ _ os => (0x1000, called "fopen" os))
    (fun _ os => (-1, failing "fileno" EBADF os))
    (fun _ os => (-1, 0, failing "fstat" EBADF os)).

Definition pipe_ctx : PosixFileCtx :=
  mkPosixFileCtx 0x1000 true "" "" false pipe_funcs.

Definition no_fd_ctx : PosixFileCtx :=
  mkPosixFileCtx 0x1000 true "" "" false no_fd_funcs.

Definition seekable_ctx : PosixFileCtx :=
  mkPosixFileCtx 0x1000 true "" "" true pipe_funcs.

(** Stream calls: [fread] and [fwrite] transfer two elements at most and
    the error indicator is clear; [ftello] and [fseeko] work until the
    stream has been moved once, and fail with EIO from then on. *)
Definition posix_io : PosixIoFuncs (OS := OS) :=
  mkPosixIoFuncs
    (fun _ os => (0, called "fclose" os))
    (fun _ os => (0, called "ferror" os))
    (fun _ _ nmemb _ os => (Z.min nmemb 2, called "fread" os))
    (fun _ _ _ os =>
       if was_called "fseeko" os then (-1, failing "fseeko" EIO os)
       else (0, called "fseeko" os))
    (fun _ os =>
       if was_called "fseeko" os then (-1, failing "ftello" EIO os)
       else (7, called "ftello" os))
    (fun _ _ nmemb _ os => (Z.min nmemb 2, called "fwrite" os))
    (fun _ _ os => (0, called "ftruncate64" os)).

(** Platform handles: calls that succeed, except that the file pointer
    cannot be moved any more once the end of the file has been set; and
    calls of which moving the file pointer always fails. *)
Definition win32_io : Win32IoFuncs (OS := OS) :=
  mkWin32IoFuncs
    (fun _ os => (true, called "CloseHandle" os))
    (fun _ _ count os => (true, count, called "ReadFile" os))
    (fun _ os => (true, called "SetEndOfFile" os))
    (fun _ distance _ os =>
       if was_called "SetEndOfFile" os
       then (false, 0, failing "SetFilePointerEx" ERROR_INVALID_HANDLE os)
       else (true, distance, called "SetFilePointerEx" os))
    (fun _ _ count os => (true, count, called "WriteFile" os)).

Definition win32_io_unseekable : Win32IoFuncs (OS := OS) :=
  mkWin32IoFuncs
    (fun _ os => (true, called "CloseHandle" os))
    (fun _ _ count os => (true, count, called "ReadFile" os))
    (fun _ os => (true, called "SetEndOfFile" os))
    (fun _ _ _ os =>
       (false, 0, failing "SetFilePointerEx" ERROR_INVALID_HANDLE os))
    (fun _ _ count os => (true, count, called "WriteFile" os)).

Definition win32_funcs : Win32FileFuncs (OS := OS) :=
  mkWin32FileFuncs (fun _ _ _ _ _ _ _ os => (1, called "CreateFileW" os)).

Definition win32_ctx : Win32FileCtx :=
  mkWin32FileCtx 1 true "" None 0x40000000 3 (12, 0, false) 4 0 false
    win32_funcs.

Definition win32_append_ctx : Win32FileCtx :=
  mkWin32FileCtx 1 true "" None 0x40000000 3 (12, 0, false) 4 0 true
    win32_funcs.

End IoDouble.

(** * Properties *)

(** ** Statuses and states *)

Lemma FileStatus_to_Z_inj a b : FileStatus.to_Z a = FileStatus.to_Z b -> a = b.
Proof. destruct a, b; simpl; intros H; try reflexivity; discriminate H. Qed.

Lemma FileStatus_eqb_eq a b : FileStatus.eqb a b = true <-> a = b.
Proof.
  unfold FileStatus.eqb. rewrite Z.eqb_eq.
  split; [apply FileStatus_to_Z_inj | now intros ->].
Qed.

Lemma FileStatus_leb_FATAL a :
  FileStatus.leb a FileStatus.FATAL = true <-> a = FileStatus.FATAL.
Proof.
  destruct a; simpl; split; intros H; try reflexivity; discriminate H.
Qed.

Lemma test_NEW s :
  FileState.test s (FileState.bit FileState.NEW) = true <-> s = FileState.NEW.
Proof. destruct s; vm_compute; split; congruence. Qed.

Lemma test_OPENED s :
  FileState.test s (FileState.bit FileState.OPENED) = true
  <-> s = FileState.OPENED.
Proof. destruct s; vm_compute; split; congruence. Qed.

Lemma test_CLOSED_or_NEW s :
  FileState.test s
    (Z.lor (FileState.bit FileState.CLOSED) (FileState.bit FileState.NEW))
  = true
  <-> s = FileState.CLOSED \/ s = FileState.NEW.
Proof.
  destruct s; vm_compute; split; intros H; auto;
    try discriminate H; destruct H; congruence.
Qed.

(** ** The File core *)

Section FileCoreFacts.

Context {W : Type}.
Variable format_v : string -> string -> list FmtArg -> string * bool.

Abbreviation Machine := (Machine (W := W)).
Abbreviation FilePrivate := (FilePrivate (W := W)).
Implicit Types (m : Machine) (p : FilePrivate).

Lemma ENSURE_STATE_pass {A} STATES func (fail : A) body (m : Machine) :
  FileState.test (state (priv m)) STATES = true ->
  ENSURE_STATE format_v STATES func fail body m = body m.
Proof.
  intros H. unfold ENSURE_STATE, bind, get_priv. now rewrite H.
Qed.

Lemma ENSURE_STATE_fail {A} STATES func (fail : A) body (m : Machine) :
  FileState.test (state (priv m)) STATES = false ->
  ENSURE_STATE format_v STATES func fail body m
  = (fail, rejected format_v STATES func m).
Proof.
  intros H.
  unfold ENSURE_STATE, bind, get_priv, set_error, set_error_v, set_state,
    modify_priv, ret, rejected.
  rewrite H. simpl.
  destruct (format_v _ _ _) as [s ok]. reflexivity.
Qed.

Lemma test_NEW_false (s : FileState.t) :
  s <> FileState.NEW ->
  FileState.test s (FileState.bit FileState.NEW) = false.
Proof.
  intros H. destruct (FileState.test _ _) eqn:E; [|reflexivity].
  apply test_NEW in E. contradiction.
Qed.

Lemma test_OPENED_false (s : FileState.t) :
  s <> FileState.OPENED ->
  FileState.test s (FileState.bit FileState.OPENED) = false.
Proof.
  intros H. destruct (FileState.test _ _) eqn:E; [|reflexivity].
  apply test_OPENED in E. contradiction.
Qed.

Lemma rejected_state STATES func (m : Machine) :
  state (priv (rejected format_v STATES func m)) = FileState.FATAL.
Proof. reflexivity. Qed.

Lemma rejected_code STATES func (m : Machine) :
  error_code (priv (rejected format_v STATES func m)) = FileError.PROGRAMMER_ERROR.
Proof. reflexivity. Qed.

(** *** Setters *)

Lemma call_setter_NEW (s : Setter) (m : Machine) :
  state (priv m) = FileState.NEW ->
  call_setter format_v s m
  = (FileStatus.OK,
     mkMachine (store_setter s (priv m)) (world m) (calls m)).
Proof.
  intros H.
  assert (T : FileState.test (state (priv m))
                (FileState.bit FileState.NEW) = true)
    by now apply test_NEW.
  destruct s; unfold call_setter, set_open_callback, set_close_callback,
    set_read_callback, set_write_callback, set_seek_callback,
    set_truncate_callback, set_callback_data;
    rewrite ENSURE_STATE_pass by exact T; reflexivity.
Qed.

Lemma call_setter_not_NEW (s : Setter) (m : Machine) :
  state (priv m) <> FileState.NEW ->
  exists func,
    call_setter format_v s m
    = (FileStatus.FATAL, rejected format_v (FileState.bit FileState.NEW) func m).
Proof.
  intros H. apply test_NEW_false in H.
  destruct s; unfold call_setter, set_open_callback, set_close_callback,
    set_read_callback, set_write_callback, set_seek_callback,
    set_truncate_callback, set_callback_data;
    rewrite ENSURE_STATE_fail by exact H; eexists; reflexivity.
Qed.

Lemma store_setter_state (s : Setter) p :
  state (store_setter s p) = state p.
Proof. now destruct s. Qed.

(** *** open *)

Ltac step_core :=
  unfold bind, ret, get_priv, set_error, set_error_v, set_state,
    modify_priv, invoke; simpl.

Ltac finish_core :=
  repeat match goal with
    | H : _ \/ _ |- _ => destruct H
    | H : Some _ = Some _ |- _ => inversion H; subst; clear H
    | H : _ = _ |- _ => discriminate H
    | H : ?x <> ?x |- _ => now contradiction H
    end;
  rewrite <- ?app_assoc, ?app_nil_r; simpl;
  try reflexivity; try congruence;
  try (let Hx := fresh in intros Hx; vm_compute in Hx; discriminate Hx);
  try match goal with
    | H : _ = (_, _, _) |- _ =>
        unfold err_slot, with_error in H; simpl in H; rewrite H; reflexivity
    end.

Lemma open_NEW_facts m :
  state (priv m) = FileState.NEW ->
  let '(r, w1, e1) := open_cb_outcome m in
  let m' := snd (open format_v m) in
  fst (open format_v m) = r
  /\ (r = FileStatus.OK -> state (priv m') = FileState.OPENED)
  /\ (FileStatus.leb r FileStatus.FATAL = true ->
      state (priv m') = FileState.FATAL)
  /\ (r <> FileStatus.OK ->
      forall ccb, close_cb (priv m) = Some ccb ->
        calls m' = calls m ++ open_cb_log m ++ [CallClose]
        /\ world m' = snd (fst (ccb (cb_userdata (priv m)) w1 e1)))
  /\ (r = FileStatus.OK \/ close_cb (priv m) = None ->
      calls m' = calls m ++ open_cb_log m /\ world m' = w1).
Proof.
  intros HN.
  destruct (open_cb_outcome m) as [[r w1] [c1 s1]] eqn:Hout.
  unfold open. rewrite ENSURE_STATE_pass by now apply test_NEW.
  unfold open_cb_outcome, open_cb_log in *.
  destruct m as [p w l]; step_core; simpl in *.
  destruct (open_cb p) as [ocb|]; simpl.
  - rewrite Hout.
    destruct (close_cb p) as [ccb|] eqn:Hc; destruct r; simpl;
      try (destruct (ccb _ _ _) as [[r2 w2] e2] eqn:Hccb; simpl);
      repeat split; finish_core.
  - inversion Hout; subst; simpl.
    destruct (close_cb p) as [ccb|]; simpl; repeat split; finish_core.
Qed.

(** C2: open() on a NEW handle invokes the registered open callback with
    the stored user data (OK if there is none) and returns its result
    unchanged; on OK the state becomes OPENED, on a fatal-level result it
    becomes FATAL; whenever the result is not OK the registered close
    callback runs, on what the open callback left, before open()
    returns, and otherwise it does not run. *)
Theorem open_on_NEW m :
  state (priv m) = FileState.NEW ->
  let '(r, w1, e1) := open_cb_outcome m in
  let m' := snd (open format_v m) in
  fst (open format_v m) = r
  /\ (r = FileStatus.OK -> state (priv m') = FileState.OPENED)
  /\ (FileStatus.leb r FileStatus.FATAL = true ->
      state (priv m') = FileState.FATAL)
  /\ (r <> FileStatus.OK ->
      forall ccb, close_cb (priv m) = Some ccb ->
        calls m' = calls m ++ open_cb_log m ++ [CallClose]
        /\ world m' = snd (fst (ccb (cb_userdata (priv m)) w1 e1)))
  /\ (r = FileStatus.OK \/ close_cb (priv m) = None ->
      calls m' = calls m ++ open_cb_log m /\ world m' = w1).
Proof. exact (open_NEW_facts m). Qed.

Lemma open_slots m : slots (priv (snd (open format_v m))) = slots (priv m).
Proof.
  unfold open.
  destruct (FileState.test (state (priv m)) (FileState.bit FileState.NEW))
    eqn:T.
  - rewrite ENSURE_STATE_pass by exact T.
    destruct m as [p w l]; step_core.
    destruct (open_cb p) as [ocb|]; simpl;
      try destruct (ocb _ _ _) as [[r w1] e1]; simpl;
      destruct (close_cb p) as [ccb|]; try destruct r; simpl;
      try destruct (ccb _ _ _) as [[r2 w2] e2]; reflexivity.
  - rewrite ENSURE_STATE_fail by exact T. reflexivity.
Qed.

Lemma open_NEW_nonfatal_state m :
  state (priv m) = FileState.NEW ->
  fst (open format_v m) <> FileStatus.OK ->
  fst (open format_v m) <> FileStatus.FATAL ->
  state (priv (snd (open format_v m))) = FileState.NEW.
Proof.
  intros HN. unfold open.
  rewrite ENSURE_STATE_pass by now apply test_NEW.
  destruct m as [p w l]; step_core; simpl in *.
  destruct (open_cb p) as [ocb|]; simpl;
    try destruct (ocb _ _ _) as [[r w1] e1]; simpl;
    destruct (close_cb p) as [ccb|]; try destruct r; simpl;
    try destruct (ccb _ _ _) as [[r2 w2] e2]; simpl;
    intros; congruence.
Qed.

(** *** close *)

Lemma close_facts m :
  let m' := snd (close m) in
  ((state (priv m) = FileState.NEW \/ state (priv m) = FileState.CLOSED) ->
   fst (close m) = FileStatus.OK
   /\ calls m' = calls m /\ world m' = world m
   /\ err_slot (priv m') = err_slot (priv m))
  /\ ((state (priv m) = FileState.OPENED
       \/ state (priv m) = FileState.FATAL) ->
      let '(r, w, e) := close_cb_outcome m (world m) (err_slot (priv m)) in
      fst (close m) = r
      /\ calls m' = calls m ++ close_cb_log m /\ world m' = w)
  /\ state (priv m') = FileState.CLOSED.
Proof.
  destruct m as [p w l]. unfold close, close_cb_outcome, close_cb_log.
  step_core.
  destruct (state p) eqn:S; vm_compute FileState.test; simpl;
    (split; [intros [H|H]; try discriminate H; auto|]);
    (split; [intros [H|H]; try discriminate H|]);
    try (destruct (close_cb p) as [ccb|]; simpl;
         try destruct (ccb _ _ _) as [[r w2] e2]; simpl);
    rewrite ?app_nil_r; auto.
Qed.

(** C3, as the code has it: close() on a NEW or CLOSED handle returns OK
    and leaves the log, the world and the stored error alone; on an OPENED
    or FATAL handle it runs the close callback, if there is one, and
    returns its result (OK if there is none); the state is CLOSED
    afterwards in every case, for a NEW handle too, so that close() is a
    no-op only on a CLOSED handle: on the handle any close() leaves,
    open() returns FATAL with PROGRAMMER_ERROR and invokes nothing. *)
Theorem close_spec m :
  let m' := snd (close m) in
  ((state (priv m) = FileState.NEW \/ state (priv m) = FileState.CLOSED) ->
   fst (close m) = FileStatus.OK
   /\ calls m' = calls m /\ world m' = world m
   /\ err_slot (priv m') = err_slot (priv m))
  /\ ((state (priv m) = FileState.OPENED
       \/ state (priv m) = FileState.FATAL) ->
      let '(r, w, e) := close_cb_outcome m (world m) (err_slot (priv m)) in
      fst (close m) = r
      /\ calls m' = calls m ++ close_cb_log m /\ world m' = w)
  /\ state (priv m') = FileState.CLOSED
  /\ (state (priv m) = FileState.CLOSED -> priv m' = priv m)
  /\ (let (r, m'') := open format_v m' in
      r = FileStatus.FATAL
      /\ error_code (priv m'') = FileError.PROGRAMMER_ERROR
      /\ calls m'' = calls m' /\ world m'' = world m').
Proof.
  intros m'. destruct (close_facts m) as (H1 & H2 & H3). fold m' in H1, H2, H3.
  split; [exact H1|]. split; [exact H2|]. split; [exact H3|]. split.
  - intros Hs. subst m'. destruct m as [p w l]. destruct p. simpl in *.
    subst. reflexivity.
  - unfold open. rewrite ENSURE_STATE_fail
      by (apply test_NEW_false; rewrite H3; discriminate).
    repeat split.
Qed.

Lemma close_calls_app (m : Machine) l w p :
  close_calls (mkMachine p w (calls m ++ l))
  = (close_calls m + length (filter (eq CallClose) l))%nat.
Proof.
  unfold close_calls. simpl. now rewrite filter_app, length_app.
Qed.



(** *** read and write *)

(** C8: on an OPENED handle, read() with a null [bytes_read] and write()
    with a null [bytes_written] return FATAL, store PROGRAMMER_ERROR,
    force the state to FATAL and invoke no callback: the log and the
    world are as before. *)
Theorem read_write_null_count m buf size :
  state (priv m) = FileState.OPENED ->
  (let (r, m') := read format_v buf size 0 m in
   r = FileStatus.FATAL
   /\ error_code (priv m') = FileError.PROGRAMMER_ERROR
   /\ state (priv m') = FileState.FATAL
   /\ calls m' = calls m /\ world m' = world m)
  /\ (let (r, m') := write format_v buf size 0 m in
      r = FileStatus.FATAL
      /\ error_code (priv m') = FileError.PROGRAMMER_ERROR
      /\ state (priv m') = FileState.FATAL
      /\ calls m' = calls m /\ world m' = world m).
Proof.
  intros HO.
  assert (T : FileState.test (state (priv m))
                (FileState.bit FileState.OPENED) = true)
    by now apply test_OPENED.
  unfold read, write. rewrite !ENSURE_STATE_pass by exact T.
  destruct m as [p w l]. step_core.
  split; destruct (format_v _ _ _) as [s ok]; simpl; auto.
Qed.

(** *** What the calls other than close() do to a handle whose close
        callback is due *)









(** Setters on a NEW handle, one after the other. *)
Lemma run_setters_NEW (ss : list Setter) m :
  state (priv m) = FileState.NEW ->
  run_ops format_v (map DoSet ss) m
  = (repeat FileStatus.OK (length ss),
     mkMachine (fold_left (fun p s => store_setter s p) ss (priv m))
       (world m) (calls m)).
Proof.
  revert m. induction ss as [|s ss IH]; intros m Hs; simpl.
  - destruct m; reflexivity.
  - unfold bind, ret. rewrite call_setter_NEW by exact Hs.
    rewrite IH by (simpl; now rewrite store_setter_state).
    reflexivity.
Qed.


Lemma run_ops_cons_machine (o : Op) (os : list Op) m :
  snd (run_ops format_v (o :: os) m)
  = snd (run_ops format_v os (snd (run_op format_v o m))).
Proof.
  simpl. unfold bind, ret. destruct (run_op format_v o m) as [r m1].
  simpl. now destruct (run_ops format_v os m1).
Qed.

Lemma fold_store_state (ss : list Setter) p :
  state (fold_left (fun p s => store_setter s p) ss p) = state p.
Proof.
  revert p. induction ss as [|s ss IH]; intros p; simpl; [reflexivity|].
  now rewrite IH, store_setter_state.
Qed.




(** *** Setters, again *)

Lemma run_op_slots (o : Op) m :
  (forall s, o <> DoSet s) \/ state (priv m) <> FileState.NEW ->
  slots (priv (snd (run_op format_v o m))) = slots (priv m).
Proof.
  intros H.
  destruct o as [s| | |buf sz br|buf sz bw|off wh want|sz]; simpl.
  - destruct H as [H|H]; [now contradiction (H s)|].
    destruct (call_setter_not_NEW s m H) as [func ->]. reflexivity.
  - apply open_slots.
  - destruct m as [p w l]. unfold close. step_core.
    destruct (negb _); [destruct (close_cb p) as [cb|]|]; simpl;
      try destruct (cb _ _ _) as [[r w2] e2]; reflexivity.
  - unfold read.
    destruct (FileState.test (state (priv m))
                (FileState.bit FileState.OPENED)) eqn:T.
    + rewrite ENSURE_STATE_pass by exact T.
      destruct m as [p w l]; step_core.
      destruct (br =? 0); [|destruct (read_cb p) as [cb|]]; simpl;
        try destruct (cb _ _ _ _ _ _) as [[r w2] e2];
        try destruct (format_v _ _ _) as [s ok]; try destruct r;
        reflexivity.
    + rewrite ENSURE_STATE_fail by exact T. reflexivity.
  - unfold write.
    destruct (FileState.test (state (priv m))
                (FileState.bit FileState.OPENED)) eqn:T.
    + rewrite ENSURE_STATE_pass by exact T.
      destruct m as [p w l]; step_core.
      destruct (bw =? 0); [|destruct (write_cb p) as [cb|]]; simpl;
        try destruct (cb _ _ _ _ _ _) as [[r w2] e2];
        try destruct (format_v _ _ _) as [s ok]; try destruct r;
        reflexivity.
    + rewrite ENSURE_STATE_fail by exact T. reflexivity.
  - unfold bind, ret, seek.
    destruct (FileState.test (state (priv m))
                (FileState.bit FileState.OPENED)) eqn:T.
    + rewrite ENSURE_STATE_pass by exact T.
      destruct m as [p w l]; step_core.
      destruct (seek_cb p) as [cb|]; simpl;
        try destruct (cb _ _ _ _ _) as [[[r w2] e2] t];
        try destruct (format_v _ _ _) as [s ok]; try destruct r;
        reflexivity.
    + rewrite ENSURE_STATE_fail by exact T. reflexivity.
  - unfold truncate.
    destruct (FileState.test (state (priv m))
                (FileState.bit FileState.OPENED)) eqn:T.
    + rewrite ENSURE_STATE_pass by exact T.
      destruct m as [p w l]; step_core.
      destruct (truncate_cb p) as [cb|]; simpl;
        try destruct (cb _ _ _ _) as [[r w2] e2];
        try destruct (format_v _ _ _) as [s ok]; try destruct r;
        reflexivity.
    + rewrite ENSURE_STATE_fail by exact T. reflexivity.
Qed.

(** On an OPENED handle read, write, seek and truncate call the callback
    in the slot with the user data in the slot. *)
Lemma operations_dispatch_stored m :
  state (priv m) = FileState.OPENED ->
  (forall buf sz br cb,
      br <> 0 -> read_cb (priv m) = Some cb ->
      let '(r, w, e) :=
        cb (cb_userdata (priv m)) buf sz br (world m) (err_slot (priv m)) in
      let (r', m') := read format_v buf sz br m in
      r' = r /\ world m' = w /\ calls m' = calls m ++ [CallRead])
  /\ (forall buf sz bw cb,
         bw <> 0 -> write_cb (priv m) = Some cb ->
         let '(r, w, e) :=
           cb (cb_userdata (priv m)) buf sz bw (world m)
              (err_slot (priv m)) in
         let (r', m') := write format_v buf sz bw m in
         r' = r /\ world m' = w /\ calls m' = calls m ++ [CallWrite])
  /\ (forall off wh want cb,
         seek_cb (priv m) = Some cb ->
         let '(r, w, e, t) :=
           cb (cb_userdata (priv m)) off wh (world m) (err_slot (priv m)) in
         let '(r', out, m') := seek format_v off wh want m in
         r' = r /\ world m' = w /\ calls m' = calls m ++ [CallSeek]
         /\ out = (if FileStatus.eqb r FileStatus.OK && want
                   then Some t else None))
  /\ (forall sz cb,
         truncate_cb (priv m) = Some cb ->
         let '(r, w, e) :=
           cb (cb_userdata (priv m)) sz (world m) (err_slot (priv m)) in
         let (r', m') := truncate format_v sz m in
         r' = r /\ world m' = w /\ calls m' = calls m ++ [CallTruncate]).
Proof.
  intros HO.
  assert (T : FileState.test (state (priv m))
                (FileState.bit FileState.OPENED) = true)
    by now apply test_OPENED.
  destruct m as [p w l]. simpl in *.
  split; [|split; [|split]].
  - intros buf sz br cb Hbr Hcb. unfold read.
    rewrite ENSURE_STATE_pass by exact T. step_core.
    destruct (Z.eqb_spec br 0) as [?|_]; [contradiction|]. rewrite Hcb.
    destruct (cb _ _ _ _ _ _) as [[r w2] e2]. destruct r; repeat split.
  - intros buf sz bw cb Hbw Hcb. unfold write.
    rewrite ENSURE_STATE_pass by exact T. step_core.
    destruct (Z.eqb_spec bw 0) as [?|_]; [contradiction|]. rewrite Hcb.
    destruct (cb _ _ _ _ _ _) as [[r w2] e2]. destruct r; repeat split.
  - intros off wh want cb Hcb. unfold seek.
    rewrite ENSURE_STATE_pass by exact T. step_core. rewrite Hcb.
    destruct (cb _ _ _ _ _) as [[[r w2] e2] t].
    destruct r, want; repeat split.
  - intros sz cb Hcb. unfold truncate.
    rewrite ENSURE_STATE_pass by exact T. step_core. rewrite Hcb.
    destruct (cb _ _ _ _) as [[r w2] e2]. destruct r; repeat split.
Qed.

Lemma slots_store_setter (s : Setter) p :
  slots (store_setter s p) = slots_set s (slots p)
  /\ err_slot (store_setter s p) = err_slot p.
Proof. destruct s; split; reflexivity. Qed.

Lemma slots_fold_store (ss : list Setter) p :
  slots (fold_left (fun p s => store_setter s p) ss p)
  = fold_left (fun sl s => slots_set s sl) ss (slots p)
  /\ err_slot (fold_left (fun p s => store_setter s p) ss p) = err_slot p.
Proof.
  revert p. induction ss as [|s ss IH]; intros p; simpl; [split; reflexivity|].
  destruct (IH (store_setter s p)) as [I1 I2].
  destruct (slots_store_setter s p) as [S1 S2].
  rewrite I1, I2, S1, S2. split; reflexivity.
Qed.

(** C7: on a NEW handle every setter returns OK and puts its value in its
    slot, every other slot, the state, the stored error, the world and
    the log staying as they are; so any sequence of setters on a NEW
    handle returns OK throughout and leaves in each slot the value put
    there last.  No call other than a setter on a NEW handle changes a
    slot, and each of the six callbacks is invoked from the slot, with
    the user data in the slot: open() on the NEW handle calls the open
    callback, read(), write(), seek() and truncate() on the OPENED handle
    call theirs, and close() on an OPENED or FATAL handle calls the close
    callback; each returns what the callback returns and leaves the world
    the callback leaves.  On a handle in any other state every setter
    returns FATAL, stores PROGRAMMER_ERROR, forces the state to FATAL and
    stores nothing. *)
Theorem setters_only_on_NEW :
  (forall (s : Setter) m,
      state (priv m) = FileState.NEW ->
      let (r, m') := call_setter format_v s m in
      r = FileStatus.OK
      /\ slots (priv m') = slots_set s (slots (priv m))
      /\ state (priv m') = FileState.NEW
      /\ err_slot (priv m') = err_slot (priv m)
      /\ world m' = world m /\ calls m' = calls m)
  /\ (forall (ss : list Setter) m,
         state (priv m) = FileState.NEW ->
         let (rs, m') := run_ops format_v (map DoSet ss) m in
         rs = repeat FileStatus.OK (length ss)
         /\ slots (priv m')
            = fold_left (fun sl s => slots_set s sl) ss (slots (priv m))
         /\ state (priv m') = FileState.NEW
         /\ err_slot (priv m') = err_slot (priv m)
         /\ world m' = world m /\ calls m' = calls m)
  /\ (forall (o : Op) m,
         (forall s, o <> DoSet s) \/ state (priv m) <> FileState.NEW ->
         slots (priv (snd (run_op format_v o m))) = slots (priv m))
  /\ (forall m cb,
         state (priv m) = FileState.NEW ->
         open_cb (priv m) = Some cb ->
         let '(r, w, e) :=
           cb (cb_userdata (priv m)) (world m) (err_slot (priv m)) in
         let (r', m') := open format_v m in
         r' = r
         /\ (r = FileStatus.OK ->
             world m' = w /\ calls m' = calls m ++ [CallOpen]))
  /\ (forall m,
         state (priv m) = FileState.OPENED ->
         (forall buf sz br cb,
             br <> 0 -> read_cb (priv m) = Some cb ->
             let '(r, w, e) :=
               cb (cb_userdata (priv m)) buf sz br (world m)
                  (err_slot (priv m)) in
             let (r', m') := read format_v buf sz br m in
             r' = r /\ world m' = w /\ calls m' = calls m ++ [CallRead])
         /\ (forall buf sz bw cb,
                bw <> 0 -> write_cb (priv m) = Some cb ->
                let '(r, w, e) :=
                  cb (cb_userdata (priv m)) buf sz bw (world m)
                     (err_slot (priv m)) in
                let (r', m') := write format_v buf sz bw m in
                r' = r /\ world m' = w /\ calls m' = calls m ++ [CallWrite])
         /\ (forall off wh want cb,
                seek_cb (priv m) = Some cb ->
                let '(r, w, e, t) :=
                  cb (cb_userdata (priv m)) off wh (world m)
                     (err_slot (priv m)) in
                let '(r', out, m') := seek format_v off wh want m in
                r' = r /\ world m' = w /\ calls m' = calls m ++ [CallSeek]
                /\ out = (if FileStatus.eqb r FileStatus.OK && want
                          then Some t else None))
         /\ (forall sz cb,
                truncate_cb (priv m) = Some cb ->
                let '(r, w, e) :=
                  cb (cb_userdata (priv m)) sz (world m)
                     (err_slot (priv m)) in
                let (r', m') := truncate format_v sz m in
                r' = r /\ world m' = w
                /\ calls m' = calls m ++ [CallTruncate]))
  /\ (forall m cb,
         state (priv m) = FileState.OPENED
         \/ state (priv m) = FileState.FATAL ->
         close_cb (priv m) = Some cb ->
         let '(r, w, e) :=
           cb (cb_userdata (priv m)) (world m) (err_slot (priv m)) in
         let (r', m') := close m in
         r' = r /\ world m' = w /\ calls m' = calls m ++ [CallClose])
  /\ (forall (s : Setter) m,
         state (priv m) <> FileState.NEW ->
         let (r, m') := call_setter format_v s m in
         r = FileStatus.FATAL
         /\ error_code (priv m') = FileError.PROGRAMMER_ERROR
         /\ state (priv m') = FileState.FATAL
         /\ slots (priv m') = slots (priv m)
         /\ world m' = world m /\ calls m' = calls m).
Proof.
  split; [|split; [|split; [exact run_op_slots|split; [|split; [|split]]]]].
  - intros s m HN. rewrite call_setter_NEW by exact HN.
    destruct (slots_store_setter s (priv m)) as [S1 S2].
    simpl. rewrite store_setter_state. repeat split; assumption.
  - intros ss m HN. rewrite run_setters_NEW by exact HN.
    destruct (slots_fold_store ss (priv m)) as [S1 S2].
    simpl. rewrite fold_store_state. repeat split; assumption.
  - intros m cb HN Hcb.
    pose proof (open_NEW_facts m HN) as F.
    unfold open_cb_outcome, open_cb_log in F. rewrite Hcb in F.
    destruct (cb _ _ _) as [[r w] e].
    destruct (open format_v m) as [r' m']. simpl in F.
    destruct F as (Hr & _ & _ & _ & Hlog).
    split; [exact Hr|]. intros Hok.
    destruct (Hlog (or_introl Hok)) as [Hl Hw]. split; assumption.
  - exact operations_dispatch_stored.
  - intros m cb Hs Hcb.
    destruct (close_facts m) as (_ & H2 & _). specialize (H2 Hs).
    unfold close_cb_outcome, close_cb_log in H2. rewrite Hcb in H2.
    destruct (cb _ _ _) as [[r w] e].
    destruct (close m) as [r' m']. simpl in H2.
    destruct H2 as (Hr & Hl & Hw). repeat split; assumption.
  - intros s m HN.
    destruct (call_setter_not_NEW s m HN) as [func ->].
    repeat split.
Qed.

(** *** file_open_callbacks *)

Lemma take_lower_to_Z a b :
  FileStatus.to_Z (take_lower a b)
  = Z.min (FileStatus.to_Z a) (FileStatus.to_Z b).
Proof.
  unfold take_lower, FileStatus.ltb.
  destruct (Z.ltb_spec (FileStatus.to_Z b) (FileStatus.to_Z a)); lia.
Qed.

Lemma take_lower_cases a b : take_lower a b = a \/ take_lower a b = b.
Proof. unfold take_lower. destruct (FileStatus.ltb b a); auto. Qed.

Lemma take_lower_OK b : take_lower FileStatus.OK b = b.
Proof. now destruct b. Qed.

(** C9: file_open_callbacks calls the seven setters and then open(), each
    on the handle the call before it left, and returns the least of the
    eight results in the order OK > RETRY > UNSUPPORTED > WARN > FAILED >
    FATAL: it is one of them and none of them is below it. *)
Theorem file_open_callbacks_minimum ocb ccb rcb wcb scb tcb userdata m :
  let '(r1, m1) := set_open_callback format_v ocb m in
  let '(r2, m2) := set_close_callback format_v ccb m1 in
  let '(r3, m3) := set_read_callback format_v rcb m2 in
  let '(r4, m4) := set_write_callback format_v wcb m3 in
  let '(r5, m5) := set_seek_callback format_v scb m4 in
  let '(r6, m6) := set_truncate_callback format_v tcb m5 in
  let '(r7, m7) := set_callback_data format_v userdata m6 in
  let '(r8, m8) := open format_v m7 in
  let results := [r1; r2; r3; r4; r5; r6; r7; r8] in
  let (r, m') :=
    file_open_callbacks format_v ocb ccb rcb wcb scb tcb userdata m in
  m' = m8
  /\ In r results
  /\ Forall (fun ri => FileStatus.leb r ri = true) results.
Proof.
  unfold file_open_callbacks, bind, ret.
  destruct (set_open_callback format_v ocb m) as [r1 m1].
  destruct (set_close_callback format_v ccb m1) as [r2 m2].
  destruct (set_read_callback format_v rcb m2) as [r3 m3].
  destruct (set_write_callback format_v wcb m3) as [r4 m4].
  destruct (set_seek_callback format_v scb m4) as [r5 m5].
  destruct (set_truncate_callback format_v tcb m5) as [r6 m6].
  destruct (set_callback_data format_v userdata m6) as [r7 m7].
  destruct (open format_v m7) as [r8 m8].
  split; [reflexivity|].
  split.
  - rewrite take_lower_OK.
    repeat match goal with
      | |- context [take_lower ?a ?b] =>
          destruct (take_lower_cases a b) as [-> | ->]
      end; simpl; tauto.
  - repeat constructor; unfold FileStatus.leb; apply Z.leb_le;
      rewrite !take_lower_to_Z; simpl FileStatus.to_Z; lia.
Qed.

(** *** A failed open that is not fatal *)

(** C10: when open() on a NEW handle returns RETRY, UNSUPPORTED, WARN or
    FAILED, the handle is NEW afterwards with its slots as before: every
    setter still returns OK, and a second open() invokes the registered
    open callback again, and the close callback again if that result is
    not OK either. *)
Theorem open_nonfatal_failure_leaves_NEW m :
  state (priv m) = FileState.NEW ->
  let r := fst (open format_v m) in
  let m1 := snd (open format_v m) in
  r <> FileStatus.OK -> r <> FileStatus.FATAL ->
  state (priv m1) = FileState.NEW
  /\ slots (priv m1) = slots (priv m)
  /\ (forall s : Setter, fst (call_setter format_v s m1) = FileStatus.OK)
  /\ (let '(r2, w2, e2) := open_cb_outcome m1 in
      let m2 := snd (open format_v m1) in
      fst (open format_v m1) = r2
      /\ (r2 <> FileStatus.OK ->
          calls m2 = calls m1 ++ open_cb_log m1 ++ close_cb_log m1)
      /\ (r2 = FileStatus.OK -> calls m2 = calls m1 ++ open_cb_log m1)).
Proof.
  intros HN r m1 H1 H2.
  assert (HN1 : state (priv m1) = FileState.NEW)
    by now apply open_NEW_nonfatal_state.
  split; [exact HN1|]. split; [apply open_slots|].
  split.
  - intros s. now rewrite call_setter_NEW.
  - pose proof (open_NEW_facts m1 HN1) as F.
    destruct (open_cb_outcome m1) as [[r2 w2] e2].
    destruct F as (Hr & _ & _ & Hcl & Hno).
    split; [exact Hr|]. split.
    + intros Hne. unfold close_cb_log.
      destruct (close_cb (priv m1)) as [ccb|] eqn:Hc.
      * now destruct (Hcl Hne ccb eq_refl).
      * destruct (Hno (or_intror eq_refl)) as [-> _].
        now rewrite app_nil_r.
    + intros ->. now destruct (Hno (or_introl eq_refl)).
Qed.

End FileCoreFacts.

(** ** The memory backend *)

Section MemoryFacts.

Variable format_v : string -> string -> list FmtArg -> string * bool.
Variable strerror : Z -> string.
Variable pf : Platform.

Lemma SIZE_MAX_pos : 0 < SIZE_MAX pf.
Proof. destruct pf; reflexivity. Qed.

Lemma to_size_t_small z : 0 <= z <= SIZE_MAX pf -> to_size_t pf z = z.
Proof.
  intros H. unfold to_size_t. apply Z.mod_small.
  unfold SIZE_MAX in H. lia.
Qed.

Lemma length_resized old n junk : length (resized old n junk) = n.
Proof. unfold resized. now rewrite length_fmap, length_seq. Qed.

Lemma lookup_resized_old old (n : nat) junk (i : nat) :
  (i < n)%nat -> (i < length old)%nat ->
  resized old n junk !! i = old !! i.
Proof.
  intros Hn Ho. unfold resized.
  rewrite list_lookup_fmap, lookup_seq_lt by exact Hn. simpl.
  destruct (lookup_lt_is_Some_2 old i Ho) as [x ->]. reflexivity.
Qed.

(** The block a growing write leaves: the old bytes, zeros up to the
    position, then the bytes written. *)
Lemma grown_block (old buf : list byte) (junk : nat -> byte)
  (sz ps : nat) :
  (sz < ps + length buf)%nat ->
  let n := (ps + length buf)%nat in
  let blk :=
    list_inserts ps buf
      (list_inserts sz (replicate (n - sz) x00) (resized old n junk)) in
  length blk = n
  /\ (forall i, (i < sz)%nat -> (i < ps)%nat -> (i < length old)%nat ->
                blk !! i = old !! i)
  /\ (forall i, (sz <= i < ps)%nat -> blk !! i = Some x00)
  /\ (forall i, (i < length buf)%nat -> blk !! (ps + i)%nat = buf !! i).
Proof.
  intros Hlt n blk.
  assert (Hlen : length blk = n)
    by (unfold blk; now rewrite !length_inserts, length_resized).
  split; [exact Hlen|]. repeat split.
  - intros i Hi1 Hi2 Hi3. unfold blk.
    rewrite !list_lookup_inserts_lt by lia.
    apply lookup_resized_old; lia.
  - intros i Hi. unfold blk.
    rewrite list_lookup_inserts_lt by lia.
    rewrite list_lookup_inserts
      by (rewrite ?length_replicate, ?length_resized; lia).
    apply lookup_replicate_2. lia.
  - intros i Hi. unfold blk.
    rewrite list_lookup_inserts
      by (rewrite ?length_inserts, ?length_resized; lia).
    f_equal. lia.
Qed.

Lemma blocks_write_back ctx mem :
  blocks (write_back ctx mem) = blocks mem.
Proof. unfold write_back. now destruct (data_ptr ctx), (size_ptr ctx). Qed.

Lemma ptr_cells_write_back ctx mem dp :
  data_ptr ctx = Some dp ->
  ptr_cells (write_back ctx mem) !! dp = Some (data ctx).
Proof.
  intros H. unfold write_back. rewrite H.
  destruct (size_ptr ctx); simpl; apply lookup_insert_eq.
Qed.

Lemma size_cells_write_back ctx mem sp :
  size_ptr ctx = Some sp ->
  size_cells (write_back ctx mem) !! sp = Some (size ctx).
Proof.
  intros H. unfold write_back. rewrite H.
  destruct (data_ptr ctx); simpl; apply lookup_insert_eq.
Qed.

(** C5: on a dynamic buffer, a write of [length buf] bytes at [pos] that
    reaches past the current size without overflowing [size_t] and whose
    reallocation succeeds returns OK with all the bytes written: the
    buffer is the reallocated block, exactly [pos + length buf] bytes
    long, with the old buffer's bytes kept, zeros in [old size, pos) and
    [buf] at [pos]; the context has the new pointer and size, the position has
    advanced by the bytes written, and the caller's pointer and size
    slots, where present, hold the new pointer and size.  If
    [pos + length buf] overflows [size_t], the write fails with
    INVALID_ARGUMENT and nothing is resized or changed. *)
Theorem memory_write_past_end (ctx : MemoryFileCtx) (buf : list byte)
  (mem : Memory) (e : ErrSlot) :
  let len := Z.of_nat (length buf) in
  (0 <= pos ctx -> 0 <= size ctx ->
   pos ctx + len <= SIZE_MAX pf ->
   size ctx < pos ctx + len ->
   fixed_size ctx = false ->
   forall (q : positive) (junk : nat -> byte),
     let r :=
       memory_write_cb format_v strerror pf (AllocGives q junk) ctx buf
         mem e in
     m_status r = FileStatus.OK
     /\ m_out r = Some len
     /\ m_err r = e
     /\ data (m_ctx r) = Z.pos q
     /\ size (m_ctx r) = pos ctx + len
     /\ pos (m_ctx r) = pos ctx + len
     /\ (exists blk,
            blocks (m_mem r) !! Z.pos q = Some blk
            /\ Z.of_nat (length blk) = pos ctx + len
            /\ (forall i : nat,
                   Z.of_nat i < size ctx -> Z.of_nat i < pos ctx ->
                   (i < length (block_at mem (data ctx)))%nat ->
                   blk !! i = block_at mem (data ctx) !! i)
            /\ (forall i : nat,
                   size ctx <= Z.of_nat i < pos ctx ->
                   blk !! i = Some x00)
            /\ (forall i : nat,
                   (i < length buf)%nat ->
                   blk !! (Z.to_nat (pos ctx) + i)%nat = buf !! i))
     /\ (forall dp, data_ptr ctx = Some dp ->
                    ptr_cells (m_mem r) !! dp = Some (Z.pos q))
     /\ (forall sp, size_ptr ctx = Some sp ->
                    size_cells (m_mem r) !! sp = Some (pos ctx + len)))
  /\ (pos ctx + len > SIZE_MAX pf ->
      forall alloc : AllocOutcome,
        let r :=
          memory_write_cb format_v strerror pf alloc ctx buf mem e in
        m_status r = FileStatus.FAILED
        /\ fst (m_err r) = FileError.INVALID_ARGUMENT
        /\ m_ctx r = ctx /\ m_mem r = mem /\ m_out r = None).
Proof.
  intros len. split.
  - intros Hpos Hsize Hmax Hgrow Hdyn q junk.
    unfold memory_write_cb. fold len.
    destruct (Z.gtb_spec (pos ctx) (SIZE_MAX pf - len)) as [Hov|_];
      [lia|].
    rewrite to_size_t_small by lia.
    destruct (Z.gtb_spec (pos ctx + len) (size ctx)) as [_|Hno]; [|lia].
    rewrite Hdyn. unfold realloc, write_tail. simpl.
    rewrite to_size_t_small by lia.
    repeat split.
    + (* the block *)
      pose proof (grown_block (block_at mem (data ctx)) buf junk
                    (Z.to_nat (size ctx)) (Z.to_nat (pos ctx))) as G.
      simpl in G.
      assert (Hn : Z.to_nat (pos ctx + len)
                   = (Z.to_nat (pos ctx) + length buf)%nat)
        by (unfold len; lia).
      destruct G as (G1 & G2 & G3 & G4); [lia |].
      eexists. split.
      * unfold memcpy_to, with_blocks. simpl.
        rewrite lookup_alter_eq, blocks_write_back.
        unfold memset_zero, with_blocks. simpl.
        rewrite lookup_alter_eq, lookup_insert_eq. simpl. reflexivity.
      * unfold len. rewrite Nat2Z.id, firstn_all.
        replace (Z.to_nat (pos ctx + Z.of_nat (length buf) - size ctx))
          with (Z.to_nat (pos ctx) + length buf - Z.to_nat (size ctx))%nat
          by lia.
        fold len. rewrite Hn.
        split; [rewrite G1; unfold len; lia|].
        split; [intros i Hi1 Hi2 Hi3; apply G2; lia|].
        split; [intros i Hi; apply G3; lia|].
        exact G4.
    + intros dp Hdp. unfold memcpy_to, with_blocks. simpl.
      now rewrite (ptr_cells_write_back _ _ dp).
    + intros sp Hsp. unfold memcpy_to, with_blocks. simpl.
      now rewrite (size_cells_write_back _ _ sp).
  - intros Hov alloc. unfold memory_write_cb. fold len.
    destruct (Z.gtb_spec (pos ctx) (SIZE_MAX pf - len)) as [_|Hno]; [|lia].
    unfold set_error_slot. destruct (format_v _ _ _) as [s ok].
    repeat split.
Qed.

Lemma memory_write_realloc_fails (ctx : MemoryFileCtx) (buf : list byte)
  (mem : Memory) (e : ErrSlot) (errno : Z) :
  let len := Z.of_nat (length buf) in
  0 <= pos ctx ->
  pos ctx + len <= SIZE_MAX pf ->
  size ctx < pos ctx + len ->
  fixed_size ctx = false ->
  let r :=
    memory_write_cb format_v strerror pf (AllocFails errno) ctx buf mem e in
  m_status r = FileStatus.FAILED
  /\ fst (m_err r) = - errno
  /\ m_ctx r = ctx /\ m_mem r = mem /\ m_out r = None.
Proof.
  intros len Hpos Hmax Hgrow Hdyn.
  unfold memory_write_cb. fold len.
  destruct (Z.gtb_spec (pos ctx) (SIZE_MAX pf - len)) as [Hov|_]; [lia|].
  rewrite to_size_t_small by lia.
  destruct (Z.gtb_spec (pos ctx + len) (size ctx)) as [_|Hno]; [|lia].
  rewrite Hdyn. simpl. unfold set_error_slot.
  destruct (format_v _ _ _) as [s ok]. repeat split.
Qed.

(** *** Seeking *)

Lemma to_uint64_small z : 0 <= z < 2 ^ 64 -> to_uint64 z = z.
Proof. intros H. unfold to_uint64. now apply Z.mod_small. Qed.

Lemma to_uint64_neg_int64 o :
  INT64_MIN <= o < 0 -> to_uint64 (neg_int64 o) = - o.
Proof.
  unfold INT64_MIN, to_uint64, neg_int64, to_int64. intros H.
  rewrite Zminus_mod_idemp_l.
  replace (- o + 2 ^ 63 - 2 ^ 63) with (- o) by lia.
  apply Z.mod_small. lia.
Qed.

Lemma to_size_t_neg_int64_LP64 o :
  pf = LP64 -> INT64_MIN <= o < 0 -> to_size_t pf (neg_int64 o) = - o.
Proof. intros ->. exact (to_uint64_neg_int64 o). Qed.

Lemma SIZE_MAX_le : SIZE_MAX pf < 2 ^ 64.
Proof. destruct pf; reflexivity. Qed.

Lemma seek_fail_result ctx mem e fmt args :
  let r := seek_fail format_v ctx mem e fmt args in
  m_status r = FileStatus.FAILED
  /\ fst (m_err r) = FileError.INVALID_ARGUMENT
  /\ m_ctx r = ctx /\ m_mem r = mem /\ m_out r = None.
Proof.
  unfold seek_fail, set_error_slot. destruct (format_v _ _ _) as [s ok].
  repeat split.
Qed.

Lemma seek_to_result ctx mem e target :
  0 <= target <= SIZE_MAX pf ->
  let r := seek_to (to_size_t pf target) ctx mem e in
  m_status r = FileStatus.OK
  /\ pos (m_ctx r) = target /\ m_out r = Some target
  /\ size (m_ctx r) = size ctx /\ data (m_ctx r) = data ctx
  /\ m_mem r = mem /\ m_err r = e.
Proof.
  intros H. unfold seek_to. rewrite to_size_t_small by exact H.
  pose proof SIZE_MAX_le.
  rewrite to_uint64_small by lia. repeat split.
Qed.

(** The range check of memory_seek_cb is exact for SEEK_SET and SEEK_CUR,
    for SEEK_END with an offset that is not negative, and for SEEK_END
    altogether where [size_t] has 64 bits. *)
Lemma memory_seek_cb_checked (ctx : MemoryFileCtx) (offset whence : Z)
  (mem : Memory) (e : ErrSlot) :
  INT64_MIN <= offset <= INT64_MAX ->
  0 <= pos ctx <= SIZE_MAX pf ->
  0 <= size ctx <= SIZE_MAX pf ->
  pf = LP64 \/ whence <> SEEK_END \/ 0 <= offset ->
  seek_checked pf ctx offset whence mem e
    (memory_seek_cb format_v pf ctx offset whence mem e).
Proof.
  intros Ho Hp Hs Hside.
  pose proof SIZE_MAX_le as Hmax.
  unfold INT64_MIN, INT64_MAX in Ho.
  unfold seek_checked, seek_target, memory_seek_cb.
  destruct (Z.eqb_spec whence SEEK_SET) as [_|_].
  { (* SEEK_SET *)
    destruct (Z.ltb_spec offset 0) as [Hneg|Hnn]; simpl.
    - destruct (Z.leb_spec 0 offset); [lia|]. simpl.
      apply seek_fail_result.
    - rewrite to_uint64_small by lia.
      destruct (Z.leb_spec 0 offset); [|lia].
      destruct (Z.gtb_spec offset (SIZE_MAX pf)),
               (Z.leb_spec offset (SIZE_MAX pf)); try lia; simpl.
      + apply seek_fail_result.
      + apply seek_to_result. lia. }
  destruct (Z.eqb_spec whence SEEK_CUR) as [_|_].
  { (* SEEK_CUR *)
    destruct (Z.ltb_spec offset 0) as [Hneg|Hnn]; simpl.
    - rewrite to_uint64_neg_int64 by (unfold INT64_MIN; lia).
      destruct (Z.gtb_spec offset 0); [lia|]. simpl.
      rewrite orb_false_r.
      destruct (Z.gtb_spec (- offset) (pos ctx)),
               (Z.leb_spec 0 (pos ctx + offset)); try lia; simpl.
      + apply seek_fail_result.
      + destruct (Z.leb_spec (pos ctx + offset) (SIZE_MAX pf)); [|lia].
        apply seek_to_result. lia.
    - rewrite to_uint64_small by lia.
      destruct (Z.leb_spec 0 (pos ctx + offset)); [|lia]. simpl.
      destruct (Z.gtb_spec offset 0); simpl.
      + destruct (Z.gtb_spec offset (SIZE_MAX pf - pos ctx)),
                 (Z.leb_spec (pos ctx + offset) (SIZE_MAX pf)); try lia.
        * apply seek_fail_result.
        * apply seek_to_result. lia.
      + destruct (Z.leb_spec (pos ctx + offset) (SIZE_MAX pf)); [|lia].
        apply seek_to_result. lia. }
  destruct (Z.eqb_spec whence SEEK_END) as [Hw|_];
    [|apply seek_fail_result].
  (* SEEK_END *)
  destruct (Z.ltb_spec offset 0) as [Hneg|Hnn]; simpl.
  - assert (Hpf : pf = LP64) by (destruct Hside as [?|[?|?]]; [auto|easy|lia]).
    rewrite to_size_t_neg_int64_LP64 by (auto; unfold INT64_MIN; lia).
    destruct (Z.gtb_spec offset 0); [lia|]. simpl.
    rewrite orb_false_r.
    destruct (Z.gtb_spec (- offset) (size ctx)),
             (Z.leb_spec 0 (size ctx + offset)); try lia; simpl.
    + apply seek_fail_result.
    + destruct (Z.leb_spec (size ctx + offset) (SIZE_MAX pf)); [|lia].
      apply seek_to_result. lia.
  - rewrite to_uint64_small by lia.
    destruct (Z.leb_spec 0 (size ctx + offset)); [|lia]. simpl.
    destruct (Z.gtb_spec offset 0); simpl.
    + destruct (Z.gtb_spec offset (SIZE_MAX pf - size ctx)),
               (Z.leb_spec (size ctx + offset) (SIZE_MAX pf)); try lia.
      * apply seek_fail_result.
      * apply seek_to_result. lia.
    + destruct (Z.leb_spec (size ctx + offset) (SIZE_MAX pf)); [|lia].
      apply seek_to_result. lia.
Qed.

(** The first half of C6: SEEK_END with a positive offset beyond
    [SIZE_MAX - size] fails with INVALID_ARGUMENT and leaves the context,
    the position with it, as it was. *)
Lemma memory_seek_end_overflow (ctx : MemoryFileCtx) (offset : Z)
  (mem : Memory) (e : ErrSlot) :
  0 < offset <= INT64_MAX ->
  0 <= size ctx <= SIZE_MAX pf ->
  offset > SIZE_MAX pf - size ctx ->
  let r := memory_seek_cb format_v pf ctx offset SEEK_END mem e in
  m_status r = FileStatus.FAILED
  /\ fst (m_err r) = FileError.INVALID_ARGUMENT
  /\ m_ctx r = ctx /\ m_mem r = mem /\ m_out r = None.
Proof.
  intros Ho Hs Hov. unfold memory_seek_cb. simpl.
  unfold INT64_MAX in Ho.
  rewrite to_uint64_small by lia.
  destruct (Z.ltb_spec offset 0); [lia|].
  destruct (Z.gtb_spec offset 0); [|lia].
  destruct (Z.gtb_spec offset (SIZE_MAX pf - size ctx)); [|lia].
  simpl. apply seek_fail_result.
Qed.

End MemoryFacts.

(** C6 on a 32-bit target: SEEK_END with the offset [-2^32 - 5] on a buffer
    of 10 bytes asks for a position below zero, but the check compares
    [static_cast<size_t>(-offset)], which is 5 there, with the size; the
    seek returns OK and moves the position from 3 to 5.  SEEK_CUR, which
    casts to [uint64_t], rejects the same offset. *)
Lemma memory_seek_end_underflow_ILP32 :
  let r :=
    memory_seek_cb SeekDouble.format_v ILP32 SeekDouble.ctx (- 2 ^ 32 - 5)
      SEEK_END SeekDouble.mem (FileError.NONE, "") in
  seek_target SeekDouble.ctx (- 2 ^ 32 - 5) SEEK_END = Some (- 4294967291)
  /\ m_status r = FileStatus.OK
  /\ pos SeekDouble.ctx = 3
  /\ pos (m_ctx r) = 5
  /\ m_out r = Some 5
  /\ fst (m_err r) = FileError.NONE
  /\ m_status
       (memory_seek_cb SeekDouble.format_v ILP32 SeekDouble.ctx
          (- 2 ^ 32 - 5) SEEK_CUR SeekDouble.mem (FileError.NONE, ""))
     = FileStatus.FAILED.
Proof. vm_compute. repeat split. Qed.

(** ** Opening a directory *)

Section NativeFacts.

Variable format_v : string -> string -> list FmtArg -> string * bool.
Context {OS : Type}.
Variable errno : OS -> Z.
Variable GetLastError : OS -> Z.
Variable strerror : Z -> string.
Variable S_ISDIR : Z -> bool.
Variable S_ISREG : Z -> bool.
Variable S_ISBLK : Z -> bool.
Variable EISDIR : Z.
Variable on_linux : bool.
Variable FormatMessageW : Z -> option string.

Lemma native_fail_result {C} (ctx : C) (os : OS) e code fmt args :
  let r := native_fail format_v ctx os e code fmt args in
  n_status r = FileStatus.FAILED /\ fst (n_err r) = code
  /\ n_ctx r = ctx /\ n_os r = os.
Proof.
  unfold native_fail, set_error_slot.
  destruct (format_v _ _ _) as [s ok]. repeat split.
Qed.

Lemma fd_check_stat_directory (ctx : FdFileCtx) (os : OS) e rc st_mode os1 :
  fd_fn_fstat (fd_funcs ctx) (fd ctx) os = (rc, st_mode, os1) ->
  0 <= rc -> S_ISDIR st_mode = true ->
  let r := fd_check_stat format_v errno strerror S_ISDIR EISDIR ctx os e in
  n_status r = FileStatus.FAILED /\ fst (n_err r) = - EISDIR.
Proof.
  intros Hst Hrc Hdir. unfold fd_check_stat. rewrite Hst.
  destruct (Z.ltb_spec rc 0); [lia|]. rewrite Hdir.
  split; apply native_fail_result.
Qed.

Lemma posix_check_stat_directory (ctx : PosixFileCtx) (os : OS) e
  fd' os1 rc st_mode os2 :
  fn_fileno (posix_funcs ctx) (fp ctx) os = (fd', os1) ->
  0 <= fd' ->
  posix_fn_fstat (posix_funcs ctx) fd' os1 = (rc, st_mode, os2) ->
  0 <= rc -> S_ISDIR st_mode = true ->
  let r :=
    posix_check_stat format_v errno strerror S_ISDIR S_ISREG S_ISBLK EISDIR
      on_linux ctx os e in
  n_status r = FileStatus.FAILED /\ fst (n_err r) = - EISDIR.
Proof.
  intros Hno Hfd Hst Hrc Hdir. unfold posix_check_stat. rewrite Hno.
  destruct (Z.geb_spec fd' 0); [|lia]. rewrite Hst.
  destruct (Z.ltb_spec rc 0); [lia|]. rewrite Hdir.
  split; apply native_fail_result.
Qed.

(** C4, as the code has it: the open callbacks of the descriptor and
    buffered-stream backends fail with FAILED and store [-EISDIR] when
    the resource they have acquired stats, successfully, as a directory
    (for a stream: when [fileno] gives a descriptor to stat); the open
    callback of the platform-handle backend makes no such check, and
    returns OK with the error slot untouched whenever it has a handle. *)
Theorem open_directory_where_statted :
  (forall (ctx : FdFileCtx) (os : OS) e fd' os1 rc st_mode os2,
      fd_acquired ctx os = (fd', os1) ->
      (fd_filename ctx <> "" -> 0 <= fd') ->
      fd_fn_fstat (fd_funcs ctx) fd' os1 = (rc, st_mode, os2) ->
      0 <= rc -> S_ISDIR st_mode = true ->
      let r := fd_open_cb format_v errno strerror S_ISDIR EISDIR ctx os e in
      n_status r = FileStatus.FAILED /\ fst (n_err r) = - EISDIR)
  /\ (forall (ctx : PosixFileCtx) (os : OS) e fp' os1 fd' os2 rc st_mode
        os3,
         posix_acquired ctx os = (fp', os1) ->
         (posix_filename ctx <> "" -> fp' <> 0) ->
         fn_fileno (posix_funcs ctx) fp' os1 = (fd', os2) ->
         0 <= fd' ->
         posix_fn_fstat (posix_funcs ctx) fd' os2 = (rc, st_mode, os3) ->
         0 <= rc -> S_ISDIR st_mode = true ->
         let r :=
           posix_open_cb format_v errno strerror S_ISDIR S_ISREG S_ISBLK
             EISDIR on_linux ctx os e in
         n_status r = FileStatus.FAILED /\ fst (n_err r) = - EISDIR)
  /\ (forall (ctx : Win32FileCtx) (os : OS) e h os1,
         win32_acquired ctx os = (h, os1) ->
         (win32_filename ctx <> "" -> h <> INVALID_HANDLE_VALUE) ->
         let r :=
           win32_open_cb format_v GetLastError FormatMessageW ctx os e in
         n_status r = FileStatus.OK /\ n_err r = e /\ n_os r = os1
         /\ handle (n_ctx r) = h).
Proof.
  split; [|split].
  - intros ctx os e fd' os1 rc st_mode os2 Hacq Hok Hst Hrc Hdir.
    unfold fd_open_cb, fd_acquired in *.
    destruct (String.eqb_spec (fd_filename ctx) "") as [Hn|Hn]; simpl in *.
    + inversion Hacq; subst.
      now apply (fd_check_stat_directory ctx os1 e rc st_mode os2).
    + rewrite Hacq. destruct (Z.ltb_spec fd' 0); [specialize (Hok Hn); lia|].
      now apply (fd_check_stat_directory (fd_set_fd fd' ctx) os1 e rc
                   st_mode os2).
  - intros ctx os e fp' os1 fd' os2 rc st_mode os3 Hacq Hok Hno Hfd Hst
      Hrc Hdir.
    unfold posix_open_cb, posix_acquired in *.
    destruct (String.eqb_spec (posix_filename ctx) "") as [Hn|Hn];
      simpl in *.
    + inversion Hacq; subst.
      now apply (posix_check_stat_directory ctx os1 e fd' os2 rc st_mode
                   os3).
    + rewrite Hacq. destruct (Z.eqb_spec fp' 0); [now specialize (Hok Hn)|].
      now apply (posix_check_stat_directory (posix_set_fp fp' ctx) os1 e
                   fd' os2 rc st_mode os3).
  - intros ctx os e h os1 Hacq Hok.
    unfold win32_open_cb, win32_acquired in *.
    destruct (String.eqb_spec (win32_filename ctx) "") as [Hn|Hn];
      simpl in *.
    + inversion Hacq; subst. repeat split.
    + rewrite Hacq.
      destruct (Z.eqb_spec h INVALID_HANDLE_VALUE);
        [now specialize (Hok Hn)|].
      repeat split.
Qed.

End NativeFacts.

(** C4 as stated fails for the platform-handle backend: where a path opens
    and names a directory, the descriptor and buffered-stream backends fail
    with [-EISDIR], and the platform-handle backend returns OK and stores
    no error. *)
Lemma platform_handle_opens_directory :
  open_directory PlatformHandleBackend = (FileStatus.OK, FileError.NONE)
  /\ open_directory PlatformHandleBackend
     <> (FileStatus.FAILED, - DirectoryDouble.EISDIR)
  /\ open_directory DescriptorBackend
     = (FileStatus.FAILED, - DirectoryDouble.EISDIR)
  /\ open_directory BufferedStreamBackend
     = (FileStatus.FAILED, - DirectoryDouble.EISDIR).
Proof. vm_compute. repeat split. discriminate. Qed.

(** ** The properties at concrete handles *)


(** Two more lives in which the close callback runs twice: open() fails
    with FATAL and the handle is destroyed; and a handle is opened, closed,
    read from and destroyed. *)
Lemma close_callback_twice_after_fatal_open :
  close_calls
    (lifetime CountingDouble.format_v 0%nat
       (CountingDouble.registered FileStatus.FATAL ++ [DoOpen]))
  = 2%nat
  /\ close_calls
       (lifetime CountingDouble.format_v 0%nat
          (CountingDouble.registered FileStatus.OK
           ++ [DoOpen; DoClose; DoRead 64 1 72]))
     = 2%nat.
Proof. vm_compute. repeat split. Qed.

(** C3 as stated fails: close() on a NEW handle is not a no-op.  It
    turns the handle CLOSED, and open(), which succeeds on the handle as
    it was, returns FATAL on the handle close() leaves. *)
Lemma close_on_NEW_not_a_no_op :
  let m := CountingDouble.handle FileStatus.OK in
  state (priv m) = FileState.NEW
  /\ fst (close m) = FileStatus.OK
  /\ state (priv (snd (close m))) = FileState.CLOSED
  /\ snd (close m) <> m
  /\ fst (open CountingDouble.format_v m) = FileStatus.OK
  /\ fst (open CountingDouble.format_v (snd (close m))) = FileStatus.FATAL.
Proof.
  vm_compute. repeat split. intros H. discriminate H.
Qed.


Lemma open_on_NEW_witness :
  let m := CountingDouble.handle FileStatus.FAILED in
  state (priv m) = FileState.NEW
  /\ fst (open CountingDouble.format_v m) = FileStatus.FAILED
  /\ calls (snd (open CountingDouble.format_v m)) = [CallOpen; CallClose]
  /\ world (snd (open CountingDouble.format_v m)) = 1%nat.
Proof.
  intros m.
  pose proof (open_on_NEW CountingDouble.format_v m eq_refl) as H.
  cbv in H. destruct H as (H1 & _ & _ & H4 & _).
  split; [reflexivity|]. split; [exact H1|].
  assert (Hne : FileStatus.FAILED <> FileStatus.OK) by discriminate.
  destruct (H4 Hne _ eq_refl) as [Hl Hw].
  split; [exact Hl | exact Hw].
Defined.

Lemma close_spec_witness :
  let m := CountingDouble.opened FileStatus.OK in
  state (priv m) = FileState.OPENED
  /\ fst (close m) = FileStatus.OK
  /\ calls (snd (close m)) = [CallOpen; CallClose]
  /\ state (priv (snd (close m))) = FileState.CLOSED
  /\ fst (close (snd (close m))) = FileStatus.OK
  /\ calls (snd (close (snd (close m)))) = [CallOpen; CallClose].
Proof.
  intros m.
  pose proof (close_spec CountingDouble.format_v m) as H.
  destruct H as (_ & H2 & H3 & _).
  destruct (H2 (or_introl eq_refl)) as (Hr & Hl & _).
  pose proof (close_spec CountingDouble.format_v (snd (close m))) as H'.
  destruct H' as (H1' & _ & _).
  destruct (H1' (or_intror eq_refl)) as (Hr' & Hl' & _).
  split; [reflexivity|]. split; [exact Hr|]. split; [exact Hl|].
  split; [exact H3|]. split; [exact Hr' | exact Hl'].
Defined.

Lemma read_write_null_count_witness :
  let m := CountingDouble.opened FileStatus.OK in
  state (priv m) = FileState.OPENED
  /\ fst (read CountingDouble.format_v 64 1 0 m) = FileStatus.FATAL
  /\ state (priv (snd (read CountingDouble.format_v 64 1 0 m)))
     = FileState.FATAL
  /\ fst (write CountingDouble.format_v 64 1 0 m) = FileStatus.FATAL
  /\ calls (snd (write CountingDouble.format_v 64 1 0 m)) = [CallOpen].
Proof.
  intros m.
  pose proof (read_write_null_count CountingDouble.format_v m 64 1 eq_refl)
    as [Hr Hw].
  cbv in Hr, Hw.
  destruct Hr as (R1 & _ & R3 & _). destruct Hw as (W1 & _ & _ & W4 & _).
  split; [reflexivity|]. split; [exact R1|]. split; [exact R3|].
  split; [exact W1 | exact W4].
Defined.

Lemma setters_only_on_NEW_witness :
  let fresh := File_new (W := CountingDouble.W) 0%nat in
  let m := CountingDouble.opened FileStatus.OK in
  state (priv fresh) = FileState.NEW
  /\ fst (call_setter CountingDouble.format_v (SetCallbackData 4096) fresh)
     = FileStatus.OK
  /\ cb_userdata
       (priv (snd (call_setter CountingDouble.format_v
                     (SetCallbackData 4096) fresh)))
     = 4096
  /\ state (priv m) <> FileState.NEW
  /\ fst (call_setter CountingDouble.format_v (SetCallbackData 4096) m)
     = FileStatus.FATAL
  /\ error_code
       (priv (snd (call_setter CountingDouble.format_v
                     (SetCallbackData 4096) m)))
     = FileError.PROGRAMMER_ERROR.
Proof.
  intros fresh m.
  destruct (setters_only_on_NEW (W := CountingDouble.W)
              CountingDouble.format_v) as (S1 & _ & _ & _ & _ & _ & S7).
  assert (Hm : state (priv m) <> FileState.NEW) by discriminate.
  pose proof (S1 (SetCallbackData 4096) fresh eq_refl) as E1.
  pose proof (S7 (SetCallbackData 4096) m Hm) as E7.
  destruct (call_setter CountingDouble.format_v (SetCallbackData 4096) fresh)
    as [r1 m1].
  destruct (call_setter CountingDouble.format_v (SetCallbackData 4096) m)
    as [r m'].
  destruct E1 as (G1 & G2 & _).
  destruct E7 as (F1 & F2 & _).
  split; [reflexivity|].
  split; [exact G1|].
  split; [exact (f_equal snd G2)|]. split; [exact Hm|].
  split; [exact F1 | exact F2].
Defined.

Lemma open_nonfatal_failure_leaves_NEW_witness :
  let m := CountingDouble.handle FileStatus.FAILED in
  state (priv m) = FileState.NEW
  /\ fst (open CountingDouble.format_v m) = FileStatus.FAILED
  /\ state (priv (snd (open CountingDouble.format_v m))) = FileState.NEW
  /\ calls
       (snd (open CountingDouble.format_v
               (snd (open CountingDouble.format_v m))))
     = [CallOpen; CallClose; CallOpen; CallClose].
Proof.
  intros m.
  assert (H1 : fst (open CountingDouble.format_v m) <> FileStatus.OK)
    by discriminate.
  assert (H2 : fst (open CountingDouble.format_v m) <> FileStatus.FATAL)
    by discriminate.
  pose proof (open_nonfatal_failure_leaves_NEW CountingDouble.format_v m
                eq_refl H1 H2) as (S1 & _ & _ & S4).
  cbv in S4. destruct S4 as (_ & S5 & _).
  split; [reflexivity|]. split; [reflexivity|]. split; [exact S1|].
  apply S5. discriminate.
Defined.

Lemma memory_write_past_end_witness :
  let r :=
    memory_write_cb SeekDouble.format_v SeekDouble.strerror LP64
      (AllocGives 8192 (fun _ => "x"%byte)) SeekDouble.dyn_ctx
      ["y"; "z"]%byte SeekDouble.dyn_mem (FileError.NONE, "") in
  m_status r = FileStatus.OK
  /\ m_out r = Some 2
  /\ size (m_ctx r) = 14
  /\ ptr_cells (m_mem r) !! 8 = Some 8192
  /\ size_cells (m_mem r) !! 16 = Some 14
  /\ fst (m_err
            (memory_write_cb SeekDouble.format_v SeekDouble.strerror ILP32
               (AllocGives 8192 (fun _ => "x"%byte))
               (mkMemoryFileCtx 4096 10 None None (2 ^ 32 - 1) false)
               ["y"; "z"]%byte SeekDouble.dyn_mem (FileError.NONE, "")))
     = FileError.INVALID_ARGUMENT.
Proof.
  intros r.
  destruct (memory_write_past_end SeekDouble.format_v SeekDouble.strerror
              LP64 SeekDouble.dyn_ctx ["y"; "z"]%byte SeekDouble.dyn_mem
              (FileError.NONE, "")) as [G _].
  destruct (G ltac:(vm_compute; discriminate) ltac:(vm_compute; discriminate)
              ltac:(vm_compute; discriminate) ltac:(reflexivity)
              ltac:(reflexivity) 8192%positive (fun _ => "x"%byte))
    as (G1 & G2 & _ & _ & G5 & _ & _ & G8 & G9).
  destruct (memory_write_past_end SeekDouble.format_v SeekDouble.strerror
              ILP32 (mkMemoryFileCtx 4096 10 None None (2 ^ 32 - 1) false)
              ["y"; "z"]%byte SeekDouble.dyn_mem (FileError.NONE, ""))
    as [_ O].
  destruct (O ltac:(reflexivity) (AllocGives 8192 (fun _ => "x"%byte)))
    as (_ & O2 & _).
  split; [exact G1|]. split; [exact G2|]. split; [exact G5|].
  split; [exact (G8 8 eq_refl)|]. split; [exact (G9 16 eq_refl)|].
  exact O2.
Defined.

Lemma open_directory_where_statted_witness :
  let e0 : ErrSlot := (FileError.NONE, "") in
  fst (n_err
         (fd_open_cb DirectoryDouble.format_v id DirectoryDouble.strerror
            DirectoryDouble.S_ISDIR DirectoryDouble.EISDIR
            DirectoryDouble.fd_ctx 0 e0))
  = - DirectoryDouble.EISDIR
  /\ fst (n_err
            (posix_open_cb DirectoryDouble.format_v id
               DirectoryDouble.strerror DirectoryDouble.S_ISDIR
               DirectoryDouble.S_ISREG DirectoryDouble.S_ISBLK
               DirectoryDouble.EISDIR true DirectoryDouble.posix_ctx 0 e0))
     = - DirectoryDouble.EISDIR
  /\ n_status
       (win32_open_cb DirectoryDouble.format_v id
          DirectoryDouble.FormatMessageW DirectoryDouble.win32_ctx 0 e0)
     = FileStatus.OK.
Proof.
  intros e0.
  destruct (open_directory_where_statted DirectoryDouble.format_v
              (OS := DirectoryDouble.OS) id id DirectoryDouble.strerror
              DirectoryDouble.S_ISDIR DirectoryDouble.S_ISREG
              DirectoryDouble.S_ISBLK DirectoryDouble.EISDIR true
              DirectoryDouble.FormatMessageW) as (F & P & H).
  split; [|split].
  - refine (proj2 (F DirectoryDouble.fd_ctx 0 e0 3 0 0
                     DirectoryDouble.dir_mode 0 eq_refl _ eq_refl _ eq_refl)).
    + intros _. vm_compute. discriminate.
    + vm_compute. discriminate.
  - refine (proj2 (P DirectoryDouble.posix_ctx 0 e0 0x1000 0 3 0 0
                     DirectoryDouble.dir_mode 0 eq_refl _ eq_refl _ eq_refl
                     _ eq_refl)).
    + intros _. discriminate.
    + vm_compute. discriminate.
    + vm_compute. discriminate.
  - refine (proj1 (H DirectoryDouble.win32_ctx 0 e0 1 0 eq_refl _)).
    intros _. discriminate.
Defined.

(** * Further properties *)

(** ** The File core: wrong states, empty slots, callback results *)

Section FileCoreMoreFacts.

Context {W : Type}.
Variable format_v : string -> string -> list FmtArg -> string * bool.

Abbreviation Machine := (Machine (W := W)).
Implicit Types (m : Machine) (o : Op (W := W)).

Ltac run_core :=
  unfold bind, ret, get_priv, set_error, set_error_v, set_state,
    modify_priv, invoke; simpl.

Lemma run_op_rejected o m s :
  required_state o = Some s -> state (priv m) <> s ->
  exists func,
    run_op format_v o m
    = (FileStatus.FATAL, rejected format_v (FileState.bit s) func m).
Proof.
  intros Hreq Hs.
  destruct o as [st| | |buf sz br|buf sz bw|off wh want|sz];
    simpl in Hreq; inversion Hreq; subst s; simpl.
  - now apply call_setter_not_NEW.
  - unfold open. rewrite ENSURE_STATE_fail by now apply test_NEW_false.
    eexists; reflexivity.
  - unfold read. rewrite ENSURE_STATE_fail by now apply test_OPENED_false.
    eexists; reflexivity.
  - unfold write. rewrite ENSURE_STATE_fail by now apply test_OPENED_false.
    eexists; reflexivity.
  - unfold bind, ret, seek.
    rewrite ENSURE_STATE_fail by now apply test_OPENED_false.
    eexists; reflexivity.
  - unfold truncate.
    rewrite ENSURE_STATE_fail by now apply test_OPENED_false.
    eexists; reflexivity.
Qed.

(** Every call but close() asks for one state, NEW for the setters and
    open(), OPENED for read(), write(), seek() and truncate(); on a handle
    in another state it returns FATAL, stores PROGRAMMER_ERROR, forces the
    state to FATAL, and neither stores nor invokes anything. *)
Theorem wrong_state_rejected o m s :
  required_state o = Some s -> state (priv m) <> s ->
  let (r, m') := run_op format_v o m in
  r = FileStatus.FATAL
  /\ error_code (priv m') = FileError.PROGRAMMER_ERROR
  /\ state (priv m') = FileState.FATAL
  /\ slots (priv m') = slots (priv m)
  /\ world m' = world m /\ calls m' = calls m.
Proof.
  intros Hreq Hs.
  destruct (run_op_rejected o m s Hreq Hs) as [func ->].
  repeat split.
Qed.

(** On an OPENED handle, seek() and truncate(), and read() and write()
    called with a count pointer that is not null, return UNSUPPORTED and
    store the error UNSUPPORTED when there is no callback in their slot;
    the handle stays OPENED and nothing is invoked.  (With a null count
    pointer read() and write() return FATAL whatever the slot holds.) *)
Theorem empty_slot_unsupported o m :
  state (priv m) = FileState.OPENED ->
  slot_empty o (priv m) ->
  let (r, m') := run_op format_v o m in
  r = FileStatus.UNSUPPORTED
  /\ error_code (priv m') = FileError.UNSUPPORTED
  /\ state (priv m') = FileState.OPENED
  /\ slots (priv m') = slots (priv m)
  /\ world m' = world m /\ calls m' = calls m.
Proof.
  intros HO Hslot.
  assert (T : FileState.test (state (priv m))
                (FileState.bit FileState.OPENED) = true)
    by now apply test_OPENED.
  destruct m as [p w l]. simpl in HO.
  destruct o as [st| | |buf sz br|buf sz bw|off wh want|sz];
    simpl in Hslot; try contradiction; simpl.
  - destruct Hslot as [Hbr Hcb]. unfold read.
    rewrite ENSURE_STATE_pass by exact T. run_core. rewrite Hcb.
    destruct (Z.eqb_spec br 0) as [?|_]; [contradiction|].
    destruct (format_v _ _ _) as [s ok]. simpl. now rewrite HO.
  - destruct Hslot as [Hbw Hcb]. unfold write.
    rewrite ENSURE_STATE_pass by exact T. run_core. rewrite Hcb.
    destruct (Z.eqb_spec bw 0) as [?|_]; [contradiction|].
    destruct (format_v _ _ _) as [s ok]. simpl. now rewrite HO.
  - unfold bind, ret, seek.
    rewrite ENSURE_STATE_pass by exact T. run_core. rewrite Hslot.
    destruct (format_v _ _ _) as [s ok]. simpl. now rewrite HO.
  - unfold truncate.
    rewrite ENSURE_STATE_pass by exact T. run_core. rewrite Hslot.
    destruct (format_v _ _ _) as [s ok]. simpl. now rewrite HO.
Qed.

(** On an OPENED handle, read(), write(), seek() and truncate() return what
    the callback in their slot returns, and only the result FATAL takes the
    handle out of OPENED: after RETRY, UNSUPPORTED, WARN or FAILED it can be
    used as before. *)
Theorem callback_result_decides_state o m r w e :
  state (priv m) = FileState.OPENED ->
  slot_outcome o m = Some (r, w, e) ->
  let (r', m') := run_op format_v o m in
  r' = r
  /\ world m' = w
  /\ err_slot (priv m') = e
  /\ state (priv m')
     = (if decide (r = FileStatus.FATAL) then FileState.FATAL
        else FileState.OPENED)
  /\ slots (priv m') = slots (priv m)
  /\ calls m' = calls m ++ [call_of o].
Proof.
  intros HO Hout.
  assert (T : FileState.test (state (priv m))
                (FileState.bit FileState.OPENED) = true)
    by now apply test_OPENED.
  destruct m as [p w0 l]. simpl in HO. destruct e as [c s].
  destruct o as [st| | |buf sz br|buf sz bw|off wh want|sz];
    simpl in Hout; try discriminate Hout; simpl.
  - destruct (br =? 0) eqn:Hbr; [discriminate Hout|].
    destruct (read_cb p) as [cb|] eqn:Hcb; [|discriminate Hout].
    simpl in Hout. inversion Hout as [Hcall]. unfold err_slot in Hcall.
    unfold read.
    rewrite ENSURE_STATE_pass by exact T. run_core.
    rewrite Hbr, Hcb. unfold err_slot. simpl. rewrite Hcall.
    destruct r; simpl; rewrite ?HO; repeat split.
  - destruct (bw =? 0) eqn:Hbw; [discriminate Hout|].
    destruct (write_cb p) as [cb|] eqn:Hcb; [|discriminate Hout].
    simpl in Hout. inversion Hout as [Hcall]. unfold err_slot in Hcall.
    unfold write.
    rewrite ENSURE_STATE_pass by exact T. run_core.
    rewrite Hbw, Hcb. unfold err_slot. simpl. rewrite Hcall.
    destruct r; simpl; rewrite ?HO; repeat split.
  - destruct (seek_cb p) as [cb|] eqn:Hcb; [|discriminate Hout].
    simpl in Hout. inversion Hout as [Hcall]. unfold bind, ret, seek.
    rewrite ENSURE_STATE_pass by exact T. run_core. rewrite Hcb.
    destruct (cb _ _ _ _ _) as [[[r1 w1] e1] t]. simpl in Hcall.
    inversion Hcall; subst.
    destruct r; simpl; rewrite ?HO; repeat split.
  - destruct (truncate_cb p) as [cb|] eqn:Hcb; [|discriminate Hout].
    simpl in Hout. inversion Hout as [Hcall]. unfold err_slot in Hcall.
    unfold truncate.
    rewrite ENSURE_STATE_pass by exact T. run_core.
    rewrite Hcb. unfold err_slot. simpl. rewrite Hcall.
    destruct r; simpl; rewrite ?HO; repeat split.
Qed.

(** *** Handles that are closed or fatal, and handles that have left NEW *)

Lemma run_op_finished o m :
  finished m ->
  finished (snd (run_op format_v o m))
  /\ exists l,
      calls (snd (run_op format_v o m)) = calls m ++ l
      /\ Forall (eq CallClose) l.
Proof.
  intros Hf.
  destruct (required_state o) as [s|] eqn:Hreq.
  - assert (Hs : state (priv m) <> s).
    { destruct o; simpl in Hreq; inversion Hreq; subst s;
        destruct Hf as [Hf|Hf]; rewrite Hf; discriminate. }
    destruct (run_op_rejected o m s Hreq Hs) as [func ->]. simpl.
    split; [now right|]. exists []. now rewrite app_nil_r.
  - destruct o; try discriminate Hreq. simpl.
    destruct m as [p w l]. unfold finished in *. simpl in *.
    unfold close. run_core.
    destruct Hf as [Hf|Hf]; rewrite Hf; simpl.
    + split; [now left|]. exists []. now rewrite app_nil_r.
    + destruct (close_cb p) as [cb|]; simpl.
      * destruct (cb _ _ _) as [[r w2] e2]. simpl.
        split; [now left|]. exists [CallClose]. split; [reflexivity|].
        now repeat constructor.
      * split; [now left|]. exists []. now rewrite app_nil_r.
Qed.

(** A handle that is CLOSED or FATAL stays CLOSED or FATAL whatever is
    called on it, and the only callback that can still run is the close
    callback: no open, read, write, seek or truncate callback is invoked
    again. *)
Theorem finished_stays_finished (os : list (Op (W := W))) m :
  finished m ->
  finished (snd (run_ops format_v os m))
  /\ exists l,
      calls (snd (run_ops format_v os m)) = calls m ++ l
      /\ Forall (eq CallClose) l.
Proof.
  revert m. induction os as [|o os IH]; intros m Hf.
  - simpl. split; [exact Hf|]. exists []. now rewrite app_nil_r.
  - rewrite run_ops_cons_machine.
    destruct (run_op_finished o m Hf) as (Hf1 & l1 & Hl1 & Hc1).
    destruct (IH _ Hf1) as (Hf2 & l2 & Hl2 & Hc2).
    split; [exact Hf2|]. exists (l1 ++ l2).
    rewrite Hl2, Hl1, app_assoc. split; [reflexivity|].
    now apply Forall_app.
Qed.

Lemma run_op_left_NEW o m :
  state (priv m) <> FileState.NEW ->
  state (priv (snd (run_op format_v o m))) <> FileState.NEW
  /\ calls_of CallOpen (snd (run_op format_v o m)) = calls_of CallOpen m.
Proof.
  intros HN.
  destruct o as [st| | |buf sz br|buf sz bw|off wh want|sz].
  - destruct (run_op_rejected (DoSet st) m FileState.NEW eq_refl HN)
      as [func ->].
    split; [discriminate | reflexivity].
  - destruct (run_op_rejected DoOpen m FileState.NEW eq_refl HN)
      as [func ->].
    split; [discriminate | reflexivity].
  - simpl. destruct m as [p w l]. unfold close, calls_of. run_core.
    destruct (negb _); [destruct (close_cb p) as [cb|]|]; simpl;
      try destruct (cb _ _ _) as [[r w2] e2]; simpl;
      rewrite ?filter_app, ?length_app; simpl;
      (split; [discriminate | lia]).
  - simpl. unfold read.
    destruct (FileState.test (state (priv m))
                (FileState.bit FileState.OPENED)) eqn:T.
    + rewrite ENSURE_STATE_pass by exact T. apply test_OPENED in T.
      destruct m as [p w l]; unfold calls_of; run_core. simpl in T.
      destruct (br =? 0); [|destruct (read_cb p) as [cb|]]; simpl;
        try destruct (cb _ _ _ _ _ _) as [[r w2] e2];
        try destruct (format_v _ _ _) as [s ok]; try destruct r; simpl;
        rewrite ?T, ?filter_app, ?length_app; simpl;
        (split; [discriminate | lia]).
    + rewrite ENSURE_STATE_fail by exact T.
      split; [discriminate | reflexivity].
  - simpl. unfold write.
    destruct (FileState.test (state (priv m))
                (FileState.bit FileState.OPENED)) eqn:T.
    + rewrite ENSURE_STATE_pass by exact T. apply test_OPENED in T.
      destruct m as [p w l]; unfold calls_of; run_core. simpl in T.
      destruct (bw =? 0); [|destruct (write_cb p) as [cb|]]; simpl;
        try destruct (cb _ _ _ _ _ _) as [[r w2] e2];
        try destruct (format_v _ _ _) as [s ok]; try destruct r; simpl;
        rewrite ?T, ?filter_app, ?length_app; simpl;
        (split; [discriminate | lia]).
    + rewrite ENSURE_STATE_fail by exact T.
      split; [discriminate | reflexivity].
  - simpl. unfold bind, ret, seek.
    destruct (FileState.test (state (priv m))
                (FileState.bit FileState.OPENED)) eqn:T.
    + rewrite ENSURE_STATE_pass by exact T. apply test_OPENED in T.
      destruct m as [p w l]; unfold calls_of; run_core. simpl in T.
      destruct (seek_cb p) as [cb|]; simpl;
        try destruct (cb _ _ _ _ _) as [[[r w2] e2] t];
        try destruct (format_v _ _ _) as [s ok]; try destruct r; simpl;
        rewrite ?T, ?filter_app, ?length_app; simpl;
        (split; [discriminate | lia]).
    + rewrite ENSURE_STATE_fail by exact T.
      split; [discriminate | reflexivity].
  - simpl. unfold truncate.
    destruct (FileState.test (state (priv m))
                (FileState.bit FileState.OPENED)) eqn:T.
    + rewrite ENSURE_STATE_pass by exact T. apply test_OPENED in T.
      destruct m as [p w l]; unfold calls_of; run_core. simpl in T.
      destruct (truncate_cb p) as [cb|]; simpl;
        try destruct (cb _ _ _ _) as [[r w2] e2];
        try destruct (format_v _ _ _) as [s ok]; try destruct r; simpl;
        rewrite ?T, ?filter_app, ?length_app; simpl;
        (split; [discriminate | lia]).
    + rewrite ENSURE_STATE_fail by exact T.
      split; [discriminate | reflexivity].
Qed.

(** A handle that has left NEW never returns to it: whatever is called on
    it afterwards, it is not NEW again, its callback slots and user data
    stay as they are, and the open callback is not invoked again. *)
Theorem left_NEW_for_good (os : list (Op (W := W))) m :
  state (priv m) <> FileState.NEW ->
  let m' := snd (run_ops format_v os m) in
  state (priv m') <> FileState.NEW
  /\ slots (priv m') = slots (priv m)
  /\ calls_of CallOpen m' = calls_of CallOpen m.
Proof.
  revert m. induction os as [|o os IH]; intros m HN.
  - simpl. auto.
  - cbv zeta. rewrite run_ops_cons_machine.
    destruct (run_op_left_NEW o m HN) as [HN1 Hc1].
    pose proof (run_op_slots format_v o m (or_intror HN)) as Hs1.
    destruct (IH _ HN1) as (HN2 & Hs2 & Hc2).
    split; [exact HN2|]. split; congruence.
Qed.

(** *** file_open_callbacks on a NEW handle and on any other *)

(** On a NEW handle file_open_callbacks is open() on the handle with the
    seven values stored: it returns what open() returns. *)
Theorem file_open_callbacks_on_NEW ocb ccb rcb wcb scb tcb userdata m :
  state (priv m) = FileState.NEW ->
  file_open_callbacks format_v ocb ccb rcb wcb scb tcb userdata m
  = open format_v (with_callbacks ocb ccb rcb wcb scb tcb userdata m).
Proof.
  intros HN.
  destruct m as [p w l]. simpl in HN.
  unfold file_open_callbacks, bind, ret, with_callbacks.
  pose proof (call_setter_NEW format_v (SetOpenCallback ocb)
                (mkMachine p w l) HN) as E.
  simpl in E. rewrite E. clear E.
  match goal with |- context [set_close_callback _ _ ?m0] =>
    pose proof (call_setter_NEW format_v (SetCloseCallback ccb) m0 HN) as E
  end. simpl in E. rewrite E. clear E.
  match goal with |- context [set_read_callback _ _ ?m0] =>
    pose proof (call_setter_NEW format_v (SetReadCallback rcb) m0 HN) as E
  end. simpl in E. rewrite E. clear E.
  match goal with |- context [set_write_callback _ _ ?m0] =>
    pose proof (call_setter_NEW format_v (SetWriteCallback wcb) m0 HN) as E
  end. simpl in E. rewrite E. clear E.
  match goal with |- context [set_seek_callback _ _ ?m0] =>
    pose proof (call_setter_NEW format_v (SetSeekCallback scb) m0 HN) as E
  end. simpl in E. rewrite E. clear E.
  match goal with |- context [set_truncate_callback _ _ ?m0] =>
    pose proof (call_setter_NEW format_v (SetTruncateCallback tcb) m0 HN)
      as E
  end. simpl in E. rewrite E. clear E.
  match goal with |- context [set_callback_data _ _ ?m0] =>
    pose proof (call_setter_NEW format_v (SetCallbackData userdata) m0 HN)
      as E
  end. simpl in E. rewrite E. clear E.
  unfold store_open_cb, store_close_cb, store_read_cb, store_write_cb,
    store_seek_cb, store_truncate_cb, store_cb_userdata. simpl.
  destruct (open format_v _) as [r m'].
  rewrite !take_lower_OK. reflexivity.
Qed.

(** On a handle that is not NEW file_open_callbacks returns FATAL with
    PROGRAMMER_ERROR stored and the state FATAL; none of the seven values
    is stored and none of the callbacks is invoked, the close callback it
    was given included. *)
Theorem file_open_callbacks_rejected ocb ccb rcb wcb scb tcb userdata m :
  state (priv m) <> FileState.NEW ->
  let (r, m') :=
    file_open_callbacks format_v ocb ccb rcb wcb scb tcb userdata m in
  r = FileStatus.FATAL
  /\ error_code (priv m') = FileError.PROGRAMMER_ERROR
  /\ state (priv m') = FileState.FATAL
  /\ slots (priv m') = slots (priv m)
  /\ world m' = world m /\ calls m' = calls m.
Proof.
  intros HN.
  assert (R : forall (st : Setter) m0,
             state (priv m0) <> FileState.NEW ->
             exists m1,
               call_setter format_v st m0 = (FileStatus.FATAL, m1)
               /\ error_code (priv m1) = FileError.PROGRAMMER_ERROR
               /\ state (priv m1) = FileState.FATAL
               /\ slots (priv m1) = slots (priv m0)
               /\ world m1 = world m0 /\ calls m1 = calls m0).
  { intros st m0 H0.
    destruct (call_setter_not_NEW format_v st m0 H0) as [func ->].
    eexists. repeat split. }
  assert (F : forall m0 : Machine,
             state (priv m0) = FileState.FATAL ->
             state (priv m0) <> FileState.NEW)
    by (intros m0 ->; discriminate).
  unfold file_open_callbacks, bind, ret.
  destruct (R (SetOpenCallback ocb) m HN)
    as (m1 & E1 & _ & S1 & L1 & W1 & C1).
  simpl in E1. rewrite E1.
  destruct (R (SetCloseCallback ccb) m1 (F _ S1))
    as (m2 & E2 & _ & S2 & L2 & W2 & C2).
  simpl in E2. rewrite E2.
  destruct (R (SetReadCallback rcb) m2 (F _ S2))
    as (m3 & E3 & _ & S3 & L3 & W3 & C3).
  simpl in E3. rewrite E3.
  destruct (R (SetWriteCallback wcb) m3 (F _ S3))
    as (m4 & E4 & _ & S4 & L4 & W4 & C4).
  simpl in E4. rewrite E4.
  destruct (R (SetSeekCallback scb) m4 (F _ S4))
    as (m5 & E5 & _ & S5 & L5 & W5 & C5).
  simpl in E5. rewrite E5.
  destruct (R (SetTruncateCallback tcb) m5 (F _ S5))
    as (m6 & E6 & _ & S6 & L6 & W6 & C6).
  simpl in E6. rewrite E6.
  destruct (R (SetCallbackData userdata) m6 (F _ S6))
    as (m7 & E7 & _ & S7 & L7 & W7 & C7).
  simpl in E7. rewrite E7.
  destruct (run_op_rejected DoOpen m7 FileState.NEW eq_refl (F _ S7))
    as [func E8].
  simpl in E8. rewrite E8.
  split; [reflexivity|]. split; [reflexivity|]. split; [reflexivity|].
  split; [change (slots (priv m7) = slots (priv m)); congruence|].
  split; [change (world m7 = world m) | change (calls m7 = calls m)];
    congruence.
Qed.

End FileCoreMoreFacts.

(** ** The memory backend: reading, writing in place, truncating *)

Section MemoryMoreFacts.

Variable format_v : string -> string -> list FmtArg -> string * bool.
Variable strerror : Z -> string.
Variable pf : Platform.

(** memory_read_cb never fails and never reads past the end: it gives the
    bytes of the buffer from the position on, as many as the caller asked
    for or as are left, and advances the position by that count; at or
    past the end it gives no bytes and leaves the context as it is. *)
Theorem memory_read_up_to_end (ctx : MemoryFileCtx) (n : Z) (mem : Memory) :
  0 <= n ->
  0 <= pos ctx <= SIZE_MAX pf ->
  0 <= size ctx <= SIZE_MAX pf ->
  size ctx <= Z.of_nat (length (block_at mem (data ctx))) ->
  let r := memory_read_cb pf ctx n mem in
  rd_status r = FileStatus.OK
  /\ rd_bytes_read r = Z.min n (Z.max 0 (size ctx - pos ctx))
  /\ Z.of_nat (length (rd_bytes r)) = rd_bytes_read r
  /\ (forall i : nat,
         (i < length (rd_bytes r))%nat ->
         rd_bytes r !! i
         = block_at mem (data ctx) !! (Z.to_nat (pos ctx) + i)%nat)
  /\ pos (rd_ctx r) = pos ctx + rd_bytes_read r
  /\ size (rd_ctx r) = size ctx /\ data (rd_ctx r) = data ctx
  /\ (size ctx <= pos ctx -> rd_bytes r = [] /\ rd_ctx r = ctx).
Proof.
  intros Hn Hp Hs Hblk r. unfold r, memory_read_cb. simpl.
  set (to_read := if pos ctx <? size ctx
                  then Z.min (size ctx - pos ctx) n else 0).
  assert (Hto : to_read = Z.min n (Z.max 0 (size ctx - pos ctx)))
    by (unfold to_read; destruct (Z.ltb_spec (pos ctx) (size ctx)); lia).
  assert (Hlen : length (take (Z.to_nat to_read)
                           (drop (Z.to_nat (pos ctx))
                              (block_at mem (data ctx))))
                 = Z.to_nat to_read)
    by (rewrite length_take, length_drop; lia).
  rewrite to_size_t_small by lia.
  split; [reflexivity|]. split; [exact Hto|].
  split; [rewrite Hlen; lia|].
  split.
  { intros i Hi. rewrite Hlen in Hi.
    rewrite lookup_take_lt by exact Hi. apply lookup_drop. }
  split; [reflexivity|]. split; [reflexivity|]. split; [reflexivity|].
  intros Heof. assert (H0 : to_read = 0) by lia. rewrite H0. simpl.
  split; [reflexivity|]. rewrite Z.add_0_r. now destruct ctx.
Qed.

Lemma blocks_memcpy_to p off src n mem :
  block_at (memcpy_to p off src n mem) p
  = list_inserts (Z.to_nat off) (take (Z.to_nat n) src) (block_at mem p).
Proof.
  unfold block_at, memcpy_to, with_blocks. simpl.
  rewrite lookup_alter_eq. destruct (blocks mem !! p) as [blk|]; simpl.
  - reflexivity.
  - now rewrite list_inserts_nil.
Qed.

(** On a buffer that holds its [size] bytes, a write that does not
    overflow [size_t] ([pos + length buf <= SIZE_MAX]; one that does fails
    with INVALID_ARGUMENT before anything else) and that goes to a
    fixed-size buffer, or ends within the current size of any buffer, is
    done in place, whatever the allocator would do: it returns OK, writes
    as many bytes as fit before the end (none from a position past the
    end), leaves the buffer's address and size and the caller's slots as
    they are, and changes no byte outside the range written. *)
Theorem memory_write_in_place (alloc : AllocOutcome) (ctx : MemoryFileCtx)
  (buf : list byte) (mem : Memory) (e : ErrSlot) :
  let len := Z.of_nat (length buf) in
  let written := Z.min len (Z.max 0 (size ctx - pos ctx)) in
  0 <= pos ctx -> 0 <= size ctx ->
  pos ctx + len <= SIZE_MAX pf ->
  size ctx <= Z.of_nat (length (block_at mem (data ctx))) ->
  fixed_size ctx = true \/ pos ctx + len <= size ctx ->
  let r := memory_write_cb format_v strerror pf alloc ctx buf mem e in
  let blk := block_at (m_mem r) (data ctx) in
  m_status r = FileStatus.OK
  /\ m_out r = Some written
  /\ m_err r = e
  /\ data (m_ctx r) = data ctx /\ size (m_ctx r) = size ctx
  /\ pos (m_ctx r) = pos ctx + written
  /\ ptr_cells (m_mem r) = ptr_cells mem
  /\ size_cells (m_mem r) = size_cells mem
  /\ length blk = length (block_at mem (data ctx))
  /\ (forall i : nat,
         Z.of_nat i < written ->
         blk !! (Z.to_nat (pos ctx) + i)%nat = buf !! i)
  /\ (forall i : nat,
         Z.of_nat i < pos ctx \/ pos ctx + written <= Z.of_nat i ->
         blk !! i = block_at mem (data ctx) !! i).
Proof.
  intros len written Hp Hs Hmax Hblk Hcase.
  assert (Hw : 0 <= written <= len) by (unfold written, len; lia).
  assert (Hfit : pos ctx + written <= size ctx \/ written = 0)
    by (unfold written; lia).
  assert (E : memory_write_cb format_v strerror pf alloc ctx buf mem e
              = write_tail pf ctx buf written mem e).
  { unfold memory_write_cb. fold len.
    destruct (Z.gtb_spec (pos ctx) (SIZE_MAX pf - len)) as [Hov|_]; [lia|].
    rewrite to_size_t_small by lia.
    destruct (Z.gtb_spec (pos ctx + len) (size ctx)) as [Hgrow|Hno].
    - destruct Hcase as [Hfix|Hle]; [|lia]. rewrite Hfix.
      f_equal. unfold written.
      destruct (Z.leb_spec (pos ctx) (size ctx)); lia.
    - f_equal. unfold written. lia. }
  cbv zeta. rewrite E. unfold write_tail. simpl.
  rewrite to_size_t_small by lia.
  rewrite blocks_memcpy_to.
  assert (Htake : length (take (Z.to_nat written) buf) = Z.to_nat written)
    by (rewrite length_take; unfold len in Hw; lia).
  repeat split.
  - apply length_inserts.
  - intros i Hi.
    rewrite list_lookup_inserts by (rewrite ?Htake; lia).
    rewrite lookup_take_lt by lia. f_equal. lia.
  - intros i [Hi|Hi].
    + apply list_lookup_inserts_lt. lia.
    + apply list_lookup_inserts_ge. rewrite Htake. lia.
Qed.

Lemma block_at_write_back ctx mem p :
  block_at (write_back ctx mem) p = block_at mem p.
Proof. unfold block_at. now rewrite blocks_write_back. Qed.

Lemma block_at_memset_zero p off n mem :
  block_at (memset_zero p off n mem) p
  = list_inserts (Z.to_nat off) (replicate (Z.to_nat n) x00) (block_at mem p).
Proof.
  unfold block_at, memset_zero, with_blocks. simpl.
  rewrite lookup_alter_eq. destruct (blocks mem !! p) as [blk|]; simpl.
  - reflexivity.
  - now rewrite list_inserts_nil.
Qed.

Lemma block_at_inserted q blk b mem :
  block_at (with_blocks (<[q := blk]> b) mem) q = blk.
Proof. unfold block_at, with_blocks. simpl. now rewrite lookup_insert_eq. Qed.

Lemma inserted_slice (l k : list byte) (p : nat) :
  (p + length k <= length l)%nat ->
  take (length k) (drop p (list_inserts p k l)) = k.
Proof.
  intros H. apply list_eq. intros i.
  destruct (decide (i < length k)%nat) as [Hi|Hi].
  - rewrite lookup_take_lt by exact Hi. rewrite lookup_drop.
    rewrite list_lookup_inserts by lia. f_equal. lia.
  - rewrite lookup_take_ge by lia. symmetry. apply lookup_ge_None. lia.
Qed.

(** When a write writes all its bytes, in place or into the grown buffer,
    the buffer holds them from the old position on. *)
Lemma write_all_leaves_buf (alloc : AllocOutcome) (ctx : MemoryFileCtx)
  (buf : list byte) (mem : Memory) (e : ErrSlot) :
  let len := Z.of_nat (length buf) in
  0 <= pos ctx -> 0 <= size ctx ->
  pos ctx + len <= SIZE_MAX pf ->
  (pos ctx + len <= size ctx
   /\ size ctx <= Z.of_nat (length (block_at mem (data ctx))))
  \/ (size ctx < pos ctx + len /\ fixed_size ctx = false
      /\ exists q junk, alloc = AllocGives q junk) ->
  let w := memory_write_cb format_v strerror pf alloc ctx buf mem e in
  m_status w = FileStatus.OK
  /\ m_out w = Some len
  /\ pos (m_ctx w) = pos ctx + len
  /\ size (m_ctx w) = Z.max (size ctx) (pos ctx + len)
  /\ size (m_ctx w)
     <= Z.of_nat (length (block_at (m_mem w) (data (m_ctx w))))
  /\ take (length buf)
       (drop (Z.to_nat (pos ctx)) (block_at (m_mem w) (data (m_ctx w))))
     = buf.
Proof.
  intros len Hp Hs Hmax Hcase. cbv zeta. unfold memory_write_cb. fold len.
  destruct (Z.gtb_spec (pos ctx) (SIZE_MAX pf - len)) as [Hov|_]; [lia|].
  rewrite to_size_t_small by lia.
  destruct Hcase as [[Hfit Hblk] | (Hgrow & Hdyn & q & junk & ->)].
  - destruct (Z.gtb_spec (pos ctx + len) (size ctx)) as [?|_]; [lia|].
    unfold write_tail. simpl. rewrite to_size_t_small by lia.
    rewrite blocks_memcpy_to. unfold len. rewrite Nat2Z.id, firstn_all.
    fold len. rewrite length_inserts.
    repeat split; try lia.
    apply inserted_slice. lia.
  - destruct (Z.gtb_spec (pos ctx + len) (size ctx)) as [_|?]; [|lia].
    rewrite Hdyn. unfold realloc, write_tail. simpl.
    rewrite to_size_t_small by lia.
    rewrite blocks_memcpy_to. unfold len. rewrite Nat2Z.id, firstn_all.
    fold len.
    rewrite block_at_write_back, block_at_memset_zero, block_at_inserted.
    rewrite !length_inserts, length_resized.
    repeat split; try lia.
    apply inserted_slice. rewrite length_inserts, length_resized.
    unfold len. lia.
Qed.

(** Writing bytes, seeking back to where the write began and reading as
    many bytes returns the bytes written, both for a write within the
    buffer and for one that grows a dynamic buffer. *)
Theorem memory_write_seek_read_round_trip (alloc : AllocOutcome)
  (ctx : MemoryFileCtx) (buf : list byte) (mem : Memory) (e : ErrSlot) :
  let len := Z.of_nat (length buf) in
  0 <= pos ctx <= INT64_MAX -> 0 <= size ctx <= SIZE_MAX pf ->
  pos ctx + len <= SIZE_MAX pf ->
  (pos ctx + len <= size ctx
   /\ size ctx <= Z.of_nat (length (block_at mem (data ctx))))
  \/ (size ctx < pos ctx + len /\ fixed_size ctx = false
      /\ exists q junk, alloc = AllocGives q junk) ->
  let w := memory_write_cb format_v strerror pf alloc ctx buf mem e in
  let s :=
    memory_seek_cb format_v pf (m_ctx w) (pos ctx) SEEK_SET (m_mem w)
      (m_err w) in
  let r := memory_read_cb pf (m_ctx s) len (m_mem s) in
  m_status w = FileStatus.OK
  /\ m_status s = FileStatus.OK
  /\ m_out s = Some (pos ctx)
  /\ rd_status r = FileStatus.OK
  /\ rd_bytes r = buf
  /\ rd_bytes_read r = len
  /\ pos (rd_ctx r) = pos ctx + len.
Proof.
  intros len Hp Hs Hmax Hcase.
  pose proof (write_all_leaves_buf alloc ctx buf mem e (proj1 Hp) (proj1 Hs)
                Hmax Hcase) as Hw.
  cbv zeta in Hw. cbv zeta.
  set (w := memory_write_cb format_v strerror pf alloc ctx buf mem e) in *.
  set (s := memory_seek_cb format_v pf (m_ctx w) (pos ctx) SEEK_SET (m_mem w)
              (m_err w)).
  fold len in Hw. destruct Hw as (W1 & _ & W3 & W4 & W5 & W6).
  assert (Hseek : seek_checked pf (m_ctx w) (pos ctx) SEEK_SET (m_mem w)
                    (m_err w) s).
  { apply memory_seek_cb_checked.
    - unfold INT64_MIN, INT64_MAX in *. lia.
    - lia.
    - lia.
    - right. left. discriminate. }
  unfold seek_checked, seek_target in Hseek. simpl in Hseek.
  destruct (Z.leb_spec 0 (pos ctx)); [|lia].
  destruct (Z.leb_spec (pos ctx) (SIZE_MAX pf)); [|lia].
  simpl in Hseek. destruct Hseek as (S1 & S2 & S3 & S4 & S5 & S6 & _).
  split; [exact W1|]. split; [exact S1|]. split; [exact S3|].
  unfold memory_read_cb. simpl. rewrite S2, S4, S5, S6.
  destruct (Z.ltb_spec (pos ctx) (size (m_ctx w))) as [Hlt|Hge].
  - replace (Z.min (size (m_ctx w) - pos ctx) len) with len by lia.
    rewrite to_size_t_small by lia.
    unfold len at 1. rewrite Nat2Z.id.
    split; [reflexivity|]. split; [exact W6|]. split; reflexivity.
  - assert (Hz : len = 0) by lia.
    assert (Hnil : buf = [])
      by (apply length_zero_iff_nil; unfold len in Hz; lia).
    rewrite to_size_t_small by lia. rewrite Hz. unfold len in Hz.
    simpl. repeat split. now rewrite Hnil.
Qed.

(** memory_truncate_cb on a buffer whose size is not negative.  On a
    fixed-size buffer it returns UNSUPPORTED and changes nothing.  On a
    dynamic buffer whose reallocation succeeds, and for a new size that
    fits [size_t] (every size where [size_t] has 64 bits), it returns OK:
    the buffer is the reallocated block of exactly the new size with the
    old bytes below both sizes kept and zeros from the old size on, the
    context and the caller's slots hold the new pointer and size, and the
    position is as it was, also when it now lies past the end.  For a new
    size that does not fit [size_t] the sizes passed to [realloc] and
    [memset] wrap separately, and whenever the zeroed range then ends
    past the reallocated block the call overruns the block: its
    behaviour is undefined. *)
Theorem memory_truncate_resizes (ctx : MemoryFileCtx) (n : Z) (mem : Memory)
  (e : ErrSlot) :
  (fixed_size ctx = true ->
   forall alloc : AllocOutcome,
   exists r,
     memory_truncate_cb format_v strerror pf alloc ctx n mem e = Returns r
     /\ m_status r = FileStatus.UNSUPPORTED
     /\ fst (m_err r) = FileError.UNSUPPORTED
     /\ m_ctx r = ctx /\ m_mem r = mem)
  /\ (fixed_size ctx = false ->
      0 <= n <= SIZE_MAX pf -> 0 <= size ctx ->
      forall (q : positive) (junk : nat -> byte),
      exists r,
        memory_truncate_cb format_v strerror pf (AllocGives q junk) ctx n
          mem e = Returns r
        /\ let blk := block_at (m_mem r) (Z.pos q) in
           m_status r = FileStatus.OK
           /\ m_err r = e
           /\ data (m_ctx r) = Z.pos q /\ size (m_ctx r) = n
           /\ pos (m_ctx r) = pos ctx
           /\ blocks (m_mem r) !! Z.pos q = Some blk
           /\ Z.of_nat (length blk) = n
           /\ (forall i : nat,
                  Z.of_nat i < n -> Z.of_nat i < size ctx ->
                  (i < length (block_at mem (data ctx)))%nat ->
                  blk !! i = block_at mem (data ctx) !! i)
           /\ (forall i : nat,
                  size ctx <= Z.of_nat i < n -> blk !! i = Some x00)
           /\ (forall dp, data_ptr ctx = Some dp ->
                          ptr_cells (m_mem r) !! dp = Some (Z.pos q))
           /\ (forall sp, size_ptr ctx = Some sp ->
                          size_cells (m_mem r) !! sp = Some n))
  /\ (fixed_size ctx = false ->
      0 <= size ctx < n ->
      to_size_t pf n < size ctx + to_size_t pf (n - size ctx) ->
      forall (q : positive) (junk : nat -> byte),
        memory_truncate_cb format_v strerror pf (AllocGives q junk) ctx n
          mem e = Undefined).
Proof.
  split; [|split].
  - intros Hfix alloc. unfold memory_truncate_cb. rewrite Hfix.
    unfold set_error_slot. destruct (format_v _ _ _) as [s ok].
    eexists. split; [reflexivity|]. repeat split.
  - intros Hdyn Hn Hs q junk. unfold memory_truncate_cb. rewrite Hdyn.
    unfold realloc. rewrite to_size_t_small by lia. cbv zeta. cbv iota.
    change (Z.pos q =? 0) with false. cbv iota.
    set (old := block_at mem (data ctx)).
    assert (Hcells : forall mem2,
               (forall dp, data_ptr ctx = Some dp ->
                   ptr_cells (write_back (ctx_grow (Z.pos q) n ctx) mem2)
                     !! dp = Some (Z.pos q))
               /\ (forall sp, size_ptr ctx = Some sp ->
                      size_cells (write_back (ctx_grow (Z.pos q) n ctx) mem2)
                        !! sp = Some n)).
    { intros mem2. split; intros x Hx.
      - now rewrite (ptr_cells_write_back (ctx_grow (Z.pos q) n ctx) mem2 x).
      - now rewrite
          (size_cells_write_back (ctx_grow (Z.pos q) n ctx) mem2 x). }
    destruct (Z.gtb_spec n (size ctx)) as [Hgrow|Hshrink].
    + rewrite to_size_t_small by lia.
      unfold memset_zero_in. rewrite block_at_inserted, length_resized.
      destruct (Z.leb_spec (size ctx + (n - size ctx))
                  (Z.of_nat (Z.to_nat n))) as [_|Hbad]; [|lia].
      eexists. split; [reflexivity|]. simpl.
      rewrite block_at_write_back, block_at_memset_zero, block_at_inserted.
      split; [reflexivity|]. split; [reflexivity|]. split; [reflexivity|].
      split; [reflexivity|]. split; [reflexivity|].
      split.
      { rewrite blocks_write_back. unfold memset_zero, with_blocks. simpl.
        now rewrite lookup_alter_eq, lookup_insert_eq. }
      split; [rewrite length_inserts, length_resized; lia|].
      split.
      { intros i Hi1 Hi2 Hi3.
        rewrite list_lookup_inserts_lt by lia.
        apply lookup_resized_old; lia. }
      split.
      { intros i Hi.
        rewrite list_lookup_inserts
          by (rewrite ?length_replicate, ?length_resized; lia).
        apply lookup_replicate_2. lia. }
      apply Hcells.
    + eexists. split; [reflexivity|]. simpl.
      rewrite block_at_write_back, block_at_inserted.
      split; [reflexivity|]. split; [reflexivity|]. split; [reflexivity|].
      split; [reflexivity|]. split; [reflexivity|].
      split.
      { rewrite blocks_write_back. unfold with_blocks. simpl.
        now rewrite lookup_insert_eq. }
      split; [rewrite length_resized; lia|].
      split.
      { intros i Hi1 Hi2 Hi3. apply lookup_resized_old; lia. }
      split; [intros i Hi; lia|].
      apply Hcells.
  - intros Hdyn Hs Hover q junk. unfold memory_truncate_cb. rewrite Hdyn.
    unfold realloc. cbv zeta. cbv iota.
    change (Z.pos q =? 0) with false. cbv iota.
    destruct (Z.gtb_spec n (size ctx)) as [_|Hno]; [|lia].
    unfold memset_zero_in. rewrite block_at_inserted, length_resized.
    assert (H0 : 0 <= to_size_t pf n)
      by (unfold to_size_t; apply Z.mod_pos_bound;
          destruct pf; reflexivity).
    destruct (Z.leb_spec (size ctx + to_size_t pf (n - size ctx))
                (Z.of_nat (Z.to_nat (to_size_t pf n)))) as [Hfit|_];
      [lia|reflexivity].
Qed.

(** When [realloc] returns a null pointer, a growing write and a
    truncation of a dynamic buffer return FAILED with the negated errno
    stored and the context as it was.  If the allocator has left the old
    block alone, the buffer and the caller's slots are as before too.  If
    it has freed the block, as it may when the truncation asks for size
    0, the block is gone while the context and the caller's slots still
    hold its address. *)
Theorem memory_realloc_null_pointer (ctx : MemoryFileCtx)
  (buf : list byte) (n : Z) (mem : Memory) (e : ErrSlot) (errno : Z) :
  let len := Z.of_nat (length buf) in
  fixed_size ctx = false ->
  (0 <= pos ctx -> 0 <= size ctx -> pos ctx + len <= SIZE_MAX pf ->
   size ctx < pos ctx + len ->
   forall alloc : AllocOutcome,
     alloc = AllocFails errno \/ alloc = AllocFrees errno ->
     let r := memory_write_cb format_v strerror pf alloc ctx buf mem e in
     m_status r = FileStatus.FAILED /\ fst (m_err r) = - errno
     /\ m_ctx r = ctx /\ m_mem r = mem /\ m_out r = None)
  /\ (forall alloc : AllocOutcome,
        alloc = AllocFails errno
        \/ (alloc = AllocFrees errno /\ to_size_t pf n <> 0) ->
        exists r,
          memory_truncate_cb format_v strerror pf alloc ctx n mem e
          = Returns r
          /\ m_status r = FileStatus.FAILED /\ fst (m_err r) = - errno
          /\ m_ctx r = ctx /\ m_mem r = mem)
  /\ (to_size_t pf n = 0 ->
      exists r,
        memory_truncate_cb format_v strerror pf (AllocFrees errno) ctx n mem
          e = Returns r
        /\ m_status r = FileStatus.FAILED /\ fst (m_err r) = - errno
        /\ m_ctx r = ctx
        /\ blocks (m_mem r) = delete (data ctx) (blocks mem)
        /\ ptr_cells (m_mem r) = ptr_cells mem
        /\ size_cells (m_mem r) = size_cells mem).
Proof.
  intros len Hdyn. split; [|split].
  - intros Hp Hs Hmax Hgrow alloc Halloc.
    unfold memory_write_cb. fold len.
    destruct (Z.gtb_spec (pos ctx) (SIZE_MAX pf - len)) as [Hov|_]; [lia|].
    rewrite to_size_t_small by lia.
    destruct (Z.gtb_spec (pos ctx + len) (size ctx)) as [_|Hno]; [|lia].
    rewrite Hdyn. unfold realloc.
    destruct Halloc as [->| ->].
    + simpl. unfold set_error_slot. destruct (format_v _ _ _) as [s ok].
      repeat split.
    + destruct (Z.eqb_spec (pos ctx + len) 0) as [Hz|_]; [lia|].
      simpl. unfold set_error_slot. destruct (format_v _ _ _) as [s ok].
      repeat split.
  - intros alloc Halloc. unfold memory_truncate_cb. rewrite Hdyn.
    unfold realloc.
    destruct Halloc as [->|[-> Hnz]].
    + simpl. unfold set_error_slot. destruct (format_v _ _ _) as [s ok].
      eexists. split; [reflexivity|]. repeat split.
    + destruct (Z.eqb_spec (to_size_t pf n) 0) as [Hz|_]; [contradiction|].
      simpl. unfold set_error_slot. destruct (format_v _ _ _) as [s ok].
      eexists. split; [reflexivity|]. repeat split.
  - intros Hz. unfold memory_truncate_cb. rewrite Hdyn.
    unfold realloc. rewrite Hz. simpl.
    unfold set_error_slot. destruct (format_v _ _ _) as [s ok].
    eexists. split; [reflexivity|]. repeat split.
Qed.

(** memory_seek_cb checks the range exactly for SEEK_SET and SEEK_CUR, for
    SEEK_END with an offset that is not negative, and for SEEK_END
    altogether where [size_t] has 64 bits: a request for a position in
    [0, SIZE_MAX] succeeds, sets the position to it and reports it; any
    other request, and any other origin, fails with INVALID_ARGUMENT and
    leaves the context as it was. *)
Theorem memory_seek_range_check_exact (ctx : MemoryFileCtx)
  (offset whence : Z) (mem : Memory) (e : ErrSlot) :
  INT64_MIN <= offset <= INT64_MAX ->
  0 <= pos ctx <= SIZE_MAX pf ->
  0 <= size ctx <= SIZE_MAX pf ->
  pf = LP64 \/ whence <> SEEK_END \/ 0 <= offset ->
  seek_checked pf ctx offset whence mem e
    (memory_seek_cb format_v pf ctx offset whence mem e).
Proof. apply memory_seek_cb_checked. Qed.

End MemoryMoreFacts.

(** * Further properties of the native backends *)

Section NativeIoFacts.

Variable format_v : string -> string -> list FmtArg -> string * bool.
Context {OS : Type}.
Variable errno : OS -> Z.
Variable GetLastError : OS -> Z.
Variable strerror : Z -> string.
Variable FormatMessageW : Z -> option string.
Variable EINTR : Z.
Variable pf : Platform.
Variable to_off_t : Z -> Z.

Lemma io_fail_result {C} (status : FileStatus.t) (ctx : C) (os : OS) e code
  fmt args :
  let r := io_fail format_v status ctx os e code fmt args in
  io_status r = status /\ fst (io_err r) = code /\ io_ctx r = ctx
  /\ io_os r = os /\ io_out r = None.
Proof.
  unfold io_fail, set_error_slot.
  destruct (format_v _ _ _) as [s ok]. repeat split.
Qed.

Lemma close_fail_result {C} (os : OS) e code fmt args :
  let r := native_fail format_v (@None C) os e code fmt args in
  n_status r = FileStatus.FAILED /\ fst (n_err r) = code
  /\ n_ctx r = None /\ n_os r = os.
Proof.
  unfold native_fail, set_error_slot.
  destruct (format_v _ _ _) as [s ok]. repeat split.
Qed.

Lemma clamp_ssize_min (n : Z) : clamp_ssize pf n = Z.min n (SSIZE_MAX pf).
Proof. unfold clamp_ssize. destruct (Z.gtb_spec n (SSIZE_MAX pf)); lia. Qed.

Lemma clamp_uint_min (n : Z) : clamp_uint n = Z.min n UINT_MAX.
Proof. unfold clamp_uint. destruct (Z.gtb_spec n UINT_MAX); lia. Qed.

Lemma win32_fail_result (ctx : Win32FileCtx (OS := OS)) (os : OS) e fmt :
  let r := win32_fail format_v GetLastError FormatMessageW ctx os e fmt in
  io_status r = FileStatus.FAILED
  /\ fst (io_err r) = - GetLastError os
  /\ io_ctx r = win32_set_error (FormatMessageW (GetLastError os)) ctx
  /\ io_os r = os /\ io_out r = None.
Proof.
  unfold win32_fail, win32_error_string, io_fail, set_error_slot.
  destruct (FormatMessageW _) as [msg|];
    destruct (format_v _ _ _) as [s ok]; repeat split.
Qed.

(** One call of win32_seek_cb with a valid origin, in terms of the one call
    of SetFilePointerEx it makes. *)
Lemma win32_seek_cb_call (io : Win32IoFuncs) (ctx : Win32FileCtx (OS := OS))
  (offset whence mm : Z) (os : OS) e ok p os1 :
  move_method_of whence = Some mm ->
  fn_SetFilePointerEx io (handle ctx) offset mm os = (ok, p, os1) ->
  win32_seek_cb format_v GetLastError FormatMessageW io ctx offset whence os e
  = if ok then mkIoResult FileStatus.OK ctx os1 e (Some (to_uint64 p))
    else win32_fail format_v GetLastError FormatMessageW ctx os1 e
           "Failed to seek file: %ls".
Proof.
  intros Hmm Hcall. unfold win32_seek_cb. rewrite Hmm, Hcall.
  now destruct ok.
Qed.

(** fd_close_cb frees the context in every case.  It closes the descriptor
    only if the handle owns it and it is not negative: otherwise it returns
    OK and leaves the operating system and the stored error alone.  When it
    does close, the result is OK if [close] succeeds and FAILED with the
    negated errno stored if it fails. *)
Theorem fd_close_cb_releases_owned_only (io : FdIoFuncs)
  (ctx : FdFileCtx (OS := OS)) (os : OS) (e : ErrSlot) (rc : Z) (os1 : OS) :
  fn_close io (fd ctx) os = (rc, os1) ->
  let r := fd_close_cb format_v errno strerror io ctx os e in
  n_ctx r = None
  /\ (fd_owned ctx = false \/ fd ctx < 0 ->
      n_status r = FileStatus.OK /\ n_os r = os /\ n_err r = e)
  /\ (fd_owned ctx = true -> 0 <= fd ctx ->
      n_os r = os1
      /\ (0 <= rc -> n_status r = FileStatus.OK /\ n_err r = e)
      /\ (rc < 0 ->
          n_status r = FileStatus.FAILED /\ fst (n_err r) = - errno os1)).
Proof.
  clear GetLastError FormatMessageW EINTR to_off_t pf.
  intros Hcall r. subst r. unfold fd_close_cb. rewrite Hcall.
  destruct (fd_owned ctx) eqn:Ho; simpl;
    destruct (Z.geb_spec (fd ctx) 0) as [Hfd|Hfd]; simpl;
    destruct (Z.ltb_spec rc 0) as [Hrc|Hrc];
    try (pose proof (close_fail_result (C := FdFileCtx (OS := OS)) os1 e
           (- errno os1) "Failed to close file: %s"
           [ArgStr (strerror (errno os1))]) as (F1 & F2 & F3 & F4));
    repeat split; intros; try lia; try discriminate; try tauto;
    try (destruct H; [discriminate|lia]).
Qed.

(** posix_close_cb frees the context in every case.  It closes the stream
    only if the handle owns it and it is not null: otherwise it returns OK
    and leaves the operating system and the stored error alone.  When it
    does close, the result is FAILED with the negated errno stored if
    [fclose] returns EOF, and OK otherwise. *)
Theorem posix_close_cb_releases_owned_only (io : PosixIoFuncs)
  (ctx : PosixFileCtx (OS := OS)) (os : OS) (e : ErrSlot) (rc : Z)
  (os1 : OS) :
  fn_fclose io (fp ctx) os = (rc, os1) ->
  let r := posix_close_cb format_v errno strerror io ctx os e in
  n_ctx r = None
  /\ (posix_owned ctx = false \/ fp ctx = 0 ->
      n_status r = FileStatus.OK /\ n_os r = os /\ n_err r = e)
  /\ (posix_owned ctx = true -> fp ctx <> 0 ->
      n_os r = os1
      /\ (rc <> EOF -> n_status r = FileStatus.OK /\ n_err r = e)
      /\ (rc = EOF ->
          n_status r = FileStatus.FAILED /\ fst (n_err r) = - errno os1)).
Proof.
  intros Hcall r. subst r. unfold posix_close_cb. rewrite Hcall.
  destruct (posix_owned ctx) eqn:Ho; simpl;
    destruct (Z.eqb_spec (fp ctx) 0) as [Hfp|Hfp]; simpl;
    destruct (Z.eqb_spec rc EOF) as [Hrc|Hrc];
    try (pose proof (close_fail_result (C := PosixFileCtx (OS := OS)) os1 e
           (- errno os1) "Failed to close file: %s"
           [ArgStr (strerror (errno os1))]) as (F1 & F2 & F3 & F4));
    repeat split; intros; try congruence; try tauto;
    try (destruct H; [discriminate|congruence]).
Qed.

(** win32_close_cb frees the context in every case.  It closes the handle
    only if the File handle owns it and it is not INVALID_HANDLE_VALUE:
    otherwise it returns OK and leaves the operating system and the stored
    error alone.  When it does close, the result is OK if CloseHandle
    succeeds and FAILED with the negated last-error value stored if it
    fails. *)
Theorem win32_close_cb_releases_owned_only (io : Win32IoFuncs)
  (ctx : Win32FileCtx (OS := OS)) (os : OS) (e : ErrSlot) (ok : bool)
  (os1 : OS) :
  fn_CloseHandle io (handle ctx) os = (ok, os1) ->
  let r := win32_close_cb format_v GetLastError FormatMessageW io ctx os e in
  n_ctx r = None
  /\ (win32_owned ctx = false \/ handle ctx = INVALID_HANDLE_VALUE ->
      n_status r = FileStatus.OK /\ n_os r = os /\ n_err r = e)
  /\ (win32_owned ctx = true -> handle ctx <> INVALID_HANDLE_VALUE ->
      n_os r = os1
      /\ (ok = true -> n_status r = FileStatus.OK /\ n_err r = e)
      /\ (ok = false ->
          n_status r = FileStatus.FAILED
          /\ fst (n_err r) = - GetLastError os1)).
Proof.
  intros Hcall r. subst r. unfold win32_close_cb. rewrite Hcall.
  destruct (win32_error_string FormatMessageW ctx (GetLastError os1))
    as [msg ctx'].
  destruct (win32_owned ctx) eqn:Ho; simpl;
    destruct (Z.eqb_spec (handle ctx) INVALID_HANDLE_VALUE) as [Hh|Hh]; simpl;
    destruct ok; simpl;
    try (pose proof (close_fail_result (C := Win32FileCtx (OS := OS)) os1 e
           (- GetLastError os1) "Failed to close file: %ls"
           [ArgStr msg]) as (F1 & F2 & F3 & F4));
    repeat split; intros; try congruence; try tauto;
    try (destruct H; [discriminate|congruence]).
Qed.

(** fd_read_cb and fd_write_cb hand the system call the requested count
    cut down to SSIZE_MAX.  A result that is not negative is reported as
    the byte count with OK; a negative one gives RETRY if errno is EINTR
    and FAILED otherwise, with the negated errno stored and no count
    reported.  The context is never changed. *)
Theorem fd_read_write_clamped_and_retried (io : FdIoFuncs)
  (ctx : FdFileCtx (OS := OS)) (buf size' : Z) (os : OS) (e : ErrSlot)
  (n : Z) (os1 : OS) (n' : Z) (os1' : OS) :
  fn_read io (fd ctx) buf (Z.min size' (SSIZE_MAX pf)) os = (n, os1) ->
  fn_write io (fd ctx) buf (Z.min size' (SSIZE_MAX pf)) os = (n', os1') ->
  let r := fd_read_cb format_v errno strerror EINTR pf io ctx buf size' os e in
  let w :=
    fd_write_cb format_v errno strerror EINTR pf io ctx buf size' os e in
  (io_ctx r = ctx /\ io_os r = os1
   /\ (0 <= n ->
       io_status r = FileStatus.OK /\ io_out r = Some n /\ io_err r = e)
   /\ (n < 0 ->
       io_status r
       = (if errno os1 =? EINTR then FileStatus.RETRY else FileStatus.FAILED)
       /\ io_out r = None /\ fst (io_err r) = - errno os1))
  /\ (io_ctx w = ctx /\ io_os w = os1'
      /\ (0 <= n' ->
          io_status w = FileStatus.OK /\ io_out w = Some n' /\ io_err w = e)
      /\ (n' < 0 ->
          io_status w
          = (if errno os1' =? EINTR
             then FileStatus.RETRY else FileStatus.FAILED)
          /\ io_out w = None /\ fst (io_err w) = - errno os1')).
Proof.
  intros Hr Hw r w. subst r w. unfold fd_read_cb, fd_write_cb.
  rewrite clamp_ssize_min, Hr, Hw. split.
  - destruct (Z.ltb_spec n 0) as [Hn|Hn].
    + pose proof (io_fail_result (retry_or_failed errno EINTR os1) ctx os1 e
        (- errno os1) "Failed to read file: %s"
        [ArgStr (strerror (errno os1))]) as (F1 & F2 & F3 & F4 & F5).
      repeat split; intros; try lia; assumption.
    + repeat split; intros; try lia.
  - destruct (Z.ltb_spec n' 0) as [Hn|Hn].
    + pose proof (io_fail_result (retry_or_failed errno EINTR os1') ctx os1' e
        (- errno os1') "Failed to write file: %s"
        [ArgStr (strerror (errno os1'))]) as (F1 & F2 & F3 & F4 & F5).
      repeat split; intros; try lia; assumption.
    + repeat split; intros; try lia.
Qed.

(** fd_seek_cb and fd_truncate_cb never ask for a retry: a negative result
    of the system call gives FAILED with the negated errno stored, whatever
    errno is (EINTR included), and any other result gives OK with the error
    untouched; a successful seek reports the offset [lseek64] returned. *)
Theorem fd_seek_truncate_never_retry (io : FdIoFuncs)
  (ctx : FdFileCtx (OS := OS)) (offset whence size' : Z) (os : OS)
  (e : ErrSlot) (pos' : Z) (os1 : OS) (rc : Z) (os1' : OS) :
  fn_lseek64 io (fd ctx) offset whence os = (pos', os1) ->
  fd_fn_ftruncate64 io (fd ctx) (to_off_t size') os = (rc, os1') ->
  let s := fd_seek_cb format_v errno strerror io ctx offset whence os e in
  let t := fd_truncate_cb format_v errno strerror to_off_t io ctx size' os e in
  (io_ctx s = ctx /\ io_os s = os1
   /\ (0 <= pos' ->
       io_status s = FileStatus.OK /\ io_out s = Some pos' /\ io_err s = e)
   /\ (pos' < 0 ->
       io_status s = FileStatus.FAILED /\ io_out s = None
       /\ fst (io_err s) = - errno os1))
  /\ (io_ctx t = ctx /\ io_os t = os1' /\ io_out t = None
      /\ (0 <= rc -> io_status t = FileStatus.OK /\ io_err t = e)
      /\ (rc < 0 ->
          io_status t = FileStatus.FAILED
          /\ fst (io_err t) = - errno os1')).
Proof.
  intros Hs Ht s t. subst s t. unfold fd_seek_cb, fd_truncate_cb.
  rewrite Hs, Ht. split.
  - destruct (Z.ltb_spec pos' 0) as [Hn|Hn].
    + pose proof (io_fail_result FileStatus.FAILED ctx os1 e
        (- errno os1) "Failed to seek file: %s"
        [ArgStr (strerror (errno os1))]) as (F1 & F2 & F3 & F4 & F5).
      repeat split; intros; try lia; assumption.
    + repeat split; intros; try lia.
  - destruct (Z.ltb_spec rc 0) as [Hn|Hn].
    + pose proof (io_fail_result FileStatus.FAILED ctx os1' e
        (- errno os1') "Failed to truncate file: %s"
        [ArgStr (strerror (errno os1'))]) as (F1 & F2 & F3 & F4 & F5).
      repeat split; intros; try lia; assumption.
    + repeat split; intros; try lia.
Qed.

(** posix_read_cb and posix_write_cb treat a short count as an error only
    if the stream's error indicator is set.  A full count is reported with
    OK without [ferror] being consulted; a short count with the indicator
    clear is reported with OK as well (end of file); a short count with the
    indicator set gives RETRY if errno is EINTR and FAILED otherwise, with
    the negated errno stored and no count reported. *)
Theorem posix_read_write_short_count (io : PosixIoFuncs)
  (ctx : PosixFileCtx (OS := OS)) (buf size' : Z) (os : OS) (e : ErrSlot)
  (n : Z) (os1 : OS) (err : Z) (os2 : OS)
  (n' : Z) (os1' : OS) (err' : Z) (os2' : OS) :
  fn_fread io buf 1 size' (fp ctx) os = (n, os1) ->
  fn_ferror io (fp ctx) os1 = (err, os2) ->
  fn_fwrite io buf 1 size' (fp ctx) os = (n', os1') ->
  fn_ferror io (fp ctx) os1' = (err', os2') ->
  let r := posix_read_cb format_v errno strerror EINTR io ctx buf size' os e in
  let w :=
    posix_write_cb format_v errno strerror EINTR io ctx buf size' os e in
  (io_ctx r = ctx
   /\ (size' <= n ->
       io_status r = FileStatus.OK /\ io_out r = Some n /\ io_os r = os1
       /\ io_err r = e)
   /\ (n < size' -> err = 0 ->
       io_status r = FileStatus.OK /\ io_out r = Some n /\ io_os r = os2
       /\ io_err r = e)
   /\ (n < size' -> err <> 0 ->
       io_status r
       = (if errno os2 =? EINTR then FileStatus.RETRY else FileStatus.FAILED)
       /\ io_out r = None /\ io_os r = os2
       /\ fst (io_err r) = - errno os2))
  /\ (io_ctx w = ctx
      /\ (size' <= n' ->
          io_status w = FileStatus.OK /\ io_out w = Some n'
          /\ io_os w = os1' /\ io_err w = e)
      /\ (n' < size' -> err' = 0 ->
          io_status w = FileStatus.OK /\ io_out w = Some n'
          /\ io_os w = os2' /\ io_err w = e)
      /\ (n' < size' -> err' <> 0 ->
          io_status w
          = (if errno os2' =? EINTR
             then FileStatus.RETRY else FileStatus.FAILED)
          /\ io_out w = None /\ io_os w = os2'
          /\ fst (io_err w) = - errno os2')).
Proof.
  intros Hr He Hw He' r w. subst r w.
  unfold posix_read_cb, posix_write_cb, short_and_error.
  rewrite Hr, Hw. split.
  - destruct (Z.ltb_spec n size') as [Hn|Hn].
    + rewrite He. destruct (Z.eqb_spec err 0) as [Hz|Hz]; simpl.
      * repeat split; intros; try lia; congruence.
      * pose proof (io_fail_result (retry_or_failed errno EINTR os2) ctx os2
          e (- errno os2) "Failed to read file: %s"
          [ArgStr (strerror (errno os2))]) as (F1 & F2 & F3 & F4 & F5).
        repeat split; intros; try lia; try congruence; assumption.
    + repeat split; intros; try lia.
  - destruct (Z.ltb_spec n' size') as [Hn|Hn].
    + rewrite He'. destruct (Z.eqb_spec err' 0) as [Hz|Hz]; simpl.
      * repeat split; intros; try lia; congruence.
      * pose proof (io_fail_result (retry_or_failed errno EINTR os2') ctx
          os2' e (- errno os2') "Failed to write file: %s"
          [ArgStr (strerror (errno os2'))]) as (F1 & F2 & F3 & F4 & F5).
        repeat split; intros; try lia; try congruence; assumption.
    + repeat split; intros; try lia.
Qed.

(** posix_seek_cb, in terms of the calls it makes.  On a stream that is
    not seekable it returns UNSUPPORTED without calling anything.  On a
    seekable one it reads the position, seeks and reads the position again;
    if the first two fail it returns FAILED; if the last one fails it tries
    to seek back to the position it read first, and returns FAILED if that
    works and FATAL if it does not.  Only a complete success reports a new
    offset. *)
Theorem posix_seek_cb_outcomes (io : PosixIoFuncs)
  (ctx : PosixFileCtx (OS := OS)) (offset whence : Z) (os : OS)
  (e : ErrSlot) (old_pos : Z) (os1 : OS) (rc : Z) (os2 : OS) (new_pos : Z)
  (os3 : OS) (rc' : Z) (os4 : OS) :
  fn_ftello io (fp ctx) os = (old_pos, os1) ->
  fn_fseeko io (fp ctx) (to_off_t offset) whence os1 = (rc, os2) ->
  fn_ftello io (fp ctx) os2 = (new_pos, os3) ->
  fn_fseeko io (fp ctx) (to_off_t old_pos) SEEK_SET os3 = (rc', os4) ->
  let r :=
    posix_seek_cb format_v errno strerror to_off_t io ctx offset whence os e in
  io_ctx r = ctx
  /\ (can_seek ctx = false ->
      io_status r = FileStatus.UNSUPPORTED
      /\ fst (io_err r) = FileError.UNSUPPORTED
      /\ io_os r = os /\ io_out r = None)
  /\ (can_seek ctx = true ->
      (old_pos < 0 ->
       io_status r = FileStatus.FAILED /\ fst (io_err r) = - errno os1
       /\ io_os r = os1 /\ io_out r = None)
      /\ (0 <= old_pos -> rc < 0 ->
          io_status r = FileStatus.FAILED /\ fst (io_err r) = - errno os2
          /\ io_os r = os2 /\ io_out r = None)
      /\ (0 <= old_pos -> 0 <= rc -> 0 <= new_pos ->
          io_status r = FileStatus.OK /\ io_err r = e
          /\ io_os r = os3 /\ io_out r = Some (to_uint64 new_pos))
      /\ (0 <= old_pos -> 0 <= rc -> new_pos < 0 ->
          io_status r
          = (if rc' =? 0 then FileStatus.FAILED else FileStatus.FATAL)
          /\ fst (io_err r) = - errno os3
          /\ io_os r = os4 /\ io_out r = None)).
Proof.
  intros H1 H2 H3 H4 r. subst r. unfold posix_seek_cb.
  destruct (can_seek ctx) eqn:Hcs; simpl.
  - rewrite H1. destruct (Z.ltb_spec old_pos 0) as [Ho|Ho].
    { pose proof (io_fail_result FileStatus.FAILED ctx os1 e (- errno os1)
        "Failed to get file position: %s" [ArgStr (strerror (errno os1))])
        as (F1 & F2 & F3 & F4 & F5).
      repeat split; intros; try lia; try discriminate; assumption. }
    rewrite H2. destruct (Z.ltb_spec rc 0) as [Hrc|Hrc].
    { pose proof (io_fail_result FileStatus.FAILED ctx os2 e (- errno os2)
        "Failed to seek file: %s" [ArgStr (strerror (errno os2))])
        as (F1 & F2 & F3 & F4 & F5).
      repeat split; intros; try lia; try discriminate; assumption. }
    rewrite H3. destruct (Z.ltb_spec new_pos 0) as [Hn|Hn].
    { unfold set_error_slot. destruct (format_v _ _ _) as [s ok].
      rewrite H4. simpl.
      repeat split; intros; try lia; try discriminate. }
    repeat split; intros; try lia; try discriminate.
  - pose proof (io_fail_result FileStatus.UNSUPPORTED ctx os e
      FileError.UNSUPPORTED "Seek not supported: %s"
      [ArgStr (strerror (errno os))]) as (F1 & F2 & F3 & F4 & F5).
    repeat split; intros; try discriminate; assumption.
Qed.

(** posix_truncate_cb needs the descriptor behind the stream: if [fileno]
    gives none it returns UNSUPPORTED with that error code stored and does
    not truncate; otherwise it truncates that descriptor and returns OK, or
    FAILED with the negated errno stored.  It never asks for a retry. *)
Theorem posix_truncate_cb_needs_descriptor (io : PosixIoFuncs)
  (ctx : PosixFileCtx (OS := OS)) (size' : Z) (os : OS) (e : ErrSlot)
  (fd' : Z) (os1 : OS) (rc : Z) (os2 : OS) :
  fn_fileno (posix_funcs ctx) (fp ctx) os = (fd', os1) ->
  posix_fn_ftruncate64 io fd' (to_off_t size') os1 = (rc, os2) ->
  let r :=
    posix_truncate_cb format_v errno strerror to_off_t io ctx size' os e in
  io_ctx r = ctx /\ io_out r = None
  /\ (fd' < 0 ->
      io_status r = FileStatus.UNSUPPORTED
      /\ fst (io_err r) = FileError.UNSUPPORTED /\ io_os r = os1)
  /\ (0 <= fd' ->
      io_os r = os2
      /\ (0 <= rc -> io_status r = FileStatus.OK /\ io_err r = e)
      /\ (rc < 0 ->
          io_status r = FileStatus.FAILED
          /\ fst (io_err r) = - errno os2)).
Proof.
  intros H1 H2 r. subst r. unfold posix_truncate_cb. rewrite H1.
  destruct (Z.ltb_spec fd' 0) as [Hfd|Hfd].
  { pose proof (io_fail_result FileStatus.UNSUPPORTED ctx os1 e
      FileError.UNSUPPORTED "fileno() not supported for fp" [])
      as (F1 & F2 & F3 & F4 & F5).
    repeat split; intros; try lia; assumption. }
  rewrite H2. destruct (Z.ltb_spec rc 0) as [Hrc|Hrc].
  { pose proof (io_fail_result FileStatus.FAILED ctx os2 e (- errno os2)
      "Failed to truncate file: %s" [ArgStr (strerror (errno os2))])
      as (F1 & F2 & F3 & F4 & F5).
    repeat split; intros; try lia; assumption. }
  repeat split; intros; try lia.
Qed.

Section Seekability.

Variable S_ISDIR : Z -> bool.
Variable S_ISREG : Z -> bool.
Variable S_ISBLK : Z -> bool.
Variable EISDIR : Z.
Variable on_linux : bool.

(** A stream opened by posix_open_cb is seekable exactly if it was marked
    so before, or [fileno] gives a descriptor for it and that descriptor
    is a regular file (on Linux, a block device too).  On any other
    stream that opens, every posix_seek_cb returns UNSUPPORTED and leaves
    the operating system alone, whatever the stream functions would do. *)
Theorem posix_open_cb_seekability (ctx : PosixFileCtx (OS := OS)) (os : OS)
  (e : ErrSlot) (fp' : Z) (os1 : OS) (fd' : Z) (os2 : OS) (rc st_mode : Z)
  (os3 : OS) :
  posix_acquired ctx os = (fp', os1) ->
  fn_fileno (posix_funcs ctx) fp' os1 = (fd', os2) ->
  posix_fn_fstat (posix_funcs ctx) fd' os2 = (rc, st_mode, os3) ->
  let o :=
    posix_open_cb format_v errno strerror S_ISDIR S_ISREG S_ISBLK EISDIR
      on_linux ctx os e in
  n_status o = FileStatus.OK ->
  fp (n_ctx o) = fp'
  /\ can_seek (n_ctx o)
     = can_seek ctx
       || (0 <=? fd') && (S_ISREG st_mode || on_linux && S_ISBLK st_mode)
  /\ (can_seek (n_ctx o) = false ->
      forall (io : PosixIoFuncs) (offset whence : Z) (e' : ErrSlot),
        let r :=
          posix_seek_cb format_v errno strerror to_off_t io (n_ctx o) offset
            whence (n_os o) e' in
        io_status r = FileStatus.UNSUPPORTED /\ io_os r = n_os o
        /\ io_out r = None).
Proof.
  intros Hacq Hfileno Hstat o Hok.
  assert (Hseek : forall c : PosixFileCtx (OS := OS), can_seek c = false ->
            forall (io : PosixIoFuncs) (offset whence : Z) (o' : OS)
                   (e' : ErrSlot),
              let r :=
                posix_seek_cb format_v errno strerror to_off_t io c offset
                  whence o' e' in
              io_status r = FileStatus.UNSUPPORTED /\ io_os r = o'
              /\ io_out r = None).
  { intros c Hc io offset whence o' e'. unfold posix_seek_cb. rewrite Hc.
    simpl.
    pose proof (io_fail_result FileStatus.UNSUPPORTED c o' e'
      FileError.UNSUPPORTED "Seek not supported: %s"
      [ArgStr (strerror (errno o'))]) as (F1 & F2 & F3 & F4 & F5).
    repeat split; assumption. }
  assert (Hcheck : forall c : PosixFileCtx (OS := OS),
            fp c = fp' -> posix_funcs c = posix_funcs ctx ->
            can_seek c = can_seek ctx ->
            let q :=
              posix_check_stat format_v errno strerror S_ISDIR S_ISREG
                S_ISBLK EISDIR on_linux c os1 e in
            n_status q = FileStatus.OK ->
            fp (n_ctx q) = fp'
            /\ can_seek (n_ctx q)
               = can_seek ctx
                 || (0 <=? fd')
                    && (S_ISREG st_mode || on_linux && S_ISBLK st_mode)).
  { intros c Hfp Hfuncs Hcs. unfold posix_check_stat.
    rewrite Hfuncs, Hfp, Hfileno.
    replace (fd' >=? 0) with (0 <=? fd') by lia.
    destruct (0 <=? fd') eqn:Hfd; simpl.
    - rewrite Hstat. destruct (Z.ltb_spec rc 0) as [Hrc|Hrc].
      { pose proof (native_fail_result format_v c os3 e (- errno os3)
          "Failed to stat file: %s" [ArgStr (strerror (errno os3))])
          as (F1 & _).
        simpl in F1. intros Hq. rewrite F1 in Hq. discriminate. }
      destruct (S_ISDIR st_mode).
      { pose proof (native_fail_result format_v c os3 e (- EISDIR)
          "Cannot open directory" []) as (F1 & _).
        simpl in F1. intros Hq. rewrite F1 in Hq. discriminate. }
      destruct (S_ISREG st_mode || on_linux && S_ISBLK st_mode); simpl;
        intros _; split; try assumption.
      + now rewrite orb_true_r.
      + now rewrite Hcs, orb_false_r.
    - intros _. split; [assumption|]. now rewrite Hcs, orb_false_r. }
  unfold posix_acquired in Hacq. subst o. unfold posix_open_cb in *.
  destruct (negb (String.eqb (posix_filename ctx) "")) eqn:Hname.
  - rewrite Hacq in *.
    destruct (Z.eqb_spec fp' 0) as [Hz|Hz].
    { pose proof (native_fail_result format_v (posix_set_fp fp' ctx) os1 e
        (- errno os1) "Failed to open file: %s"
        [ArgStr (strerror (errno os1))]) as (F1 & _).
      simpl in F1. rewrite F1 in Hok. discriminate. }
    destruct (Hcheck (posix_set_fp fp' ctx) eq_refl eq_refl eq_refl Hok)
      as (G1 & G2).
    split; [exact G1|]. split; [exact G2|].
    intros Hc io offset whence e'. now apply Hseek.
  - injection Hacq as Hfp Hos. subst os1.
    destruct (Hcheck ctx Hfp eq_refl eq_refl Hok) as (G1 & G2).
    split; [exact G1|]. split; [exact G2|].
    intros Hc io offset whence e'. now apply Hseek.
Qed.

End Seekability.

(** win32_seek_cb accepts the three origins of stdio and nothing else: for
    any other value it returns FAILED with INVALID_ARGUMENT stored and
    calls nothing.  For a valid origin it calls SetFilePointerEx once with
    the matching move method; a success reports the new file pointer, a
    failure returns FAILED with the negated last-error value stored and
    the system's message kept in the context.  The handle stays the
    same. *)
Theorem win32_seek_cb_whence (io : Win32IoFuncs)
  (ctx : Win32FileCtx (OS := OS)) (offset whence : Z) (os : OS)
  (e : ErrSlot) :
  let r :=
    win32_seek_cb format_v GetLastError FormatMessageW io ctx offset whence
      os e in
  (whence <> SEEK_SET -> whence <> SEEK_CUR -> whence <> SEEK_END ->
   io_status r = FileStatus.FAILED
   /\ fst (io_err r) = FileError.INVALID_ARGUMENT
   /\ io_ctx r = ctx /\ io_os r = os /\ io_out r = None)
  /\ (forall (mm : Z) (ok : bool) (p : Z) (os1 : OS),
        (whence = SEEK_SET /\ mm = FILE_BEGIN)
        \/ (whence = SEEK_CUR /\ mm = FILE_CURRENT)
        \/ (whence = SEEK_END /\ mm = FILE_END) ->
        fn_SetFilePointerEx io (handle ctx) offset mm os = (ok, p, os1) ->
        io_os r = os1 /\ handle (io_ctx r) = handle ctx
        /\ (ok = true ->
            io_status r = FileStatus.OK /\ io_out r = Some (to_uint64 p)
            /\ io_ctx r = ctx /\ io_err r = e)
        /\ (ok = false ->
            io_status r = FileStatus.FAILED /\ io_out r = None
            /\ fst (io_err r) = - GetLastError os1
            /\ win32_error (io_ctx r) = FormatMessageW (GetLastError os1))).
Proof.
  intros r. subst r. split.
  - intros H1 H2 H3. unfold win32_seek_cb, move_method_of.
    destruct (Z.eqb_spec whence SEEK_CUR); [contradiction|].
    destruct (Z.eqb_spec whence SEEK_SET); [contradiction|].
    destruct (Z.eqb_spec whence SEEK_END); [contradiction|].
    pose proof (io_fail_result FileStatus.FAILED ctx os e
      FileError.INVALID_ARGUMENT "Invalid whence argument: %d"
      [ArgInt whence]) as (F1 & F2 & F3 & F4 & F5).
    repeat split; assumption.
  - intros mm ok p os1 Hw Hcall.
    assert (Hmm : move_method_of whence = Some mm)
      by (destruct Hw as [[-> ->]|[[-> ->]|[-> ->]]]; reflexivity).
    rewrite (win32_seek_cb_call io ctx offset whence mm os e ok p os1 Hmm
               Hcall).
    destruct ok.
    + repeat split; intros; discriminate.
    + pose proof (win32_fail_result ctx os1 e "Failed to seek file: %ls")
        as (F1 & F2 & F3 & F4 & F5).
      rewrite F1, F2, F3, F4, F5.
      repeat split; intros; discriminate.
Qed.

(** win32_read_cb, and win32_write_cb on a handle not in append mode, pass
    the requested count cut down to UINT_MAX.  A success reports the count
    the call stored; a failure returns FAILED (never RETRY) with the
    negated last-error value stored and the system's message kept in the
    context. *)
Theorem win32_read_write_clamped (io : Win32IoFuncs)
  (ctx : Win32FileCtx (OS := OS)) (buf size' : Z) (os : OS) (e : ErrSlot)
  (ok : bool) (n : Z) (os1 : OS) (ok' : bool) (n' : Z) (os1' : OS) :
  fn_ReadFile io (handle ctx) buf (Z.min size' UINT_MAX) os = (ok, n, os1) ->
  fn_WriteFile io (handle ctx) buf (Z.min size' UINT_MAX) os
  = (ok', n', os1') ->
  append ctx = false ->
  let r :=
    win32_read_cb format_v GetLastError FormatMessageW io ctx buf size' os e in
  let w :=
    win32_write_cb format_v GetLastError FormatMessageW io ctx buf size' os
      e in
  (io_os r = os1
   /\ (ok = true ->
       io_status r = FileStatus.OK /\ io_out r = Some n /\ io_ctx r = ctx
       /\ io_err r = e)
   /\ (ok = false ->
       io_status r = FileStatus.FAILED /\ io_out r = None
       /\ fst (io_err r) = - GetLastError os1
       /\ win32_error (io_ctx r) = FormatMessageW (GetLastError os1)))
  /\ (io_os w = os1'
      /\ (ok' = true ->
          io_status w = FileStatus.OK /\ io_out w = Some n'
          /\ io_ctx w = ctx /\ io_err w = e)
      /\ (ok' = false ->
          io_status w = FileStatus.FAILED /\ io_out w = None
          /\ fst (io_err w) = - GetLastError os1'
          /\ win32_error (io_ctx w) = FormatMessageW (GetLastError os1'))).
Proof.
  intros Hr Hw Happ r w. subst r w.
  unfold win32_read_cb, win32_write_cb, win32_write_here.
  rewrite Happ, clamp_uint_min, Hr, Hw. split.
  - destruct ok; simpl.
    + repeat split; intros; discriminate.
    + pose proof (win32_fail_result ctx os1 e "Failed to read file: %ls")
        as (F1 & F2 & F3 & F4 & F5).
      rewrite F1, F2, F3, F4, F5.
      repeat split; intros; discriminate.
  - destruct ok'; simpl.
    + repeat split; intros; discriminate.
    + pose proof (win32_fail_result ctx os1' e "Failed to write file: %ls")
        as (F1 & F2 & F3 & F4 & F5).
      rewrite F1, F2, F3, F4, F5.
      repeat split; intros; discriminate.
Qed.

(** In append mode win32_write_cb first moves the file pointer to the end
    of the file and writes there.  If that seek fails the callback returns
    the seek's FAILED, with the seek's error stored, and does not write:
    the operating system is as the seek left it and no count is
    reported. *)
Theorem win32_write_cb_append_seeks_to_end (io : Win32IoFuncs)
  (ctx : Win32FileCtx (OS := OS)) (buf size' : Z) (os : OS) (e : ErrSlot)
  (oks : bool) (p : Z) (os1 : OS) (okw : bool) (n : Z) (os2 : OS) :
  append ctx = true ->
  fn_SetFilePointerEx io (handle ctx) 0 FILE_END os = (oks, p, os1) ->
  fn_WriteFile io (handle ctx) buf (Z.min size' UINT_MAX) os1
  = (okw, n, os2) ->
  let w :=
    win32_write_cb format_v GetLastError FormatMessageW io ctx buf size' os
      e in
  (oks = false ->
   io_status w = FileStatus.FAILED /\ io_out w = None /\ io_os w = os1
   /\ fst (io_err w) = - GetLastError os1)
  /\ (oks = true ->
      io_os w = os2
      /\ (okw = true ->
          io_status w = FileStatus.OK /\ io_out w = Some n
          /\ io_ctx w = ctx /\ io_err w = e)
      /\ (okw = false ->
          io_status w = FileStatus.FAILED /\ io_out w = None
          /\ fst (io_err w) = - GetLastError os2)).
Proof.
  intros Happ Hs Hw w. subst w. unfold win32_write_cb. rewrite Happ.
  rewrite (win32_seek_cb_call io ctx 0 SEEK_END FILE_END os e oks p os1
             eq_refl Hs).
  destruct oks.
  - simpl. unfold win32_write_here. rewrite clamp_uint_min, Hw.
    split; [discriminate|]. intros _. destruct okw; simpl.
    + repeat split; intros; discriminate.
    + pose proof (win32_fail_result ctx os2 e "Failed to write file: %ls")
        as (F1 & F2 & F3 & F4 & F5).
      rewrite F1, F2, F4, F5.
      repeat split; intros; discriminate.
  - pose proof (win32_fail_result ctx os1 e "Failed to seek file: %ls")
      as (F1 & F2 & F3 & F4 & F5).
    rewrite F1. simpl. rewrite ?F1, ?F2, ?F4.
    split; [|discriminate]. intros _. repeat split.
Qed.

(** win32_truncate_cb saves the file pointer, moves it to the new size,
    sets the end of the file there and moves the pointer back to the saved
    position.  If saving or moving fails it returns FAILED at once and the
    end of the file is not set.  Otherwise the pointer is always moved
    back, also when setting the end of the file failed: the result is
    FATAL if moving back fails, else FAILED if setting the end of the file
    failed, else OK. *)
Theorem win32_truncate_cb_outcomes (io : Win32IoFuncs)
  (ctx : Win32FileCtx (OS := OS)) (size' : Z) (os : OS) (e : ErrSlot)
  (ok1 : bool) (cur : Z) (os1 : OS) (ok2 : bool) (p2 : Z) (os2 : OS)
  (ok : bool) (os3 : OS) (ok3 : bool) (p3 : Z) (os4 : OS) :
  fn_SetFilePointerEx io (handle ctx) 0 FILE_CURRENT os = (ok1, cur, os1) ->
  fn_SetFilePointerEx io (handle ctx) (to_int64 size') FILE_BEGIN os1
  = (ok2, p2, os2) ->
  fn_SetEndOfFile io (handle ctx) os2 = (ok, os3) ->
  fn_SetFilePointerEx io (handle ctx) (to_int64 (to_uint64 cur)) FILE_BEGIN
    os3 = (ok3, p3, os4) ->
  let r :=
    win32_truncate_cb format_v GetLastError FormatMessageW io ctx size' os e in
  io_out r = None
  /\ (ok1 = false ->
      io_status r = FileStatus.FAILED /\ io_os r = os1
      /\ fst (io_err r) = - GetLastError os1)
  /\ (ok1 = true -> ok2 = false ->
      io_status r = FileStatus.FAILED /\ io_os r = os2
      /\ fst (io_err r) = - GetLastError os2)
  /\ (ok1 = true -> ok2 = true ->
      io_os r = os4
      /\ io_status r
         = (if ok3 then if ok then FileStatus.OK else FileStatus.FAILED
            else FileStatus.FATAL)
      /\ (ok3 = false -> fst (io_err r) = - GetLastError os4)
      /\ (ok3 = true -> ok = false -> fst (io_err r) = - GetLastError os3)
      /\ (ok3 = true -> ok = true -> io_err r = e /\ io_ctx r = ctx)).
Proof.
  intros H1 H2 H3 H4 r. subst r. unfold win32_truncate_cb.
  rewrite (win32_seek_cb_call io ctx 0 SEEK_CUR FILE_CURRENT os e ok1 cur os1
             eq_refl H1).
  destruct ok1.
  2:{ pose proof (win32_fail_result ctx os1 e "Failed to seek file: %ls")
        as (F1 & F2 & F3 & F4 & F5).
      rewrite F1. simpl. rewrite ?F1, ?F2, ?F4.
      repeat split; intros; discriminate. }
  simpl.
  rewrite (win32_seek_cb_call io ctx (to_int64 size') SEEK_SET FILE_BEGIN os1
             e ok2 p2 os2 eq_refl H2).
  destruct ok2.
  2:{ pose proof (win32_fail_result ctx os2 e "Failed to seek file: %ls")
        as (F1 & F2 & F3 & F4 & F5).
      rewrite F1. simpl. rewrite ?F1, ?F2, ?F4.
      repeat split; intros; discriminate. }
  simpl. rewrite H3. destruct ok; simpl.
  - rewrite (win32_seek_cb_call io ctx (to_int64 (to_uint64 cur)) SEEK_SET
               FILE_BEGIN os3 e ok3 p3 os4 eq_refl H4).
    destruct ok3; simpl.
    + repeat split; intros; discriminate.
    + pose proof (win32_fail_result ctx os4 e "Failed to seek file: %ls")
        as (F1 & F2 & F3 & F4 & F5).
      rewrite F1, F2, F4.
      repeat split; intros; discriminate.
  - pose proof (win32_fail_result ctx os3 e
      "Failed to set EOF position: %ls") as (F1 & F2 & F3 & F4 & F5).
    set (t := win32_fail format_v GetLastError FormatMessageW ctx os3 e
                "Failed to set EOF position: %ls") in *.
    assert (Hh : handle (io_ctx t) = handle ctx) by now rewrite F3.
    rewrite <- Hh, <- F4 in H4.
    rewrite (win32_seek_cb_call io (io_ctx t) (to_int64 (to_uint64 cur))
               SEEK_SET FILE_BEGIN (io_os t) (io_err t) ok3 p3 os4 eq_refl
               H4).
    destruct ok3; simpl.
    + rewrite F1, F2. repeat split; intros; discriminate.
    + pose proof (win32_fail_result (io_ctx t) os4 (io_err t)
        "Failed to seek file: %ls") as (G1 & G2 & G3 & G4 & G5).
      rewrite G1, G2, G4.
      repeat split; intros; discriminate.
Qed.

End NativeIoFacts.

(** * Instances of the further properties *)

Lemma wrong_state_rejected_witness :
  let m := CountingDouble.handle FileStatus.OK in
  let o := DoRead 64 1 128 in
  fst (run_op CountingDouble.format_v o m) = FileStatus.FATAL
  /\ state (priv (snd (run_op CountingDouble.format_v o m)))
     = FileState.FATAL
  /\ calls (snd (run_op CountingDouble.format_v o m)) = [].
Proof.
  intros m o.
  pose proof (wrong_state_rejected CountingDouble.format_v o m
                FileState.OPENED eq_refl ltac:(vm_compute; discriminate))
    as H.
  cbv in H. destruct H as (H1 & _ & H3 & _ & _ & H6).
  split; [exact H1|]. split; [exact H3 | exact H6].
Defined.

Lemma empty_slot_unsupported_witness :
  let m := CountingDouble.opened FileStatus.OK in
  let o := DoTruncate 0 in
  fst (run_op CountingDouble.format_v o m) = FileStatus.UNSUPPORTED
  /\ state (priv (snd (run_op CountingDouble.format_v o m)))
     = FileState.OPENED.
Proof.
  intros m o.
  pose proof (empty_slot_unsupported CountingDouble.format_v o m eq_refl
                eq_refl) as H.
  cbv in H. destruct H as (H1 & _ & H3 & _).
  split; [exact H1 | exact H3].
Defined.

Lemma callback_result_decides_state_witness :
  let m := ReadingDouble.opened FileStatus.RETRY in
  let o := DoRead 64 1 128 in
  fst (run_op CountingDouble.format_v o m) = FileStatus.RETRY
  /\ state (priv (snd (run_op CountingDouble.format_v o m)))
     = FileState.OPENED
  /\ calls (snd (run_op CountingDouble.format_v o m))
     = [CallOpen; CallRead].
Proof.
  intros m o.
  pose proof (callback_result_decides_state CountingDouble.format_v o m
                FileStatus.RETRY 0%nat (FileError.NONE, "") eq_refl eq_refl)
    as H.
  cbv in H. destruct H as (H1 & _ & _ & H4 & _ & H6).
  split; [exact H1|]. split; [exact H4 | exact H6].
Defined.

Lemma finished_stays_finished_witness :
  finished
    (snd (run_ops CountingDouble.format_v [DoRead 64 1 128; DoClose]
            ReadingDouble.closed)).
Proof.
  exact (proj1 (finished_stays_finished CountingDouble.format_v
                  [DoRead 64 1 128; DoClose] ReadingDouble.closed
                  (or_introl eq_refl))).
Defined.

Lemma left_NEW_for_good_witness :
  let m := CountingDouble.opened FileStatus.OK in
  let m' :=
    snd (run_ops CountingDouble.format_v
           [DoSet (SetCallbackData 4096); DoOpen; DoClose] m) in
  state (priv m') <> FileState.NEW
  /\ calls_of CallOpen m' = calls_of CallOpen m.
Proof.
  intros m m'.
  destruct (left_NEW_for_good CountingDouble.format_v
              [DoSet (SetCallbackData 4096); DoOpen; DoClose] m
              ltac:(vm_compute; discriminate)) as (H1 & _ & H3).
  split; [exact H1 | exact H3].
Defined.

Lemma file_open_callbacks_on_NEW_witness :
  file_open_callbacks CountingDouble.format_v
    (Some (CountingDouble.open_cb_returning FileStatus.FAILED))
    (Some CountingDouble.counting_close_cb) None None None None 4096
    (File_new 0%nat)
  = open CountingDouble.format_v
      (with_callbacks
         (Some (CountingDouble.open_cb_returning FileStatus.FAILED))
         (Some CountingDouble.counting_close_cb) None None None None 4096
         (File_new 0%nat)).
Proof.
  exact (file_open_callbacks_on_NEW CountingDouble.format_v
           (Some (CountingDouble.open_cb_returning FileStatus.FAILED))
           (Some CountingDouble.counting_close_cb) None None None None 4096
           (File_new 0%nat) eq_refl).
Defined.

Lemma file_open_callbacks_rejected_witness :
  let m := CountingDouble.opened FileStatus.OK in
  let r :=
    file_open_callbacks CountingDouble.format_v None
      (Some CountingDouble.counting_close_cb) None None None None 4096 m in
  fst r = FileStatus.FATAL
  /\ state (priv (snd r)) = FileState.FATAL
  /\ world (snd r) = 0%nat.
Proof.
  intros m r. subst r.
  pose proof (file_open_callbacks_rejected CountingDouble.format_v None
                (Some CountingDouble.counting_close_cb) None None None None
                4096 m ltac:(vm_compute; discriminate)) as H.
  destruct (file_open_callbacks CountingDouble.format_v None
              (Some CountingDouble.counting_close_cb) None None None None
              4096 m) as [r0 m0].
  destruct H as (H1 & _ & H3 & _ & H5 & _).
  split; [exact H1|]. split; [exact H3 | exact H5].
Defined.

Lemma memory_read_up_to_end_witness :
  let r := memory_read_cb LP64 SeekDouble.ctx 100 SeekDouble.mem in
  rd_status r = FileStatus.OK
  /\ rd_bytes_read r = 7
  /\ pos (rd_ctx r) = 10.
Proof.
  intros r.
  destruct (memory_read_up_to_end LP64 SeekDouble.ctx 100 SeekDouble.mem
              ltac:(vm_compute; discriminate)
              ltac:(split; vm_compute; discriminate)
              ltac:(split; vm_compute; discriminate)
              ltac:(vm_compute; discriminate))
    as (H1 & H2 & _ & _ & H5 & _).
  split; [exact H1|]. split; [exact H2 | exact H5].
Defined.

Lemma memory_write_in_place_witness :
  let r :=
    memory_write_cb SeekDouble.format_v SeekDouble.strerror LP64
      (AllocFails 12) SeekDouble.ctx ["y"; "z"]%byte SeekDouble.mem
      (FileError.NONE, "") in
  m_status r = FileStatus.OK
  /\ m_out r = Some 2
  /\ pos (m_ctx r) = 5.
Proof.
  intros r.
  destruct (memory_write_in_place SeekDouble.format_v SeekDouble.strerror
              LP64 (AllocFails 12) SeekDouble.ctx ["y"; "z"]%byte
              SeekDouble.mem (FileError.NONE, "")
              ltac:(vm_compute; discriminate)
              ltac:(vm_compute; discriminate)
              ltac:(vm_compute; discriminate)
              ltac:(vm_compute; discriminate)
              (or_introl eq_refl))
    as (H1 & H2 & _ & _ & _ & H6 & _).
  split; [exact H1|]. split; [exact H2 | exact H6].
Defined.

Lemma memory_write_seek_read_round_trip_witness :
  let e := (FileError.NONE, "") in
  let w :=
    memory_write_cb SeekDouble.format_v SeekDouble.strerror LP64
      (AllocGives 8192 (fun _ => "x"%byte)) SeekDouble.dyn_ctx
      ["y"; "z"]%byte SeekDouble.dyn_mem e in
  let s :=
    memory_seek_cb SeekDouble.format_v LP64 (m_ctx w) 12 SEEK_SET (m_mem w)
      (m_err w) in
  let r := memory_read_cb LP64 (m_ctx s) 2 (m_mem s) in
  rd_status r = FileStatus.OK /\ rd_bytes r = ["y"; "z"]%byte.
Proof.
  intros e w s r.
  assert (Hgrow : size SeekDouble.dyn_ctx
                  < pos SeekDouble.dyn_ctx
                    + Z.of_nat (length ["y"; "z"]%byte))
    by (vm_compute; reflexivity).
  destruct (memory_write_seek_read_round_trip SeekDouble.format_v
              SeekDouble.strerror LP64 (AllocGives 8192 (fun _ => "x"%byte))
              SeekDouble.dyn_ctx ["y"; "z"]%byte SeekDouble.dyn_mem e
              ltac:(split; vm_compute; discriminate)
              ltac:(split; vm_compute; discriminate)
              ltac:(vm_compute; discriminate)
              (or_intror
                 (conj Hgrow
                    (conj eq_refl
                       (ex_intro _ 8192%positive
                          (ex_intro _ (fun _ => "x"%byte) eq_refl))))))
    as (_ & _ & _ & H4 & H5 & _).
  split; [exact H4 | exact H5].
Defined.

Lemma memory_truncate_resizes_witness :
  (exists r,
      memory_truncate_cb SeekDouble.format_v SeekDouble.strerror LP64
        (AllocGives 8192 (fun _ => "x"%byte)) SeekDouble.dyn_ctx 4
        SeekDouble.dyn_mem (FileError.NONE, "") = Returns r
      /\ m_status r = FileStatus.OK
      /\ size (m_ctx r) = 4
      /\ pos (m_ctx r) = 12
      /\ size_cells (m_mem r) !! 16 = Some 4)
  /\ memory_truncate_cb SeekDouble.format_v SeekDouble.strerror ILP32
       (AllocGives 8192 (fun _ => "x"%byte)) SeekDouble.dyn_ctx (2 ^ 32 + 4)
       SeekDouble.dyn_mem (FileError.NONE, "") = Undefined.
Proof.
  split.
  - destruct (memory_truncate_resizes SeekDouble.format_v
                SeekDouble.strerror LP64 SeekDouble.dyn_ctx 4
                SeekDouble.dyn_mem (FileError.NONE, "")) as (_ & G & _).
    destruct (G eq_refl ltac:(split; vm_compute; discriminate)
                ltac:(vm_compute; discriminate) 8192%positive
                (fun _ => "x"%byte))
      as (r & E & G1 & _ & _ & G4 & G5 & _ & _ & _ & _ & _ & G11).
    exists r. split; [exact E|]. split; [exact G1|]. split; [exact G4|].
    split; [exact G5|]. exact (G11 16 eq_refl).
  - destruct (memory_truncate_resizes SeekDouble.format_v
                SeekDouble.strerror ILP32 SeekDouble.dyn_ctx (2 ^ 32 + 4)
                SeekDouble.dyn_mem (FileError.NONE, "")) as (_ & _ & G).
    assert (Hs : 0 <= size SeekDouble.dyn_ctx < 2 ^ 32 + 4)
      by (split; vm_compute; [discriminate|reflexivity]).
    assert (Hover : to_size_t ILP32 (2 ^ 32 + 4)
                    < size SeekDouble.dyn_ctx
                      + to_size_t ILP32
                          (2 ^ 32 + 4 - size SeekDouble.dyn_ctx))
      by (vm_compute; reflexivity).
    exact (G eq_refl Hs Hover 8192%positive (fun _ => "x"%byte)).
Defined.

Lemma memory_realloc_null_pointer_witness :
  let r :=
    memory_write_cb SeekDouble.format_v SeekDouble.strerror LP64
      (AllocFails 12) SeekDouble.dyn_ctx ["y"; "z"]%byte SeekDouble.dyn_mem
      (FileError.NONE, "") in
  (m_status r = FileStatus.FAILED
   /\ fst (m_err r) = -12
   /\ m_ctx r = SeekDouble.dyn_ctx /\ m_mem r = SeekDouble.dyn_mem)
  /\ exists t,
      memory_truncate_cb SeekDouble.format_v SeekDouble.strerror LP64
        (AllocFrees 12) SeekDouble.dyn_ctx 0 SeekDouble.dyn_mem
        (FileError.NONE, "") = Returns t
      /\ m_status t = FileStatus.FAILED
      /\ data (m_ctx t) = 4096
      /\ blocks (m_mem t) !! 4096 = None.
Proof.
  intros r.
  destruct (memory_realloc_null_pointer SeekDouble.format_v
              SeekDouble.strerror LP64 SeekDouble.dyn_ctx ["y"; "z"]%byte 0
              SeekDouble.dyn_mem (FileError.NONE, "") 12 eq_refl)
    as (G & _ & F).
  assert (Hgrow : size SeekDouble.dyn_ctx
                  < pos SeekDouble.dyn_ctx
                    + Z.of_nat (length ["y"; "z"]%byte))
    by (vm_compute; reflexivity).
  destruct (G ltac:(vm_compute; discriminate) ltac:(vm_compute; discriminate)
              ltac:(vm_compute; discriminate) Hgrow (AllocFails 12)
              (or_introl eq_refl))
    as (G1 & G2 & G3 & G4 & _).
  split.
  - split; [exact G1|]. split; [exact G2|]. split; [exact G3 | exact G4].
  - destruct (F eq_refl) as (t & E & F1 & _ & F3 & F4 & _).
    exists t. split; [exact E|]. split; [exact F1|].
    split; [now rewrite F3|].
    rewrite F4. apply lookup_delete_eq.
Defined.

Lemma memory_seek_range_check_exact_witness :
  seek_checked LP64 SeekDouble.ctx (-4) SEEK_END SeekDouble.mem
    (FileError.NONE, "")
    (memory_seek_cb SeekDouble.format_v LP64 SeekDouble.ctx (-4) SEEK_END
       SeekDouble.mem (FileError.NONE, "")).
Proof.
  exact (memory_seek_range_check_exact SeekDouble.format_v LP64
           SeekDouble.ctx (-4) SEEK_END SeekDouble.mem (FileError.NONE, "")
           ltac:(split; vm_compute; discriminate)
           ltac:(split; vm_compute; discriminate)
           ltac:(split; vm_compute; discriminate)
           (or_introl eq_refl)).
Defined.

Lemma fd_close_cb_releases_owned_only_witness :
  let r :=
    fd_close_cb IoDouble.format_v IoDouble.last_error IoDouble.strerror
      IoDouble.fd_io_interrupted IoDouble.fd_ctx IoDouble.start
      IoDouble.no_error in
  n_ctx r = None
  /\ n_status r = FileStatus.FAILED
  /\ fst (n_err r) = - IoDouble.EINTR.
Proof.
  intros r.
  destruct (fd_close_cb_releases_owned_only IoDouble.format_v
              IoDouble.last_error IoDouble.strerror
              IoDouble.fd_io_interrupted IoDouble.fd_ctx IoDouble.start
              IoDouble.no_error (-1)
              (IoDouble.failing "close" IoDouble.EINTR IoDouble.start)
              eq_refl) as (H1 & _ & H3).
  destruct (H3 eq_refl ltac:(vm_compute; discriminate)) as (_ & _ & H6).
  destruct (H6 ltac:(vm_compute; reflexivity)) as (H7 & H8).
  split; [exact H1|]. split; [exact H7 | exact H8].
Defined.

Lemma posix_close_cb_releases_owned_only_witness :
  let r :=
    posix_close_cb IoDouble.format_v IoDouble.last_error IoDouble.strerror
      IoDouble.posix_io IoDouble.pipe_ctx IoDouble.start IoDouble.no_error in
  n_ctx r = None
  /\ n_status r = FileStatus.OK
  /\ IoDouble.trace (n_os r) = ["fclose"].
Proof.
  intros r.
  destruct (posix_close_cb_releases_owned_only IoDouble.format_v
              IoDouble.last_error IoDouble.strerror IoDouble.posix_io
              IoDouble.pipe_ctx IoDouble.start IoDouble.no_error 0
              (IoDouble.called "fclose" IoDouble.start) eq_refl)
    as (H1 & _ & H3).
  destruct (H3 eq_refl ltac:(vm_compute; discriminate)) as (H4 & H5 & _).
  destruct (H5 ltac:(vm_compute; discriminate)) as (H6 & _).
  split; [exact H1|]. split; [exact H6|].
  exact (f_equal IoDouble.trace H4).
Defined.

Lemma win32_close_cb_releases_owned_only_witness :
  let r :=
    win32_close_cb IoDouble.format_v IoDouble.last_error
      IoDouble.FormatMessageW IoDouble.win32_io IoDouble.win32_ctx
      IoDouble.start IoDouble.no_error in
  n_ctx r = None
  /\ n_status r = FileStatus.OK
  /\ IoDouble.trace (n_os r) = ["CloseHandle"].
Proof.
  intros r.
  destruct (win32_close_cb_releases_owned_only IoDouble.format_v
              IoDouble.last_error IoDouble.FormatMessageW IoDouble.win32_io
              IoDouble.win32_ctx IoDouble.start IoDouble.no_error true
              (IoDouble.called "CloseHandle" IoDouble.start) eq_refl)
    as (H1 & _ & H3).
  destruct (H3 eq_refl ltac:(vm_compute; discriminate)) as (H4 & H5 & _).
  destruct (H5 eq_refl) as (H6 & _).
  split; [exact H1|]. split; [exact H6|].
  exact (f_equal IoDouble.trace H4).
Defined.

Lemma fd_read_write_clamped_and_retried_witness :
  let r :=
    fd_read_cb IoDouble.format_v IoDouble.last_error IoDouble.strerror
      IoDouble.EINTR ILP32 IoDouble.fd_io IoDouble.fd_ctx 64 (2 ^ 32 - 1)
      IoDouble.start IoDouble.no_error in
  let w :=
    fd_write_cb IoDouble.format_v IoDouble.last_error IoDouble.strerror
      IoDouble.EINTR ILP32 IoDouble.fd_io_interrupted IoDouble.fd_ctx 64 8
      IoDouble.start IoDouble.no_error in
  io_status r = FileStatus.OK
  /\ io_out r = Some (2 ^ 31 - 1)
  /\ io_status w = FileStatus.RETRY
  /\ io_out w = None.
Proof.
  intros r w.
  destruct (fd_read_write_clamped_and_retried IoDouble.format_v
              IoDouble.last_error IoDouble.strerror IoDouble.EINTR ILP32
              IoDouble.fd_io IoDouble.fd_ctx 64 (2 ^ 32 - 1) IoDouble.start
              IoDouble.no_error (2 ^ 31 - 1)
              (IoDouble.called "read" IoDouble.start) (2 ^ 31 - 1)
              (IoDouble.called "write" IoDouble.start) eq_refl eq_refl)
    as ((_ & _ & R & _) & _).
  destruct (R ltac:(vm_compute; discriminate)) as (R1 & R2 & _).
  destruct (fd_read_write_clamped_and_retried IoDouble.format_v
              IoDouble.last_error IoDouble.strerror IoDouble.EINTR ILP32
              IoDouble.fd_io_interrupted IoDouble.fd_ctx 64 8 IoDouble.start
              IoDouble.no_error (-1)
              (IoDouble.failing "read" IoDouble.EINTR IoDouble.start) (-1)
              (IoDouble.failing "write" IoDouble.EINTR IoDouble.start)
              eq_refl eq_refl)
    as (_ & (_ & _ & _ & V)).
  destruct (V ltac:(vm_compute; reflexivity)) as (V1 & V2 & _).
  split; [exact R1|]. split; [exact R2|]. split; [exact V1 | exact V2].
Defined.

Lemma fd_seek_truncate_never_retry_witness :
  let s :=
    fd_seek_cb IoDouble.format_v IoDouble.last_error IoDouble.strerror
      IoDouble.fd_io_interrupted IoDouble.fd_ctx 16 SEEK_SET IoDouble.start
      IoDouble.no_error in
  let t :=
    fd_truncate_cb IoDouble.format_v IoDouble.last_error IoDouble.strerror
      IoDouble.to_off_t IoDouble.fd_io_interrupted IoDouble.fd_ctx 16
      IoDouble.start IoDouble.no_error in
  io_status s = FileStatus.FAILED
  /\ fst (io_err s) = - IoDouble.EINTR
  /\ io_status t = FileStatus.FAILED.
Proof.
  intros s t.
  destruct (fd_seek_truncate_never_retry IoDouble.format_v
              IoDouble.last_error IoDouble.strerror IoDouble.to_off_t
              IoDouble.fd_io_interrupted IoDouble.fd_ctx 16 SEEK_SET 16
              IoDouble.start IoDouble.no_error (-1)
              (IoDouble.failing "lseek64" IoDouble.EINTR IoDouble.start)
              (-1)
              (IoDouble.failing "ftruncate64" IoDouble.EINTR IoDouble.start)
              eq_refl eq_refl)
    as ((_ & _ & _ & S) & (_ & _ & _ & _ & T)).
  destruct (S ltac:(vm_compute; reflexivity)) as (S1 & _ & S3).
  destruct (T ltac:(vm_compute; reflexivity)) as (T1 & _).
  split; [exact S1|]. split; [exact S3 | exact T1].
Defined.

Lemma posix_read_write_short_count_witness :
  let r :=
    posix_read_cb IoDouble.format_v IoDouble.last_error IoDouble.strerror
      IoDouble.EINTR IoDouble.posix_io IoDouble.pipe_ctx 64 8 IoDouble.start
      IoDouble.no_error in
  io_status r = FileStatus.OK
  /\ io_out r = Some 2
  /\ IoDouble.trace (io_os r) = ["fread"; "ferror"].
Proof.
  intros r.
  destruct (posix_read_write_short_count IoDouble.format_v
              IoDouble.last_error IoDouble.strerror IoDouble.EINTR
              IoDouble.posix_io IoDouble.pipe_ctx 64 8 IoDouble.start
              IoDouble.no_error
              2 (IoDouble.called "fread" IoDouble.start)
              0 (IoDouble.called "ferror"
                   (IoDouble.called "fread" IoDouble.start))
              2 (IoDouble.called "fwrite" IoDouble.start)
              0 (IoDouble.called "ferror"
                   (IoDouble.called "fwrite" IoDouble.start))
              eq_refl eq_refl eq_refl eq_refl)
    as ((_ & _ & R & _) & _).
  destruct (R ltac:(vm_compute; reflexivity) eq_refl) as (R1 & R2 & R3 & _).
  split; [exact R1|]. split; [exact R2|].
  exact (f_equal IoDouble.trace R3).
Defined.

Lemma posix_seek_cb_outcomes_witness :
  let r :=
    posix_seek_cb IoDouble.format_v IoDouble.last_error IoDouble.strerror
      IoDouble.to_off_t IoDouble.posix_io IoDouble.seekable_ctx 16 SEEK_SET
      IoDouble.start IoDouble.no_error in
  io_status r = FileStatus.FATAL
  /\ fst (io_err r) = - IoDouble.EIO
  /\ IoDouble.trace (io_os r) = ["ftello"; "fseeko"; "ftello"; "fseeko"].
Proof.
  intros r.
  pose (os1 := IoDouble.called "ftello" IoDouble.start).
  pose (os2 := IoDouble.called "fseeko" os1).
  pose (os3 := IoDouble.failing "ftello" IoDouble.EIO os2).
  pose (os4 := IoDouble.failing "fseeko" IoDouble.EIO os3).
  destruct (posix_seek_cb_outcomes IoDouble.format_v IoDouble.last_error
              IoDouble.strerror IoDouble.to_off_t IoDouble.posix_io
              IoDouble.seekable_ctx 16 SEEK_SET IoDouble.start
              IoDouble.no_error 7 os1 0 os2 (-1) os3 (-1) os4
              eq_refl eq_refl eq_refl eq_refl)
    as (_ & _ & H).
  destruct (H eq_refl) as (_ & _ & _ & F).
  destruct (F ltac:(vm_compute; discriminate) ltac:(vm_compute; discriminate)
              ltac:(vm_compute; reflexivity)) as (F1 & F2 & F3 & _).
  split; [exact F1|]. split; [exact F2|].
  exact (f_equal IoDouble.trace F3).
Defined.

Lemma posix_truncate_cb_needs_descriptor_witness :
  let r :=
    posix_truncate_cb IoDouble.format_v IoDouble.last_error IoDouble.strerror
      IoDouble.to_off_t IoDouble.posix_io IoDouble.no_fd_ctx 16
      IoDouble.start IoDouble.no_error in
  io_status r = FileStatus.UNSUPPORTED
  /\ fst (io_err r) = FileError.UNSUPPORTED
  /\ IoDouble.trace (io_os r) = ["fileno"].
Proof.
  intros r.
  pose (os1 := IoDouble.failing "fileno" IoDouble.EBADF IoDouble.start).
  destruct (posix_truncate_cb_needs_descriptor IoDouble.format_v
              IoDouble.last_error IoDouble.strerror IoDouble.to_off_t
              IoDouble.posix_io IoDouble.no_fd_ctx 16 IoDouble.start
              IoDouble.no_error (-1) os1 0
              (IoDouble.called "ftruncate64" os1) eq_refl eq_refl)
    as (_ & _ & H & _).
  destruct (H ltac:(vm_compute; reflexivity)) as (H1 & H2 & H3).
  split; [exact H1|]. split; [exact H2|].
  exact (f_equal IoDouble.trace H3).
Defined.

Lemma posix_open_cb_seekability_witness :
  let o :=
    posix_open_cb IoDouble.format_v IoDouble.last_error IoDouble.strerror
      IoDouble.S_ISDIR IoDouble.S_ISREG IoDouble.S_ISBLK IoDouble.EISDIR true
      IoDouble.pipe_ctx IoDouble.start IoDouble.no_error in
  can_seek (n_ctx o) = false
  /\ io_status
       (posix_seek_cb IoDouble.format_v IoDouble.last_error IoDouble.strerror
          IoDouble.to_off_t IoDouble.posix_io (n_ctx o) 0 SEEK_CUR (n_os o)
          IoDouble.no_error)
     = FileStatus.UNSUPPORTED.
Proof.
  intros o.
  pose (os2 := IoDouble.called "fileno" IoDouble.start).
  destruct (posix_open_cb_seekability IoDouble.format_v IoDouble.last_error
              IoDouble.strerror IoDouble.to_off_t IoDouble.S_ISDIR
              IoDouble.S_ISREG IoDouble.S_ISBLK IoDouble.EISDIR true
              IoDouble.pipe_ctx IoDouble.start IoDouble.no_error
              0x1000 IoDouble.start 3 os2 0
              (Z.lor IoDouble.S_IFIFO 0x180) (IoDouble.called "fstat" os2)
              eq_refl eq_refl eq_refl eq_refl)
    as (_ & H2 & H3).
  split; [exact H2|].
  exact (proj1 (H3 eq_refl IoDouble.posix_io 0 SEEK_CUR IoDouble.no_error)).
Defined.

Lemma win32_seek_cb_whence_witness :
  let r :=
    win32_seek_cb IoDouble.format_v IoDouble.last_error
      IoDouble.FormatMessageW IoDouble.win32_io IoDouble.win32_ctx 0 3
      IoDouble.start IoDouble.no_error in
  io_status r = FileStatus.FAILED
  /\ fst (io_err r) = FileError.INVALID_ARGUMENT
  /\ io_os r = IoDouble.start.
Proof.
  intros r.
  destruct (win32_seek_cb_whence IoDouble.format_v IoDouble.last_error
              IoDouble.FormatMessageW IoDouble.win32_io IoDouble.win32_ctx 0
              3 IoDouble.start IoDouble.no_error) as (H & _).
  destruct (H ltac:(vm_compute; discriminate) ltac:(vm_compute; discriminate)
              ltac:(vm_compute; discriminate)) as (H1 & H2 & _ & H4 & _).
  split; [exact H1|]. split; [exact H2 | exact H4].
Defined.

Lemma win32_read_write_clamped_witness :
  let r :=
    win32_read_cb IoDouble.format_v IoDouble.last_error
      IoDouble.FormatMessageW IoDouble.win32_io IoDouble.win32_ctx 64
      (2 ^ 33) IoDouble.start IoDouble.no_error in
  io_status r = FileStatus.OK /\ io_out r = Some UINT_MAX.
Proof.
  intros r.
  destruct (win32_read_write_clamped IoDouble.format_v IoDouble.last_error
              IoDouble.FormatMessageW IoDouble.win32_io IoDouble.win32_ctx 64
              (2 ^ 33) IoDouble.start IoDouble.no_error
              true UINT_MAX (IoDouble.called "ReadFile" IoDouble.start)
              true UINT_MAX (IoDouble.called "WriteFile" IoDouble.start)
              eq_refl eq_refl eq_refl)
    as ((_ & R & _) & _).
  destruct (R eq_refl) as (R1 & R2 & _).
  split; [exact R1 | exact R2].
Defined.

Lemma win32_write_cb_append_seeks_to_end_witness :
  let w :=
    win32_write_cb IoDouble.format_v IoDouble.last_error
      IoDouble.FormatMessageW IoDouble.win32_io_unseekable
      IoDouble.win32_append_ctx 64 8 IoDouble.start IoDouble.no_error in
  io_status w = FileStatus.FAILED
  /\ io_out w = None
  /\ IoDouble.trace (io_os w) = ["SetFilePointerEx"].
Proof.
  intros w.
  pose (os1 :=
          IoDouble.failing "SetFilePointerEx" IoDouble.ERROR_INVALID_HANDLE
            IoDouble.start).
  destruct (win32_write_cb_append_seeks_to_end IoDouble.format_v
              IoDouble.last_error IoDouble.FormatMessageW
              IoDouble.win32_io_unseekable IoDouble.win32_append_ctx 64 8
              IoDouble.start IoDouble.no_error false 0 os1 true 8
              (IoDouble.called "WriteFile" os1) eq_refl eq_refl eq_refl)
    as (H & _).
  destruct (H eq_refl) as (H1 & H2 & H3 & _).
  split; [exact H1|]. split; [exact H2|].
  exact (f_equal IoDouble.trace H3).
Defined.

Lemma win32_truncate_cb_outcomes_witness :
  let r :=
    win32_truncate_cb IoDouble.format_v IoDouble.last_error
      IoDouble.FormatMessageW IoDouble.win32_io IoDouble.win32_ctx 16
      IoDouble.start IoDouble.no_error in
  io_status r = FileStatus.FATAL
  /\ IoDouble.trace (io_os r)
     = ["SetFilePointerEx"; "SetFilePointerEx"; "SetEndOfFile";
        "SetFilePointerEx"].
Proof.
  intros r.
  pose (os1 := IoDouble.called "SetFilePointerEx" IoDouble.start).
  pose (os2 := IoDouble.called "SetFilePointerEx" os1).
  pose (os3 := IoDouble.called "SetEndOfFile" os2).
  pose (os4 :=
          IoDouble.failing "SetFilePointerEx" IoDouble.ERROR_INVALID_HANDLE
            os3).
  destruct (win32_truncate_cb_outcomes IoDouble.format_v IoDouble.last_error
              IoDouble.FormatMessageW IoDouble.win32_io IoDouble.win32_ctx 16
              IoDouble.start IoDouble.no_error true 0 os1 true 16 os2 true
              os3 false 0 os4 eq_refl eq_refl eq_refl eq_refl)
    as (_ & _ & _ & H).
  destruct (H eq_refl eq_refl) as (H1 & H2 & _).
  split; [exact H2|].
  exact (f_equal IoDouble.trace H1).
Defined.
